(** * DjVuDocument: the document model of djvujs (library/src/DjVuDocument.js)

    A shallow embedding of the class [DjVuDocument]: the lazily filled page
    slots of an indirect document, the shared-resource map [djvi], the
    resident-byte counter [memoryUsage] with its governor
    [releaseMemoryIfRequired], the loader [getPage] / [_loadDependencies],
    the page-by-url lookup and the two rewriting operations [slice] and
    [concat].

    JavaScript objects are mutated in place and a thrown exception keeps the
    mutations made before it, so the methods are written in a state-and-error
    monad over the document record.  [getPage] and [_loadDependencies] are
    async: the callbacks of a dependency batch that are still waiting for
    their response when the batch is rejected stay in flight and run later,
    while the document is idle or while a later call is suspended at an
    [await]; the record lists them, and the methods take the schedule of
    these landings. *)

From Stdlib Require Import Ascii.
From stdpp Require Import base gmap list strings pretty.

Local Open Scope Z_scope.

(** ** Errors (DjVuErrors.js) and JavaScript runtime errors *)

Inductive DjVuError :=
  | IncorrectFileFormatDjVuError
  | NoSuchPageDjVuError (pageNumber : Z)
  | CorruptedFileDjVuError
  | NoBaseUrlDjVuError
  | UnsuccessfulRequestDjVuError (pageNumber : Z) (dependencyId : option string)
  | NetworkDjVuError (pageNumber : Z) (dependencyId : option string) (url : string)
  | TypeError          (* property access on undefined / null *)
  | LoopBound.         (* the bound of a modelled while loop was hit; shown unreachable *)

(** What a piece of code ends with: a value or a thrown error. *)
Inductive Outcome (A : Type) :=
  | Ok (a : A)
  | Throw (e : DjVuError).
Arguments Ok {A} a.
Arguments Throw {A} e.

(** ** Numbers

    The resident-byte counter is a JavaScript number that is only ever
    added to and subtracted from by byte lengths: an integer, or NaN once
    the arithmetic was done on [undefined]. *)
Inductive JsNumber :=
  | NaN
  | Num (z : Z).

Coercion Num : Z >-> JsNumber.
Arguments Some {A}%_type_scope & a.

(** ** Buffers and the byte cursor *)

(** An ArrayBuffer, as the string of its bytes. *)
Definition Buffer := string.

Definition byteLength (b : Buffer) : Z := Z.of_nat (String.length b).

(** Modelled from the spec: the byte cursor (ByteStream.js is not among the
    sources) reads a fixed 4-byte tag at its offset. *)
Definition readStr4 (off : nat) (b : Buffer) : string := String.substring off 4 b.

Definition byteAt (b : Buffer) (i : nat) : Z :=
  match String.get i b with
  | Some c => Z.of_nat (nat_of_ascii c)
  | None => 0
  end.

(** Modelled from the spec: the byte cursor reads a big-endian 32-bit
    integer (signed, as [DataView.getInt32]) at its offset. *)
Definition getInt32 (off : nat) (b : Buffer) : Z :=
  let u := ((byteAt b off * 256 + byteAt b (off + 1)) * 256 + byteAt b (off + 2)) * 256
           + byteAt b (off + 3) in
  if u <? 2 ^ 31 then u else u - 2 ^ 32.

(** JavaScript string concatenation of a possibly [null]/[undefined] value. *)
Definition js_str (undef : string) (o : option string) : string := default undef o.

(** ** Objects held by a document *)

(** A DjVuPage object.  [pg_ref] is the identity of the object (JavaScript
    compares pages with [!==]), [pg_buffer] is [bs.buffer.byteLength],
    [pg_length] is [bs.length] and [pg_deps] is what [getDependencies()]
    returns for it. *)
Record DjVuPage := {
  pg_ref : nat;
  pg_buffer : Z;
  pg_length : Z;
  pg_deps : list string;
}.

(** A DjViChunk object: [dv_buffer] is [bs.buffer.byteLength]. *)
Record DjViChunk := { dv_buffer : Z }.

(** One file of the directory: the i-th components of the parallel arrays
    [flags], [sizes], [ids], [names], [titles] of the DIRM chunk, and the raw
    bytes [offsets[i] .. offsets[i] + sizes[i]] of the document buffer. *)
Record DirEntry := {
  e_flags : Z;
  e_size : Z;
  e_id : string;
  e_name : string;
  e_title : string;
  e_span : Buffer;
}.

Record DIRMChunk := {
  dflags : Z;
  entries : list DirEntry;
}.

(** Modelled from the spec: the directory decoder (chunks/DirmChunk.js is not
    among the sources) exposes the bundled flag; in the DjVu container it is
    the top bit of the [dflags] byte, the low seven bits being the version. *)
Definition dflagsBundled (f : Z) : bool := Z.testbit f 7.

Definition dirmIsBundled (dm : DIRMChunk) : bool := dflagsBundled (dflags dm).

(** [(flags[i] & 63) === 1] *)
Definition isPageFlags (f : Z) : bool := Z.land f 63 =? 1.

Definition pageEntries (dm : DIRMChunk) : list DirEntry :=
  filter (λ e, isPageFlags (e_flags e) = true) (entries dm).

(** Modelled from the spec: the page count of the directory decoder. *)
Definition dirmPagesQuantity (dm : DIRMChunk) : nat := length (pageEntries dm).

(** Modelled from the spec: the file name of the page with a 1-based
    number, [undefined] when there is none. *)
Definition getPageNameByItsNumber (dm : DIRMChunk) (number : Z) : option string :=
  if number <? 1 then None else e_name <$> pageEntries dm !! Z.to_nat (number - 1).

(** Modelled from the spec: the file name of the first file of the
    directory with an identifier, [undefined] when there is none. *)
Definition getComponentNameByItsId (dm : DIRMChunk) (id : string) : option string :=
  (λ ie, e_name ie.2) <$> list_find (λ e, e_id e = id) (entries dm).

(** A callback of [_loadDependencies] whose request is still in flight when
    its batch is rejected: the identifier it was started for and what its
    request and checks (lines 262-287) end with. *)
Record Callback := {
  cb_id : string;
  cb_result : Outcome Buffer;
}.

(** What the document does to the outside world, in order: the requests it
    issues and the [reset()] calls it makes on page objects. *)
Inductive Event :=
  | EvFetch (url : string)
  | EvReset (ref : nat).

(** ** The document *)

Record DjVuDocument := {
  formId : string;                            (* this.id *)
  dirm : option DIRMChunk;
  navm : option Buffer;
  baseUrl : option string;                    (* null or a string *)
  memoryLimit : Z;
  bufferLength : Z;                           (* this.bs.buffer.byteLength *)
  pages : list (option DjVuPage);             (* a hole or null is None *)
  thumbs : list Buffer;
  djvi : gmap string DjViChunk;
  idToPageNumberMap : option (gmap string Z); (* undefined for a single page *)
  memoryUsage : option JsNumber;              (* undefined is None *)
  loadedPageNumbers : list nat;
  lastRequestedPage : option DjVuPage;
  isOnePageDependenciesLoaded : bool;
  nextRef : nat;                              (* next fresh object identity *)
  trace : list Event;                         (* oldest first *)
  inFlight : list Callback;                   (* callbacks of rejected batches *)
}.

Definition set_pages (d : DjVuDocument) (v : list (option DjVuPage)) :=
  {| formId := formId d; dirm := dirm d; navm := navm d; baseUrl := baseUrl d;
     memoryLimit := memoryLimit d; bufferLength := bufferLength d;
     pages := v; thumbs := thumbs d; djvi := djvi d;
     idToPageNumberMap := idToPageNumberMap d; memoryUsage := memoryUsage d;
     loadedPageNumbers := loadedPageNumbers d;
     lastRequestedPage := lastRequestedPage d;
     isOnePageDependenciesLoaded := isOnePageDependenciesLoaded d;
     nextRef := nextRef d; trace := trace d;
     inFlight := inFlight d |}.

Definition set_djvi (d : DjVuDocument) (v : gmap string DjViChunk) :=
  {| formId := formId d; dirm := dirm d; navm := navm d; baseUrl := baseUrl d;
     memoryLimit := memoryLimit d; bufferLength := bufferLength d;
     pages := pages d; thumbs := thumbs d; djvi := v;
     idToPageNumberMap := idToPageNumberMap d; memoryUsage := memoryUsage d;
     loadedPageNumbers := loadedPageNumbers d;
     lastRequestedPage := lastRequestedPage d;
     isOnePageDependenciesLoaded := isOnePageDependenciesLoaded d;
     nextRef := nextRef d; trace := trace d;
     inFlight := inFlight d |}.

Definition set_memoryUsage (d : DjVuDocument) (v : option JsNumber) :=
  {| formId := formId d; dirm := dirm d; navm := navm d; baseUrl := baseUrl d;
     memoryLimit := memoryLimit d; bufferLength := bufferLength d;
     pages := pages d; thumbs := thumbs d; djvi := djvi d;
     idToPageNumberMap := idToPageNumberMap d; memoryUsage := v;
     loadedPageNumbers := loadedPageNumbers d;
     lastRequestedPage := lastRequestedPage d;
     isOnePageDependenciesLoaded := isOnePageDependenciesLoaded d;
     nextRef := nextRef d; trace := trace d;
     inFlight := inFlight d |}.

Definition set_memoryLimit (d : DjVuDocument) (v : Z) :=
  {| formId := formId d; dirm := dirm d; navm := navm d; baseUrl := baseUrl d;
     memoryLimit := v; bufferLength := bufferLength d;
     pages := pages d; thumbs := thumbs d; djvi := djvi d;
     idToPageNumberMap := idToPageNumberMap d; memoryUsage := memoryUsage d;
     loadedPageNumbers := loadedPageNumbers d;
     lastRequestedPage := lastRequestedPage d;
     isOnePageDependenciesLoaded := isOnePageDependenciesLoaded d;
     nextRef := nextRef d; trace := trace d;
     inFlight := inFlight d |}.

Definition set_loadedPageNumbers (d : DjVuDocument) (v : list nat) :=
  {| formId := formId d; dirm := dirm d; navm := navm d; baseUrl := baseUrl d;
     memoryLimit := memoryLimit d; bufferLength := bufferLength d;
     pages := pages d; thumbs := thumbs d; djvi := djvi d;
     idToPageNumberMap := idToPageNumberMap d; memoryUsage := memoryUsage d;
     loadedPageNumbers := v;
     lastRequestedPage := lastRequestedPage d;
     isOnePageDependenciesLoaded := isOnePageDependenciesLoaded d;
     nextRef := nextRef d; trace := trace d;
     inFlight := inFlight d |}.

Definition set_lastRequestedPage (d : DjVuDocument) (v : option DjVuPage) :=
  {| formId := formId d; dirm := dirm d; navm := navm d; baseUrl := baseUrl d;
     memoryLimit := memoryLimit d; bufferLength := bufferLength d;
     pages := pages d; thumbs := thumbs d; djvi := djvi d;
     idToPageNumberMap := idToPageNumberMap d; memoryUsage := memoryUsage d;
     loadedPageNumbers := loadedPageNumbers d;
     lastRequestedPage := v;
     isOnePageDependenciesLoaded := isOnePageDependenciesLoaded d;
     nextRef := nextRef d; trace := trace d;
     inFlight := inFlight d |}.

Definition set_isOnePageDependenciesLoaded (d : DjVuDocument) (v : bool) :=
  {| formId := formId d; dirm := dirm d; navm := navm d; baseUrl := baseUrl d;
     memoryLimit := memoryLimit d; bufferLength := bufferLength d;
     pages := pages d; thumbs := thumbs d; djvi := djvi d;
     idToPageNumberMap := idToPageNumberMap d; memoryUsage := memoryUsage d;
     loadedPageNumbers := loadedPageNumbers d;
     lastRequestedPage := lastRequestedPage d;
     isOnePageDependenciesLoaded := v;
     nextRef := nextRef d; trace := trace d;
     inFlight := inFlight d |}.

Definition set_nextRef (d : DjVuDocument) (v : nat) :=
  {| formId := formId d; dirm := dirm d; navm := navm d; baseUrl := baseUrl d;
     memoryLimit := memoryLimit d; bufferLength := bufferLength d;
     pages := pages d; thumbs := thumbs d; djvi := djvi d;
     idToPageNumberMap := idToPageNumberMap d; memoryUsage := memoryUsage d;
     loadedPageNumbers := loadedPageNumbers d;
     lastRequestedPage := lastRequestedPage d;
     isOnePageDependenciesLoaded := isOnePageDependenciesLoaded d;
     nextRef := v; trace := trace d;
     inFlight := inFlight d |}.

Definition set_trace (d : DjVuDocument) (v : list Event) :=
  {| formId := formId d; dirm := dirm d; navm := navm d; baseUrl := baseUrl d;
     memoryLimit := memoryLimit d; bufferLength := bufferLength d;
     pages := pages d; thumbs := thumbs d; djvi := djvi d;
     idToPageNumberMap := idToPageNumberMap d; memoryUsage := memoryUsage d;
     loadedPageNumbers := loadedPageNumbers d;
     lastRequestedPage := lastRequestedPage d;
     isOnePageDependenciesLoaded := isOnePageDependenciesLoaded d;
     nextRef := nextRef d; trace := v;
     inFlight := inFlight d |}.

Definition set_inFlight (d : DjVuDocument) (v : list Callback) :=
  {| formId := formId d; dirm := dirm d; navm := navm d; baseUrl := baseUrl d;
     memoryLimit := memoryLimit d; bufferLength := bufferLength d;
     pages := pages d; thumbs := thumbs d; djvi := djvi d;
     idToPageNumberMap := idToPageNumberMap d; memoryUsage := memoryUsage d;
     loadedPageNumbers := loadedPageNumbers d;
     lastRequestedPage := lastRequestedPage d;
     isOnePageDependenciesLoaded := isOnePageDependenciesLoaded d;
     nextRef := nextRef d; trace := trace d;
     inFlight := v |}.

(** ** The state-and-error monad of the methods *)

Definition M (A : Type) : Type := DjVuDocument → Outcome A * DjVuDocument.

Definition ret {A} (a : A) : M A := λ d, (Ok a, d).
Definition throw {A} (e : DjVuError) : M A := λ d, (Throw e, d).
Definition bind {A B} (m : M A) (k : A → M B) : M B :=
  λ d, match m d with
       | (Ok a, d') => k a d'
       | (Throw e, d') => (Throw e, d')
       end.
Definition get : M DjVuDocument := λ d, (Ok d, d).
Definition modify (f : DjVuDocument → DjVuDocument) : M unit := λ d, (Ok tt, f d).

Notation "'let*' x ':=' m 'in' k" := (bind m (λ x, k))
  (at level 10, x binder, m at level 100, k at level 200,
   format "'[v' 'let*'  x  ':='  m  'in' '/' k ']'").

Definition emit (e : Event) : M unit := modify (λ d, set_trace d (trace d ++ [e])).

(** ** Simple accessors *)

Definition isBundled (d : DjVuDocument) : bool :=
  match dirm d with Some dm => dirmIsBundled dm | None => true end.

Definition getPagesQuantity (d : DjVuDocument) : nat :=
  match dirm d with Some dm => dirmPagesQuantity dm | None => 1%nat end.

Definition getMemoryUsage (d : DjVuDocument) : option JsNumber := memoryUsage d.
Definition getMemoryLimit (d : DjVuDocument) : Z := memoryLimit d.
Definition setMemoryLimit (limit : Z) : M unit := modify (λ d, set_memoryLimit d limit).

(** [this.pages[number - 1]]: a hole, [null] and an index outside the array
    all read as a falsy value. *)
Definition slot (d : DjVuDocument) (number : Z) : option DjVuPage :=
  if number <? 1 then None else mjoin (pages d !! Z.to_nat (number - 1)).

Definition getPageUnsafe (d : DjVuDocument) (number : Z) : option DjVuPage := slot d number.

(** [a !== b] on page values: two falsy values are not told apart here since
    every use is guarded by the truthiness of one side. *)
Definition sameRef (a b : option DjVuPage) : bool :=
  match a, b with
  | Some p, Some q => Nat.eqb (pg_ref p) (pg_ref q)
  | None, None => true
  | _, _ => false
  end.

(** Comparisons of the counter with a number: [undefined] is converted to
    NaN, and every comparison with NaN is false. *)
Definition js_gt (c : option JsNumber) (l : Z) : bool :=
  match c with Some (Num v) => l <? v | _ => false end.
Definition js_le (c : option JsNumber) (l : Z) : bool :=
  match c with Some (Num v) => v <=? l | _ => false end.

(** [c + n] and [c - n] for a byte length [n]: NaN when [c] is [undefined]
    or NaN. *)
Definition js_add (c : option JsNumber) (n : Z) : option JsNumber :=
  Some match c with Some (Num v) => Num (v + n) | _ => NaN end.
Definition js_sub (c : option JsNumber) (n : Z) : option JsNumber :=
  Some match c with Some (Num v) => Num (v - n) | _ => NaN end.
Arguments js_add !c n /.
Arguments js_sub !c n /.

(** [this.memoryUsage += n] *)
Definition addMemory (n : Z) : M unit :=
  modify (λ d, set_memoryUsage d (js_add (memoryUsage d) n)).

(** ** The memory governor *)

Definition resetLastRequestedPage : M unit :=
  let* d := get in
  let* _ := match lastRequestedPage d with
            | Some p => emit (EvReset (pg_ref p))
            | None => ret tt
            end in
  modify (λ d, set_lastRequestedPage d None).

(** The [while] loop of [releaseMemoryIfRequired]; [queue] is
    [this.loadedPageNumbers], which each turn shifts. *)
Fixpoint evictPages (queue : list nat) : M unit :=
  λ d,
    if js_gt (memoryUsage d) (memoryLimit d) then
      match queue with
      | [] => (Ok tt, d)
      | number :: rest =>
          let d1 := set_loadedPageNumbers d rest in
          match pages d1 !! number with
          | Some (Some p) =>
              evictPages rest
                (set_pages (set_memoryUsage d1 (js_sub (memoryUsage d1) (pg_buffer p)))
                           (<[number := None]> (pages d1)))
          | _ => (Throw TypeError, d1)
          end
      end
    else (Ok tt, d).

(** [preservedDependencies.forEach(id => { newDjVi[id] = this.djvi[id]; ... })] *)
Fixpoint preserveLoop (ids : list string) (newDjVi : gmap string DjViChunk)
  : M (gmap string DjViChunk) :=
  match ids with
  | [] => ret newDjVi
  | id :: rest =>
      let* d := get in
      match djvi d !! id with
      | Some c =>
          let* _ := addMemory (dv_buffer c) in
          preserveLoop rest (<[id := c]> newDjVi)
      | None => throw TypeError
      end
  end.

(** [Object.keys(this.djvi).forEach(key => this.memoryUsage -= ...)] *)
Definition subtractAll (m : gmap string DjViChunk) : M unit :=
  modify (λ d, set_memoryUsage d
                 (map_fold (λ _ c acc, js_sub acc (dv_buffer c)) (memoryUsage d) m)).

Definition releaseMemoryIfRequired (preservedDependencies : option (list string)) : M unit :=
  let* d := get in
  if js_le (memoryUsage d) (memoryLimit d) then ret tt
  else
    let* _ := (λ d, evictPages (loadedPageNumbers d) d) in
    let* d := get in
    if js_gt (memoryUsage d) (memoryLimit d) && bool_decide (loadedPageNumbers d = []) then
      let* _ := resetLastRequestedPage in
      let* newDjVi := preserveLoop (default [] preservedDependencies) ∅ in
      let* d := get in
      let* _ := subtractAll (djvi d) in
      modify (λ d, set_djvi d newDjVi)
    else ret tt.

(** ** The transport and the page decoder

    [fetch] is the transport; [arrival] is the time at which the request of a
    URL settles, which fixes the order in which the concurrent callbacks of
    one dependency batch resume; [getDependencies] is the page decoder
    (DjVuPage.js is not among the sources): the identifiers of the INCL
    chunks of a page file. *)

Inductive FetchResult :=
  | NetworkFailure
  | Response (ok : bool) (body : Buffer).

Record Env := {
  fetch : string → FetchResult;
  arrival : string → nat;
  getDependencies : Buffer → list string;
}.

(** [bs.fork()] after [off] bytes were read: the rest of the buffer. *)
Definition forkFrom (off : nat) (b : Buffer) : Buffer :=
  String.substring off (String.length b - off) b.

(** [new DjVuPage(bs.fork(), ...)] on a fetched page file, after the four
    magic bytes were read. *)
Definition newDjVuPage (env : Env) (pageBuffer : Buffer) : M DjVuPage :=
  let* d := get in
  let* _ := modify (λ d, set_nextRef d (S (nextRef d))) in
  ret {| pg_ref := nextRef d;
         pg_buffer := byteLength pageBuffer;
         pg_length := byteLength pageBuffer - 4;
         pg_deps := getDependencies env (forkFrom 4 pageBuffer) |}.

(** ** The dependency loader *)

Definition dependencyUrl (d : DjVuDocument) (id : string) : string :=
  js_str "null" (baseUrl d) +:+
  match dirm d with
  | Some dm => js_str "undefined" (getComponentNameByItsId dm id)
  | None => id
  end.

(** The callbacks of one batch resume in the order in which their requests
    settle; requests settling at the same time resume in issue order. *)
Fixpoint insertByArrival (t : string → nat) (x : string) (l : list string) : list string :=
  match l with
  | [] => [x]
  | y :: l' => if (t y <? t x)%nat then y :: insertByArrival t x l' else x :: y :: l'
  end.

Definition completionOrder (t : string → nat) (l : list string) : list string :=
  foldr (insertByArrival t) [] l.

(** The async callback of [_loadDependencies] up to its last throw: the
    request and the checks of the response. *)
Definition fetchComponent (env : Env) (pageNumber : Z) (url id : string) : Outcome Buffer :=
  match fetch env url with
  | NetworkFailure => Throw (NetworkDjVuError pageNumber (Some id) url)
  | Response ok componentBuffer =>
      if negb ok then Throw (UnsuccessfulRequestDjVuError pageNumber (Some id))
      else if negb (readStr4 0 componentBuffer =? "AT&T")%string
      then Throw CorruptedFileDjVuError
      else if negb (readStr4 4 componentBuffer +:+ readStr4 12 componentBuffer =? "FORMDJVI")%string
      then Throw CorruptedFileDjVuError
      else Ok componentBuffer
  end.

(** [new DjViChunk(bs.jump(-12).fork(length + 8))] *)
Definition newDjViChunk (componentBuffer : Buffer) : DjViChunk :=
  {| dv_buffer := byteLength componentBuffer |}.

(** The last two statements of the callback (lines 288-289). *)
Definition installDependency (id : string) (componentBuffer : Buffer) : M unit :=
  let* _ := modify (λ d, set_djvi d (<[id := newDjViChunk componentBuffer]> (djvi d))) in
  addMemory (byteLength componentBuffer).

(** The callback from the point where its request has settled. *)
Definition completeDependency (env : Env) (pageNumber : Z) (id : string) : M unit :=
  let* d := get in
  match fetchComponent env pageNumber (dependencyUrl d id) id with
  | Throw e => throw e
  | Ok componentBuffer => installDependency id componentBuffer
  end.

(** *** Callbacks in flight

    A callback of a batch that was rejected is not cancelled: when its
    request settles it runs to its end, installs its resource and adds its
    bytes; what it throws is dropped, the promise of the batch being settled
    already. *)

(** The [i]-th callback in flight lands. *)
Definition land (i : nat) : M unit :=
  λ d, match inFlight d !! i with
       | Some cb =>
           match cb_result cb with
           | Ok componentBuffer => installDependency (cb_id cb) componentBuffer
           | Throw _ => ret tt
           end (set_inFlight d (delete i (inFlight d)))
       | None => (Ok tt, d)
       end.

Fixpoint landAll (indices : list nat) : M unit :=
  match indices with
  | [] => ret tt
  | i :: rest => let* _ := land i in landAll rest
  end.

(** Which callbacks in flight land, and in which order, while a call is
    suspended at its [k]-th [await]. *)
Definition Schedule := nat → list nat.

Definition await (s : Schedule) (k : nat) : M unit := landAll (s k).

(** No callback lands during the call. *)
Definition quiet : Schedule := λ _, [].

(** The callbacks [ids] of a batch, as they stay in flight. *)
Definition stillInFlight (env : Env) (pageNumber : Z) (d : DjVuDocument) (ids : list string)
  : list Callback :=
  (λ id, {| cb_id := id;
            cb_result := fetchComponent env pageNumber (dependencyUrl d id) id |}) <$> ids.

(** [Promise.all] over the callbacks, which resume in the order [order]:
    the awaiting caller resumes when all have finished, or is rejected at
    the first one that throws; the callbacks after that one stay in
    flight.  The callback of position [i] resumes at the await [k + i]. *)
Fixpoint settleAllWith (s : Schedule) (k : nat) (env : Env) (pageNumber : Z)
    (order : list string) : M unit :=
  match order with
  | [] => ret tt
  | id :: rest =>
      let* _ := await s k in
      λ d, match completeDependency env pageNumber id d with
           | (Ok _, d') => settleAllWith s (S k) env pageNumber rest d'
           | (Throw e, d') =>
               (Throw e,
                set_inFlight d' (inFlight d' ++ stillInFlight env pageNumber d' rest))
           end
  end.

Fixpoint emitAll (es : list Event) : M unit :=
  match es with
  | [] => ret tt
  | e :: rest => let* _ := emit e in emitAll rest
  end.

Definition unloaded (d : DjVuDocument) (dependencies : list string) : list string :=
  filter (λ id, djvi d !! id = None) dependencies.

(** The callbacks of the batch resume at the awaits [k], [k + 1], ... *)
Definition _loadDependenciesWith (s : Schedule) (k : nat) (env : Env)
    (dependencies : list string) (pageNumber : Z) : M unit :=
  let* d := get in
  let unloadedDependencies := unloaded d dependencies in
  match unloadedDependencies with
  | [] => ret tt
  | _ =>
      let* _ := emitAll ((λ id, EvFetch (dependencyUrl d id)) <$> unloadedDependencies) in
      settleAllWith s k env pageNumber
        (completionOrder (λ id, arrival env (dependencyUrl d id)) unloadedDependencies)
  end.

(** ** getPage *)

(** The branch of [getPage] that fetches the page of an empty slot of an
    indirect document.  Its awaits are numbered 0 ([fetch]), 1
    ([arrayBuffer]) and 2 ([_loadDependencies]); the callbacks of the batch
    resume at the awaits 3, 4, ... *)
Definition loadPageWith (s : Schedule) (env : Env) (number : Z) : M unit :=
  let* d := get in
  match baseUrl d with
  | None => throw NoBaseUrlDjVuError
  | Some base =>
      match dirm d with
      | None => throw TypeError
      | Some dm =>
          let pageName := js_str "undefined" (getPageNameByItsNumber dm number) in
          let url := base +:+ pageName in
          let* _ := emit (EvFetch url) in
          let* _ := await s 0 in
          match fetch env url with
          | NetworkFailure => throw (NetworkDjVuError number None url)
          | Response ok pageBuffer =>
              if negb ok then throw (UnsuccessfulRequestDjVuError number None)
              else
                let* _ := await s 1 in
                if negb (readStr4 0 pageBuffer =? "AT&T")%string
                then throw CorruptedFileDjVuError
                else
                  let* page := newDjVuPage env pageBuffer in
                  let* _ := addMemory (byteLength pageBuffer) in
                  let* _ := _loadDependenciesWith s 3 env (pg_deps page) number in
                  let* _ := await s 2 in
                  let* _ := releaseMemoryIfRequired (Some (pg_deps page)) in
                  let* _ := modify (λ d, set_pages d
                               (<[Z.to_nat (number - 1) := Some page]> (pages d))) in
                  let* _ := modify (λ d, set_loadedPageNumbers d
                               (loadedPageNumbers d ++ [Z.to_nat (number - 1)])) in
                  modify (λ d, set_lastRequestedPage d (Some page))
          end
      end
  end.

Definition getPageWith (s : Schedule) (env : Env) (number : Z) : M (option DjVuPage) :=
  let* d := get in
  let page := slot d number in
  let* _ := match lastRequestedPage d with
            | Some q =>
                if negb (sameRef (Some q) page) then emit (EvReset (pg_ref q)) else ret tt
            | None => ret tt
            end in
  let* _ := modify (λ d, set_lastRequestedPage d page) in
  let* _ :=
    match page with
    | None =>
        if (number <? 1) || (Z.of_nat (length (pages d)) <? number) || isBundled d
        then throw (NoSuchPageDjVuError number)
        else loadPageWith s env number
    | Some p =>
        if negb (isOnePageDependenciesLoaded d) && (formId d =? "FORMDJVU")%string then
          let dependencies := pg_deps p in
          let* _ := match dependencies with
                    | [] => ret tt
                    | _ =>
                        let* _ := _loadDependenciesWith s 3 env dependencies 1 in
                        await s 2
                    end in
          modify (λ d, set_isOnePageDependenciesLoaded d true)
        else ret tt
    end in
  let* d := get in
  ret (lastRequestedPage d).

(** *** The calls during which no callback of an earlier batch lands *)

Definition settleAll (env : Env) (pageNumber : Z) (order : list string) : M unit :=
  settleAllWith quiet 3 env pageNumber order.

Definition _loadDependencies (env : Env) (dependencies : list string) (pageNumber : Z)
  : M unit :=
  _loadDependenciesWith quiet 3 env dependencies pageNumber.

Definition loadPage (env : Env) (number : Z) : M unit := loadPageWith quiet env number.

Definition getPage (env : Env) (number : Z) : M (option DjVuPage) :=
  getPageWith quiet env number.

(** ** Construction *)

Definition MEMORY_LIMIT : Z := 50 * 1024 * 1024.

Definition isSpace (c : ascii) : bool :=
  let n := nat_of_ascii c in
  ((9 <=? n) && (n <=? 13) || (n =? 32) || (n =? 160))%nat.

Fixpoint trimStart (s : string) : string :=
  match s with
  | String c s' => if isSpace c then trimStart s' else s
  | EmptyString => EmptyString
  end.

Definition trim (s : string) : string :=
  String.rev (trimStart (String.rev (trimStart s))).

Fixpoint lastChar (s : string) : option ascii :=
  match s with
  | EmptyString => None
  | String c EmptyString => Some c
  | String _ s' => lastChar s'
  end.

(** Lines 23-31 of the constructor; [resolve] stands for
    [new URL(base, location.origin).href]. *)
Definition constructorBaseUrl (resolve : string → string) (baseUrl : option string)
  : option string :=
  match baseUrl with
  | None => None
  | Some b =>
      let b := trim b in
      if (b =? "")%string then Some b
      else
        let b := if bool_decide (lastChar b = Some "/"%char) then b else b +:+ "/" in
        Some (if String.prefix "http" b then b else resolve b)
  end.

(** The fields every constructed document starts with. *)
Definition blankDocument (id : string) (len : Z) (base : option string) (limit : Z)
  : DjVuDocument :=
  {| formId := id; dirm := None; navm := None; baseUrl := base;
     memoryLimit := limit; bufferLength := len;
     pages := []; thumbs := []; djvi := ∅;
     idToPageNumberMap := None; memoryUsage := None;
     loadedPageNumbers := []; lastRequestedPage := None;
     isOnePageDependenciesLoaded := false; nextRef := 0%nat; trace := [];
     inFlight := [] |}.

Definition set_dirm_navm (d : DjVuDocument) (dm : DIRMChunk) (nv : option Buffer) :=
  {| formId := formId d; dirm := Some dm; navm := nv; baseUrl := baseUrl d;
     memoryLimit := memoryLimit d; bufferLength := bufferLength d;
     pages := pages d; thumbs := thumbs d; djvi := djvi d;
     idToPageNumberMap := idToPageNumberMap d; memoryUsage := memoryUsage d;
     loadedPageNumbers := loadedPageNumbers d;
     lastRequestedPage := lastRequestedPage d;
     isOnePageDependenciesLoaded := isOnePageDependenciesLoaded d;
     nextRef := nextRef d; trace := trace d;
     inFlight := inFlight d |}.

Definition set_thumbs (d : DjVuDocument) (v : list Buffer) :=
  {| formId := formId d; dirm := dirm d; navm := navm d; baseUrl := baseUrl d;
     memoryLimit := memoryLimit d; bufferLength := bufferLength d;
     pages := pages d; thumbs := v; djvi := djvi d;
     idToPageNumberMap := idToPageNumberMap d; memoryUsage := memoryUsage d;
     loadedPageNumbers := loadedPageNumbers d;
     lastRequestedPage := lastRequestedPage d;
     isOnePageDependenciesLoaded := isOnePageDependenciesLoaded d;
     nextRef := nextRef d; trace := trace d;
     inFlight := inFlight d |}.

Definition set_idToPageNumberMap (d : DjVuDocument) (v : option (gmap string Z)) :=
  {| formId := formId d; dirm := dirm d; navm := navm d; baseUrl := baseUrl d;
     memoryLimit := memoryLimit d; bufferLength := bufferLength d;
     pages := pages d; thumbs := thumbs d; djvi := djvi d;
     idToPageNumberMap := v; memoryUsage := memoryUsage d;
     loadedPageNumbers := loadedPageNumbers d;
     lastRequestedPage := lastRequestedPage d;
     isOnePageDependenciesLoaded := isOnePageDependenciesLoaded d;
     nextRef := nextRef d; trace := trace d;
     inFlight := inFlight d |}.

(** The form identifier read at a component: [readStr4()], the length, and
    [readStr4()] again. *)
Definition componentId (span : Buffer) : string := readStr4 0 span +:+ readStr4 8 span.

(** One turn of the loop of [_parseComponents]; the page is
    [new DjVuPage(this.bs.fork(length + 8), ...)]. *)
Definition parseComponent (env : Env) (d : DjVuDocument) (e : DirEntry) : DjVuDocument :=
  let id := componentId (e_span e) in
  if (id =? "FORMDJVU")%string then
    let page := {| pg_ref := nextRef d; pg_buffer := bufferLength d;
                   pg_length := getInt32 4 (e_span e) + 8;
                   pg_deps := getDependencies env (e_span e) |} in
    let d := set_nextRef (set_pages d (pages d ++ [Some page])) (S (nextRef d)) in
    set_idToPageNumberMap d
      ((λ m, <[e_id e := Z.of_nat (length (pages d))]> m) <$> idToPageNumberMap d)
  else if (id =? "FORMDJVI")%string then
    set_djvi d (<[e_id e := {| dv_buffer := bufferLength d |}]> (djvi d))
  else if (id =? "FORMTHUM")%string then
    set_thumbs d (thumbs d ++ [e_span e])
  else d.

Definition _parseComponents (env : Env) (dm : DIRMChunk) (d : DjVuDocument) : DjVuDocument :=
  foldl (parseComponent env) d (entries dm).

Definition _initMultiPageDocument (env : Env) (dm : DIRMChunk) (nv : option Buffer)
    (d : DjVuDocument) : DjVuDocument :=
  let d := set_dirm_navm d dm nv in
  let d := set_idToPageNumberMap (set_thumbs (set_pages d []) []) (Some ∅) in
  if dirmIsBundled dm then _parseComponents env dm d
  else
    set_loadedPageNumbers
      (set_memoryUsage (set_pages d (replicate (dirmPagesQuantity dm) None))
                       (Some (bufferLength d)))
      [].

(** The decoders of the DIRM and NAVM chunks found after the header, and the
    URL resolution of the platform. *)
Record Decoders := {
  decodeDirm : Buffer → DIRMChunk;
  decodeNavm : Buffer → option Buffer;
  resolveUrl : string → string;
}.

(** [new DjVuDocument(arraybuffer, { baseUrl, memoryLimit })] *)
Definition construct (env : Env) (dec : Decoders) (arraybuffer : Buffer)
    (base : option string) (limit : Z) : Outcome DjVuDocument :=
  if negb (readStr4 0 arraybuffer =? "AT&T")%string then Throw IncorrectFileFormatDjVuError
  else
    let id := readStr4 4 arraybuffer +:+ readStr4 12 arraybuffer in
    let d := blankDocument id (byteLength arraybuffer)
               (constructorBaseUrl (resolveUrl dec) base) limit in
    if (id =? "FORMDJVM")%string then
      if negb (readStr4 16 arraybuffer =? "DIRM")%string then Throw CorruptedFileDjVuError
      else Ok (_initMultiPageDocument env (decodeDirm dec arraybuffer)
                 (decodeNavm dec arraybuffer) d)
    else if (id =? "FORMDJVU")%string then
      let page := {| pg_ref := 0%nat; pg_buffer := byteLength arraybuffer;
                     pg_length := getInt32 8 arraybuffer + 8;
                     pg_deps := getDependencies env (forkFrom 4 arraybuffer) |} in
      Ok (set_nextRef (set_pages d [Some page]) 1%nat)
    else Throw CorruptedFileDjVuError.

(** ** Page reference resolution *)

(** A falsy page number: undefined or 0. *)
Definition falsyNumber (o : option Z) : bool :=
  match o with
  | None => true
  | Some v => v =? 0
  end.

Section PageByUrl.

(** [Math.round(Number(ref))], [None] when it is NaN or infinite. *)
Variable roundNumber : string → option Z.

Definition getPageNumberByUrl (d : DjVuDocument) (url : string) : Outcome (option Z) :=
  match url with
  | String "#" ref =>
      match idToPageNumberMap d with
      | None => Throw TypeError
      | Some m =>
          let pageNumber := m !! ref in
          let pageNumber :=
            if falsyNumber pageNumber then
              match roundNumber ref with
              | Some num =>
                  if (1 <=? num) && (num <=? Z.of_nat (length (pages d)))
                  then Some num else pageNumber
              | None => pageNumber
              end
            else pageNumber in
          Ok (if falsyNumber pageNumber then None else pageNumber)
      end
  | _ => Ok None
  end.

End PageByUrl.

(** The part of [Number] that reads a run of decimal digits (as in the ref
    "#057"); the empty string is 0; anything else is left as NaN here. *)
Definition digitValue (c : ascii) : option Z :=
  let n := nat_of_ascii c in
  if ((48 <=? n) && (n <=? 57))%nat then Some (Z.of_nat n - 48) else None.

Fixpoint digitsValue (acc : Z) (s : string) : option Z :=
  match s with
  | EmptyString => Some acc
  | String c s' =>
      match digitValue c with
      | Some v => digitsValue (10 * acc + v) s'
      | None => None
      end
  end.

Definition roundDecimal (ref : string) : option Z := digitsValue 0 ref.

(** ** slice *)

(** The Writer (DjVuWriter.js is not among the sources): only the length of
    the buffer it returns is needed. *)
Record Writer := {
  writtenLength : DIRMChunk → option Buffer → Z;
}.

(** First pass of [slice]: the identifiers the pages in range depend on.
    [dependencies] is the object used as a set of keys. *)
Fixpoint slicePass1 (env : Env) (from pageNumber : Z) (es : list DirEntry)
    (pageIndex addedPageCount : Z) (dependencies : gset string) : gset string :=
  match es with
  | [] => dependencies
  | e :: rest =>
      if addedPageCount <? pageNumber then
        if isPageFlags (e_flags e) then
          let pageIndex := pageIndex + 1 in
          if pageIndex <? from
          then slicePass1 env from pageNumber rest pageIndex addedPageCount dependencies
          else slicePass1 env from pageNumber rest pageIndex (addedPageCount + 1)
                 (foldl (λ deps id, deps ∪ {[id]}) dependencies
                        (getDependencies env (e_span e)))
        else slicePass1 env from pageNumber rest pageIndex addedPageCount dependencies
      else dependencies
  end.

(** Second pass of [slice]: the directory entries (with their raw chunks)
    pushed to the new directory, in order. *)
Fixpoint slicePass2 (from pageNumber : Z) (dependencies : gset string)
    (es : list DirEntry) (pageIndex addedPageCount : Z) : list DirEntry :=
  match es with
  | [] => []
  | e :: rest =>
      if addedPageCount <? pageNumber then
        let isPage := isPageFlags (e_flags e) in
        if isPage && (pageIndex + 1 <? from)
        then slicePass2 from pageNumber dependencies rest (pageIndex + 1) addedPageCount
        else
          let pageIndex := if isPage then pageIndex + 1 else pageIndex in
          let addedPageCount := if isPage then addedPageCount + 1 else addedPageCount in
          if bool_decide (e_id e ∈ dependencies) || isPage
          then e :: slicePass2 from pageNumber dependencies rest pageIndex addedPageCount
          else slicePass2 from pageNumber dependencies rest pageIndex addedPageCount
      else []
  end.

(** Modelled from the spec: the Writer serialises the directory, the table
    of contents and the raw chunks into one buffer, and the constructor run
    on that buffer decodes the same directory over the same chunks
    (DjVuWriter.js and chunks/DirmChunk.js are not among the sources). *)
Definition reparse (env : Env) (w : Writer) (dm : DIRMChunk) (nv : option Buffer)
  : DjVuDocument :=
  _initMultiPageDocument env dm nv
    (blankDocument "FORMDJVM" (writtenLength w dm nv) None MEMORY_LIMIT).

Definition sliceDirm (env : Env) (dm : DIRMChunk) (from to : Z) : DIRMChunk :=
  let pageNumber := to - from + 1 in
  let dependencies := slicePass1 env from pageNumber (entries dm) 0 0 ∅ in
  {| dflags := dflags dm;
     entries := slicePass2 from pageNumber dependencies (entries dm) 0 0 |}.

Definition slice (env : Env) (w : Writer) (d : DjVuDocument) (from to : Z)
  : Outcome DjVuDocument :=
  match dirm d with
  | None => Throw TypeError
  | Some dm => Ok (reparse env w (sliceDirm env dm from to) (navm d))
  end.

(** [slice()] with its default arguments. *)
Definition sliceAll (env : Env) (w : Writer) (d : DjVuDocument) : Outcome DjVuDocument :=
  slice env w d 1 (Z.of_nat (length (pages d))).

(** ** concat *)

(** The directory description handed to the Writer by [concat]; an index
    past the end of an array reads [undefined], which is [None]. *)
Record DirmDescription := {
  dd_dflags : Z;
  dd_flags : list (option Z);
  dd_sizes : list (option Z);
  dd_ids : list (option string);
}.

Record ConcatState := {
  cs_flags : list (option Z);
  cs_sizes : list (option Z);
  cs_ids : list (option string);
  cs_pages : list (option DjVuPage);
  cs_idset : gset (option string);
}.

Definition csPush (st : ConcatState) (f s : option Z) (i : option string)
    (p : option DjVuPage) : ConcatState :=
  {| cs_flags := cs_flags st ++ [f]; cs_sizes := cs_sizes st ++ [s];
     cs_ids := cs_ids st ++ [i]; cs_pages := cs_pages st ++ [p];
     cs_idset := cs_idset st |}.

Definition csAdd (st : ConcatState) (i : option string) : ConcatState :=
  {| cs_flags := cs_flags st; cs_sizes := cs_sizes st;
     cs_ids := cs_ids st; cs_pages := cs_pages st;
     cs_idset := cs_idset st ∪ {[i]} |}.

Definition csEmpty : ConcatState :=
  {| cs_flags := []; cs_sizes := []; cs_ids := []; cs_pages := []; cs_idset := ∅ |}.

(** [while (idset.has(newid)) { newid = base + tmp.toString(); tmp++; }],
    bounded by [fuel] turns. *)
Fixpoint uniqueIdLoop (fuel : nat) (idset : gset (option string)) (base : option string)
    (newid : option string) (tmp : nat) : Outcome (option string) :=
  match fuel with
  | O => Throw LoopBound
  | S fuel' =>
      if bool_decide (newid ∈ idset)
      then uniqueIdLoop fuel' idset base (Some (js_str "undefined" base +:+ pretty tmp)) (S tmp)
      else Ok newid
  end.

Definition uniqueId (idset : gset (option string)) (base : option string)
  : Outcome (option string) :=
  uniqueIdLoop (S (S (size idset))) idset base base 0%nat.

Definition concatFirst (doc1 : DjVuDocument) : Outcome ConcatState :=
  match dirm doc1 with
  | None =>
      match mjoin (pages doc1 !! 0%nat) with
      | None => Throw TypeError
      | Some p =>
          Ok (csAdd (csPush csEmpty (Some 1) (Some (pg_length p)) (Some "single") (Some p))
                    (Some "single"))
      end
  | Some dm =>
      Ok (foldl (λ st i,
                   let id := e_id <$> entries dm !! i in
                   csAdd (csPush st (e_flags <$> entries dm !! i) (e_size <$> entries dm !! i)
                                 id (mjoin (pages doc1 !! i)))
                         id)
                csEmpty (seq 0 (length (pages doc1))))
  end.

Fixpoint concatSecondLoop (dm : DIRMChunk) (pages2 : list (option DjVuPage))
    (indices : list nat) (st : ConcatState) : Outcome ConcatState :=
  match indices with
  | [] => Ok st
  | i :: rest =>
      match uniqueId (cs_idset st) (e_id <$> entries dm !! i) with
      | Throw e => Throw e
      | Ok newid =>
          concatSecondLoop dm pages2 rest
            (csAdd (csPush st (e_flags <$> entries dm !! i) (e_size <$> entries dm !! i)
                           newid (mjoin (pages2 !! i)))
                   newid)
      end
  end.

Definition concatSecond (doc2 : DjVuDocument) (st : ConcatState) : Outcome ConcatState :=
  match dirm doc2 with
  | None =>
      match mjoin (pages doc2 !! 0%nat) with
      | None => Throw TypeError
      | Some p =>
          match uniqueId (cs_idset st) (Some "single2") with
          | Throw e => Throw e
          | Ok newid => Ok (csPush st (Some 1) (Some (pg_length p)) newid (Some p))
          end
      end
  | Some dm => concatSecondLoop dm (pages doc2) (seq 0 (length (pages doc2))) st
  end.

(** The directory built by [concat], up to [dw.writeDirmChunk(dirm)]. *)
Definition concatDirm (doc1 doc2 : DjVuDocument) : Outcome (DirmDescription * list (option DjVuPage)) :=
  match concatFirst doc1 with
  | Throw e => Throw e
  | Ok st1 =>
      match concatSecond doc2 st1 with
      | Throw e => Throw e
      | Ok st =>
          Ok ({| dd_dflags := 129; dd_flags := cs_flags st; dd_sizes := cs_sizes st;
                 dd_ids := cs_ids st |}, cs_pages st)
      end
  end.

(** [for (i < length) dw.writeFormChunkBS(pages[i].bs)]: every page written
    has to be there. *)
Fixpoint writePages (ps : list (option DjVuPage)) (indices : list nat)
  : Outcome (list DjVuPage) :=
  match indices with
  | [] => Ok []
  | i :: rest =>
      match mjoin (ps !! i) with
      | None => Throw TypeError
      | Some p =>
          match writePages ps rest with
          | Throw e => Throw e
          | Ok ps => Ok (p :: ps)
          end
      end
  end.

(** What [concat] hands to the Writer: the directory and the page spans. *)
Definition concat (doc1 doc2 : DjVuDocument) : Outcome (DirmDescription * list DjVuPage) :=
  match concatDirm doc1 doc2 with
  | Throw e => Throw e
  | Ok (dd, ps) =>
      let n := (length (pages doc1) + length (pages doc2))%nat in
      match writePages ps (seq 0 n) with
      | Throw e => Throw e
      | Ok written => Ok (dd, written)
      end
  end.

(** ** Quantities used to state the accounting *)

Definition sumZ (l : list Z) : Z := foldr Z.add 0 l.

(** The bytes a slot holds resident. *)
Definition slotBytes (o : option DjVuPage) : Z :=
  match o with
  | Some p => pg_buffer p
  | None => 0
  end.

Definition pageBytesAt (ps : list (option DjVuPage)) (i : nat) : Z :=
  slotBytes (mjoin (ps !! i)).

Definition pagesBytes (ps : list (option DjVuPage)) : Z := sumZ (slotBytes <$> ps).

(** The bytes of the resident shared resources. *)
Definition djviBytes (m : gmap string DjViChunk) : Z :=
  map_fold (λ _ c acc, acc + dv_buffer c) 0 m.

(** [this.pages[i] = null] for each [i] of a list. *)
Definition clearSlots (indices : list nat) (ps : list (option DjVuPage))
  : list (option DjVuPage) :=
  foldl (λ ps i, <[i := None]> ps) ps indices.

(** ** Quantities used to state what a dependency batch leaves behind *)

(** The callbacks of a batch that finish before the first one that throws. *)
Fixpoint okPrefix (env : Env) (pageNumber : Z) (d : DjVuDocument) (order : list string)
  : list string :=
  match order with
  | [] => []
  | id :: rest =>
      match fetchComponent env pageNumber (dependencyUrl d id) id with
      | Ok _ => id :: okPrefix env pageNumber d rest
      | Throw _ => []
      end
  end.

(** The error of the first callback that throws, if any does. *)
Fixpoint firstFailure (env : Env) (pageNumber : Z) (d : DjVuDocument) (order : list string)
  : option DjVuError :=
  match order with
  | [] => None
  | id :: rest =>
      match fetchComponent env pageNumber (dependencyUrl d id) id with
      | Ok _ => firstFailure env pageNumber d rest
      | Throw e => Some e
      end
  end.

(** The callbacks of a batch after the first one that throws: they stay in
    flight. *)
Fixpoint afterFailure (env : Env) (pageNumber : Z) (d : DjVuDocument) (order : list string)
  : list string :=
  match order with
  | [] => []
  | id :: rest =>
      match fetchComponent env pageNumber (dependencyUrl d id) id with
      | Ok _ => afterFailure env pageNumber d rest
      | Throw _ => rest
      end
  end.

(** The counter after the byte lengths [sizes] were added one by one. *)
Definition counted (c : option JsNumber) (sizes : list Z) : option JsNumber :=
  foldl js_add c sizes.

(** The resources callbacks in flight install when they land, one after
    the other, and the byte lengths they add. *)
Definition landedDjvi (cbs : list Callback) (m : gmap string DjViChunk)
  : gmap string DjViChunk :=
  foldl (λ m cb, match cb_result cb with
                 | Ok b => <[cb_id cb := newDjViChunk b]> m
                 | Throw _ => m
                 end) m cbs.

Definition landedSizes (cbs : list Callback) : list Z :=
  omap (λ cb, match cb_result cb with
              | Ok b => Some (byteLength b)
              | Throw _ => None
              end) cbs.

(** The resources the callbacks [ids] install, and their bytes. *)
Definition installDjvi (env : Env) (pageNumber : Z) (d : DjVuDocument) (ids : list string)
    (m : gmap string DjViChunk) : gmap string DjViChunk :=
  foldl (λ m id, match fetchComponent env pageNumber (dependencyUrl d id) id with
                 | Ok b => <[id := newDjViChunk b]> m
                 | Throw _ => m
                 end) m ids.

Definition fetchedBytes (env : Env) (pageNumber : Z) (d : DjVuDocument) (id : string) : Z :=
  match fetchComponent env pageNumber (dependencyUrl d id) id with
  | Ok b => byteLength b
  | Throw _ => 0
  end.

(** ** The accounting invariant of an indirect document *)

Record accounted (d : DjVuDocument) : Prop := {
  ac_kind : formId d = "FORMDJVM";
  ac_usage : memoryUsage d
             = Some (bufferLength d + pagesBytes (pages d) + djviBytes (djvi d));
  ac_nodup : NoDup (loadedPageNumbers d);
  ac_queue : ∀ i, i ∈ loadedPageNumbers d ↔ is_Some (mjoin (pages d !! i));
  ac_idle : inFlight d = [];
}.

(** The page file [getPage(number)] receives for an empty slot. *)
Definition fetchedPage (env : Env) (d : DjVuDocument) (number : Z) : option Buffer :=
  match baseUrl d, dirm d with
  | Some base, Some dm =>
      match fetch env (base +:+ js_str "undefined" (getPageNameByItsNumber dm number)) with
      | Response true pageBuffer => Some pageBuffer
      | _ => None
      end
  | _, _ => None
  end.

(** No identifier is listed twice in the page file received. *)
Definition distinctDependencies (env : Env) (d : DjVuDocument) (number : Z) : Prop :=
  ∀ b, fetchedPage env d number = Some b → NoDup (getDependencies env (forkFrom 4 b)).

(** The documents reached from a freshly constructed indirect document by
    successful page loads of page files that list no identifier twice. *)
Inductive afterLoads : DjVuDocument → Prop :=
  | al_construct env dec arraybuffer base limit d :
      construct env dec arraybuffer base limit = Ok d →
      isBundled d = false →
      afterLoads d
  | al_getPage s env number d r d' :
      afterLoads d →
      distinctDependencies env d number →
      getPageWith s env number d = (Ok r, d') →
      afterLoads d'.

(** ** Quantities used to state the merge *)

(** The identifiers [concat] takes from the first document, and those it
    starts from for the second. *)
Definition firstIds (doc1 : DjVuDocument) : list (option string) :=
  match dirm doc1 with
  | None => [Some "single"]
  | Some dm => (λ i, e_id <$> entries dm !! i) <$> seq 0 (length (pages doc1))
  end.

Definition secondBases (doc2 : DjVuDocument) : list (option string) :=
  match dirm doc2 with
  | None => [Some "single2"]
  | Some dm => (λ i, e_id <$> entries dm !! i) <$> seq 0 (length (pages doc2))
  end.

(** The identifier [newid] chosen for [base] when the identifiers satisfying
    [used] are taken: [base] itself when it is free, otherwise [base]
    followed by the first decimal counter 0, 1, 2, ... that gives a free
    identifier. *)
Definition renamed (used : option string → Prop) (base newid : option string) : Prop :=
  ¬ used newid
  ∧ (newid = base
     ∨ (used base
        ∧ ∃ n : nat,
            newid = Some (js_str "undefined" base +:+ pretty n)
            ∧ ∀ j, (j < n)%nat → used (Some (js_str "undefined" base +:+ pretty j)))).

(** ** Relations and quantities used in the proofs *)

(** The loader and the governor keep the kind of the document, its
    directory, its base location, its budget and the number of slots; they
    never fill a slot, and they leave the held page alone or drop it. *)
Record governed (d d' : DjVuDocument) : Prop := {
  gv_formId : formId d' = formId d;
  gv_dirm : dirm d' = dirm d;
  gv_baseUrl : baseUrl d' = baseUrl d;
  gv_memoryLimit : memoryLimit d' = memoryLimit d;
  gv_buffer : bufferLength d' = bufferLength d;
  gv_one : isOnePageDependenciesLoaded d' = isOnePageDependenciesLoaded d;
  gv_length : length (pages d') = length (pages d);
  gv_empty : ∀ i, mjoin (pages d !! i) = None → mjoin (pages d' !! i) = None;
  gv_held : lastRequestedPage d' = lastRequestedPage d ∨ lastRequestedPage d' = None;
  gv_trace : ∃ rest, trace d' = trace d ++ rest;
}.

(** The errors of the transport and of the runtime, as opposed to
    NoSuchPage and NoBaseUrl, which only the head of [getPage] throws. *)
Definition laterError (e : DjVuError) : Prop :=
  match e with
  | NoSuchPageDjVuError _ | NoBaseUrlDjVuError => False
  | _ => True
  end.

Definition throwsLater {A} (r : Outcome A) : Prop :=
  match r with
  | Ok _ => True
  | Throw e => laterError e
  end.

(** The dependency loader only touches the resources, the counter and the
    trace. *)
Record loaded_frame (d d' : DjVuDocument) : Prop := {
  lf_governed : governed d d';
  lf_pages : pages d' = pages d;
  lf_held : lastRequestedPage d' = lastRequestedPage d;
  lf_queue : loadedPageNumbers d' = loadedPageNumbers d;
  lf_nextRef : nextRef d' = nextRef d;
}.

(** A callback that lands and a running batch only add to the resources and
    to the counter: what was resident stays resident, and a counter that is
    a number stays one. *)
Record grows (d d' : DjVuDocument) : Prop := {
  gr_frame : loaded_frame d d';
  gr_map : idToPageNumberMap d' = idToPageNumberMap d;
  gr_trace : trace d' = trace d;
  gr_djvi : ∀ id, is_Some (djvi d !! id) → is_Some (djvi d' !! id);
  gr_usage : (∃ v : Z, memoryUsage d = Some (Num v)) →
             ∃ v' : Z, memoryUsage d' = Some (Num v');
}.

(** The state after the first [k] pages of the load queue were evicted from
    a document whose counter is [m]. *)
Definition evicted (k : nat) (m : Z) (d : DjVuDocument) : DjVuDocument :=
  let queue := loadedPageNumbers d in
  set_pages
    (set_memoryUsage (set_loadedPageNumbers d (drop k queue))
       (Some (m - sumZ (pageBytesAt (pages d) <$> take k queue))))
    (clearSlots (take k queue) (pages d)).

(** The map [newDjVi] after the [forEach] over the preserved identifiers. *)
Definition keptDjvi (m : gmap string DjViChunk) (ids : list string)
    (acc : gmap string DjViChunk) : gmap string DjViChunk :=
  foldl (λ a id, match m !! id with Some c => <[id := c]> a | None => a end) acc ids.

Definition residentBytes (m : gmap string DjViChunk) (id : string) : Z :=
  from_option dv_buffer 0 (m !! id).

Definition batchOrder (env : Env) (d : DjVuDocument) (dependencies : list string)
  : list string :=
  completionOrder (λ id, arrival env (dependencyUrl d id)) (unloaded d dependencies).

Record parsed (d d' : DjVuDocument) : Prop := {
  pr_formId : formId d' = formId d;
  pr_dirm : dirm d' = dirm d;
  pr_baseUrl : baseUrl d' = baseUrl d;
  pr_pages : ∃ more, pages d' = pages d ++ more;
}.

Definition candidate (base : option string) (j : nat) : option string :=
  Some (js_str "undefined" base +:+ pretty j).

(** The identifiers pushed so far are pairwise distinct, the set holds
    exactly them, and every identifier came with a page entry. *)
Record csInv (st : ConcatState) : Prop := {
  ci_nodup : NoDup (cs_ids st);
  ci_set : ∀ x, x ∈ cs_idset st ↔ x ∈ cs_ids st;
  ci_pages : length (cs_pages st) = length (cs_ids st);
}.

(** ** Sample documents, decoders and transports *)

(** A toy page decoder: a page chunk "FORM" + length + "DJVU" directly
    followed by "INCL" and a comma-separated list of identifiers. *)
Fixpoint splitComma (cur : string) (s : string) : list string :=
  match s with
  | EmptyString => [String.rev cur]
  | String c s' =>
      if Ascii.eqb c ","%char then String.rev cur :: splitComma "" s'
      else splitComma (String c cur) s'
  end.

Definition toyDependencies (b : Buffer) : list string :=
  if (readStr4 12 b =? "INCL")%string then splitComma "" (forkFrom 16 b) else [].

(** Four bytes, big-endian. *)
Definition int32Bytes (n : nat) : string :=
  let byte (k : N) := ascii_of_N ((N.of_nat n / k) mod 256)%N in
  String (byte 16777216%N)
    (String (byte 65536%N) (String (byte 256%N) (String (byte 1%N) EmptyString))).

(** A FORM chunk of the given kind, and the file that holds it. *)
Definition formChunk (kind payload : string) : Buffer :=
  "FORM" +:+ int32Bytes (4 + String.length payload) +:+ kind +:+ payload.

Definition fileOf (chunk : Buffer) : Buffer := "AT&T" +:+ chunk.

Definition sampleEntry (flags : Z) (id : string) (span : Buffer) : DirEntry :=
  {| e_flags := flags; e_size := byteLength span; e_id := id;
     e_name := id +:+ ".djvu"; e_title := ""; e_span := span |}.

(** An indirect document: three shared resources and two pages. *)
Definition indirectDirm : DIRMChunk :=
  {| dflags := 1;
     entries := [sampleEntry 0 "a" ""; sampleEntry 0 "b" ""; sampleEntry 0 "c" "";
                 sampleEntry 1 "p1" ""; sampleEntry 1 "p2" ""] |}.

Definition indirectHeader : Buffer := fileOf (formChunk "DJVM" ("DIRM" +:+ int32Bytes 0)).

Definition page1File : Buffer := fileOf (formChunk "DJVU" "INCLa,b,c").
Definition page2File : Buffer := fileOf (formChunk "DJVU" "INCLa").

Definition sampleDecoders : Decoders :=
  {| decodeDirm := λ _, indirectDirm; decodeNavm := λ _, None; resolveUrl := λ s, s |}.

Definition sampleFetch (bOk : bool) (url : string) : FetchResult :=
  if (url =? "http://host/p1.djvu")%string then Response true page1File
  else if (url =? "http://host/p2.djvu")%string then Response true page2File
  else if (url =? "http://host/a.djvu")%string
  then Response true (fileOf (formChunk "DJVI" "aaaa"))
  else if (url =? "http://host/b.djvu")%string
  then Response bOk (fileOf (formChunk "DJVI" "bb"))
  else if (url =? "http://host/c.djvu")%string
  then Response true (fileOf (formChunk "DJVI" "c"))
  else NetworkFailure.

Definition sampleArrival (url : string) : nat :=
  if (url =? "http://host/a.djvu")%string then 1
  else if (url =? "http://host/b.djvu")%string then 2
  else 3.

(** Every request succeeds. *)
Definition sampleEnv : Env :=
  {| fetch := sampleFetch true; arrival := sampleArrival;
     getDependencies := toyDependencies |}.

(** The request of resource "b" gets a non-success response, after the
    request of "a" has settled. *)
Definition failingEnv : Env :=
  {| fetch := sampleFetch false; arrival := sampleArrival;
     getDependencies := toyDependencies |}.

Definition constructed (r : Outcome DjVuDocument) (fallback : DjVuDocument) : DjVuDocument :=
  match r with
  | Ok d => d
  | Throw _ => fallback
  end.

Definition noDocument : DjVuDocument := blankDocument "" 0 None 0.

(** [new DjVuDocument(indirectHeader, { baseUrl: "http://host", memoryLimit })] *)
Definition indirectDoc (limit : Z) : DjVuDocument :=
  constructed (construct sampleEnv sampleDecoders indirectHeader (Some "http://host") limit)
              noDocument.

(** The same document constructed without a base location. *)
Definition indirectDocNoBase : DjVuDocument :=
  constructed (construct sampleEnv sampleDecoders indirectHeader None MEMORY_LIMIT)
              noDocument.

(** A single-page document. *)
Definition singlePageDoc : DjVuDocument :=
  constructed (construct sampleEnv sampleDecoders page2File None MEMORY_LIMIT)
              noDocument.

(** A bundled document whose one page includes the resource "dict" stored
    after it. *)
Definition trailingDirm : DIRMChunk :=
  {| dflags := 129;
     entries := [sampleEntry 1 "p1" (formChunk "DJVU" "INCLdict");
                 sampleEntry 0 "dict" (formChunk "DJVI" "dictionary")] |}.

Definition trailingDoc : DjVuDocument :=
  constructed (construct sampleEnv
                 {| decodeDirm := λ _, trailingDirm; decodeNavm := λ _, None;
                    resolveUrl := λ s, s |}
                 indirectHeader None MEMORY_LIMIT)
              noDocument.

(** The same document with the resource stored before the page. *)
Definition leadingDirm : DIRMChunk :=
  {| dflags := 129;
     entries := [sampleEntry 0 "dict" (formChunk "DJVI" "dictionary");
                 sampleEntry 1 "p1" (formChunk "DJVU" "INCLdict")] |}.

Definition leadingDoc : DjVuDocument :=
  constructed (construct sampleEnv
                 {| decodeDirm := λ _, leadingDirm; decodeNavm := λ _, None;
                    resolveUrl := λ s, s |}
                 indirectHeader None MEMORY_LIMIT)
              noDocument.

Definition sampleWriter : Writer := {| writtenLength := λ _ _, 100 |}.

(** The documents after pages were loaded. *)
Definition afterCall (r : Outcome (option DjVuPage) * DjVuDocument) : DjVuDocument := r.2.

Definition loadedOnce (limit : Z) : DjVuDocument :=
  afterCall (getPage sampleEnv 2 (indirectDoc limit)).

Definition loadedTwice (limit : Z) : DjVuDocument :=
  afterCall (getPage sampleEnv 1 (loadedOnce limit)).

(** A document over its budget: both pages and the three resources are
    resident (125 bytes) and the budget is lowered to 70. *)
Definition overBudgetDoc : DjVuDocument := set_memoryLimit (loadedTwice 1000) 70.

(** A transport whose file of page 2 lists the resource "a" twice. *)
Definition duplicateEnv : Env :=
  {| fetch := λ url, if (url =? "http://host/p2.djvu")%string
                     then Response true (fileOf (formChunk "DJVU" "INCLa,a"))
                     else sampleFetch true url;
     arrival := sampleArrival;
     getDependencies := toyDependencies |}.

(** * Further operations and quantities *)

(** ** The chunk walks: the header of a multi-page document and countFiles *)

(** Outcomes of code that reads through the byte cursor: a read outside the
    buffer makes the underlying [DataView] throw a RangeError, which is not
    one of the errors of the document. *)
Inductive Cursor (A : Type) :=
  | Read (a : A)
  | Raise (e : DjVuError)
  | RangeError.
Arguments Read {A} a.
Arguments Raise {A} e.
Arguments RangeError {A}.

(** Modelled from the spec: a read of [n] bytes at [offset] is inside the
    buffer of the cursor. *)
Definition inBuffer (b : Buffer) (offset n : Z) : bool :=
  (0 <=? offset) && (offset + n <=? byteLength b).

(** Modelled from the spec: [fork(length)] is a cursor over the [length]
    bytes that start at the offset, within the buffer. *)
Definition forkAt (offset : nat) (length : Z) (b : Buffer) : Buffer :=
  String.substring offset (Z.to_nat length) b.

(** [8 + length + (length & 1 ? 1 : 0)]: the bytes from the start of a chunk
    to the start of the next one, the pad byte of an odd payload included. *)
Definition chunkStride (length : Z) : Z :=
  8 + length + (if Z.land length 1 =? 0 then 0 else 1).

(** [_readMetaDataChunk()], entered with the cursor after the 16 bytes the
    constructor has read: the span handed to [new DIRMChunk] and the offset
    the cursor is left at. *)
Definition _readMetaDataChunk (arraybuffer : Buffer) : Cursor (Buffer * Z) :=
  if negb (inBuffer arraybuffer 16 4) then RangeError
  else if negb (readStr4 16 arraybuffer =? "DIRM")%string then Raise CorruptedFileDjVuError
  else if negb (inBuffer arraybuffer 20 4) then RangeError
  else
    let length := getInt32 20 arraybuffer in
    Read (forkAt 16 (length + 8) arraybuffer, 16 + chunkStride length).

(** [_readContentsChunkIfExists()], entered with the cursor at [offset]: the
    span handed to [new NAVMChunk], or [null]. *)
Definition _readContentsChunkIfExists (arraybuffer : Buffer) (offset : Z)
  : Cursor (option Buffer) :=
  if 8 <? byteLength arraybuffer - offset then
    if negb (inBuffer arraybuffer offset 8) then RangeError
    else
      let id := readStr4 (Z.to_nat offset) arraybuffer in
      let length := getInt32 (Z.to_nat offset + 4) arraybuffer in
      if (id =? "NAVM")%string
      then Read (Some (forkAt (Z.to_nat offset) (length + 8) arraybuffer))
      else Read None
  else Read None.

(** The two chunk reads of [_initMultiPageDocument], one after the other. *)
Definition readHeaderChunks (arraybuffer : Buffer) : Cursor (Buffer * option Buffer) :=
  match _readMetaDataChunk arraybuffer with
  | Read (dirmSpan, offset) =>
      match _readContentsChunkIfExists arraybuffer offset with
      | Read navmSpan => Read (dirmSpan, navmSpan)
      | Raise e => Raise e
      | RangeError => RangeError
      end
  | Raise e => Raise e
  | RangeError => RangeError
  end.

(** The [while (!bs.isEmpty())] loop of [countFiles], bounded by [fuel]
    turns; the forked [chunkBs] is not used. *)
Fixpoint countFilesLoop (fuel : nat) (b : Buffer) (offset : Z) (count : nat) : Cursor nat :=
  match fuel with
  | O => Raise LoopBound
  | S fuel' =>
      if byteLength b <=? offset then Read count
      else if negb (inBuffer b offset 8) then RangeError
      else
        let id := readStr4 (Z.to_nat offset) b in
        let length := getInt32 (Z.to_nat offset + 4) b in
        countFilesLoop fuel' b (offset + chunkStride length)
          (if (id =? "FORM")%string then S count else count)
  end.

(** [countFiles()].  Modelled from the spec: [clone()] is a cursor over the
    same buffer at its start, so that [jump(16)] skips the 16 bytes of the
    header.  A chunk of a well-formed buffer takes at least 8 bytes, so the
    walk needs no more turns than the buffer has bytes. *)
Definition countFiles (arraybuffer : Buffer) : Cursor nat :=
  countFilesLoop (S (String.length arraybuffer)) arraybuffer 16 0.

(** A chunk as the container format stores it: a 4-byte tag, the big-endian
    length of the payload, the payload and the pad byte of an odd payload. *)
Definition chunkBytes (tag : string) (payload : Buffer) : Buffer :=
  tag +:+ int32Bytes (String.length payload) +:+ payload
      +:+ (if Nat.odd (String.length payload) then String zero EmptyString else "").

(** The chunk without its pad byte: what [fork(length + 8)] spans. *)
Definition chunkSpan (tag : string) (payload : Buffer) : Buffer :=
  tag +:+ int32Bytes (String.length payload) +:+ payload.

Definition chunksBytes (chunks : list (string * Buffer)) : Buffer :=
  foldr (λ c rest, chunkBytes c.1 c.2 +:+ rest) "" chunks.

Definition wellFormedChunk (c : string * Buffer) : Prop :=
  String.length c.1 = 4%nat ∧ Z.of_nat (String.length c.2) < 2 ^ 31.

(** The four bytes FF FF FF F8: the length field -8. *)
Definition minus8Bytes : string :=
  String "255" (String "255" (String "255" (String "248" ""))).


(** ** JavaScript object literals used as maps *)

(** The keys every object literal inherits from [Object.prototype]: a lookup
    of one of them finds the inherited value even in an empty object, which
    the finite maps of this development do not show.  Statements that depend
    on the lookup of a key that may be absent are made for the other keys. *)
Definition objectPrototypeKeys : list string :=
  ["__proto__"; "constructor"; "hasOwnProperty"; "isPrototypeOf";
   "propertyIsEnumerable"; "toLocaleString"; "toString"; "valueOf";
   "__defineGetter__"; "__defineSetter__"; "__lookupGetter__"; "__lookupSetter__"].

Definition plainKey (id : string) : Prop := id ∉ objectPrototypeKeys.

(** The page file [getPage(number)] receives lists plain keys only. *)
Definition plainDependencies (env : Env) (d : DjVuDocument) (number : Z) : Prop :=
  ∀ b, fetchedPage env d number = Some b →
       Forall plainKey (getDependencies env (forkFrom 4 b)).

(** The bodies the transport delivers hold at least the 16 bytes the loader
    reads from a file (a shorter body makes the cursor throw a RangeError,
    which [fetchComponent] does not show). *)
Definition readableBodies (env : Env) : Prop :=
  ∀ url b, fetch env url = Response true b → 16 ≤ byteLength b.

(** Every file of the directory spans at least the 12 bytes
    [_parseComponents] reads at its offset. *)
Definition readableFiles (dm : DIRMChunk) : Prop :=
  Forall (λ e, 12 ≤ byteLength (e_span e)) (entries dm).

(** ** Quantities used to state what a call of getPage does *)

(** The events with which a call of [getPage(number)] starts: the reset of
    the page held so far, unless it is the page of the requested slot. *)
Definition releaseEvents (d : DjVuDocument) (number : Z) : list Event :=
  match lastRequestedPage d with
  | Some q => if sameRef (Some q) (slot d number) then [] else [EvReset (pg_ref q)]
  | None => []
  end.

(** The error of a page request that does not deliver a DjVu file. *)
Definition pageFetchError (number : Z) (url : string) (r : FetchResult) : DjVuError :=
  match r with
  | NetworkFailure => NetworkDjVuError number None url
  | Response false _ => UnsuccessfulRequestDjVuError number None
  | Response true _ => CorruptedFileDjVuError
  end.

(** The requests of a dependency batch, in the order in which they are
    issued. *)
Definition batchRequests (d : DjVuDocument) (dependencies : list string) : list Event :=
  (λ id, EvFetch (dependencyUrl d id)) <$> unloaded d dependencies.

(** The errors [getPage(number)] is written to throw. *)
Definition documentedError (number : Z) (e : DjVuError) : Prop :=
  e = NoSuchPageDjVuError number ∨ e = NoBaseUrlDjVuError ∨ e = CorruptedFileDjVuError
  ∨ (∃ id url, e = NetworkDjVuError number id url)
  ∨ (∃ id, e = UnsuccessfulRequestDjVuError number id).

(** The documents reached from [d0] by calls of [getPage], whatever their
    outcome, and by the landing of the callbacks they leave in flight,
    during the calls or between them, whatever the schedule. *)
Inductive afterCalls (d0 : DjVuDocument) : DjVuDocument → Prop :=
  | ac_start : afterCalls d0 d0
  | ac_getPage s env number d r d' :
      afterCalls d0 d → plainDependencies env d number →
      getPageWith s env number d = (r, d') → afterCalls d0 d'
  | ac_land i d d' :
      afterCalls d0 d → land i d = (Ok tt, d') → afterCalls d0 d'.

(** What holds of an indirect document between calls of [getPage]. *)
Record loadedInv (d : DjVuDocument) : Prop := {
  li_kind : formId d = "FORMDJVM";
  li_dirm : ∃ dm, dirm d = Some dm ∧ dirmIsBundled dm = false
                  ∧ length (pages d) = dirmPagesQuantity dm;
  li_usage : ∃ m : Z, memoryUsage d = Some (Num m);
  li_nodup : NoDup (loadedPageNumbers d);
  li_queue : ∀ i, i ∈ loadedPageNumbers d ↔ is_Some (mjoin (pages d !! i));
  li_deps : ∀ i p id, mjoin (pages d !! i) = Some p → id ∈ pg_deps p →
                      is_Some (djvi d !! id);
  li_map : idToPageNumberMap d = Some ∅;
}.

(** The state a dependency batch leaves behind when no callback of an
    earlier batch lands meanwhile: the callbacks that settled before the
    first failure have installed their resources and counted their bytes,
    those after it are in flight, and every request of the batch is in the
    trace. *)
Definition settledState (env : Env) (pageNumber : Z) (d : DjVuDocument)
    (dependencies : list string) : DjVuDocument :=
  let order := batchOrder env d dependencies in
  let settled := okPrefix env pageNumber d order in
  set_inFlight
    (set_trace
       (set_memoryUsage
          (set_djvi d (installDjvi env pageNumber d settled (djvi d)))
          (counted (memoryUsage d) (fetchedBytes env pageNumber d <$> settled)))
       (trace d ++ batchRequests d dependencies))
    (inFlight d ++ stillInFlight env pageNumber d (afterFailure env pageNumber d order)).

(** ** Quantities used to state the parse of a bundled document *)

(** The files of the directory whose chunk is a page form, a shared-resource
    form, a thumbnail form. *)
Definition pageComponents (dm : DIRMChunk) : list DirEntry :=
  filter (λ e, componentId (e_span e) = "FORMDJVU") (entries dm).

Definition sharedComponents (dm : DIRMChunk) : list DirEntry :=
  filter (λ e, componentId (e_span e) = "FORMDJVI") (entries dm).

Definition thumbComponents (dm : DIRMChunk) : list DirEntry :=
  filter (λ e, componentId (e_span e) = "FORMTHUM") (entries dm).

(** The page object [_parseComponents] builds for the [k]-th page form of a
    document whose buffer has [len] bytes. *)
Definition parsedPage (env : Env) (len : Z) (k : nat) (e : DirEntry) : DjVuPage :=
  {| pg_ref := k; pg_buffer := len; pg_length := getInt32 4 (e_span e) + 8;
     pg_deps := getDependencies env (e_span e) |}.

(** An event that is not a request. *)
Definition isReset (ev : Event) : Prop :=
  match ev with
  | EvReset _ => True
  | EvFetch _ => False
  end.

(** What holds of a bundled document between calls of [getPage]; [d0] is the
    document as constructed. *)
Record bundledInv (d0 d : DjVuDocument) : Prop := {
  bi_kind : formId d = "FORMDJVM";
  bi_bundled : isBundled d = true;
  bi_dirm : dirm d = dirm d0;
  bi_pages : pages d = pages d0;
  bi_djvi : djvi d = djvi d0;
  bi_map : idToPageNumberMap d = idToPageNumberMap d0;
  bi_usage : memoryUsage d = None;
  bi_idle : inFlight d = [];
  bi_trace : Forall isReset (trace d);
  bi_loaded : ∀ i, (i < length (pages d0))%nat → is_Some (mjoin (pages d0 !! i));
}.

(** ** Quantities used to state the extraction of a page range *)

(** The page files [from .. to] of a directory (1-based, inclusive; a start
    below 1 counts as 1 for the position of the first page taken). *)
Definition pagesInRange (dm : DIRMChunk) (from to : Z) : list DirEntry :=
  take (Z.to_nat (to - from + 1)) (drop (Z.to_nat (from - 1)) (pageEntries dm)).

(** The identifiers the page files of a list include. *)
Definition includedBy (env : Env) (ps : list DirEntry) : list string :=
  ps ≫= (λ p, getDependencies env (e_span p)).

(** The number of page files among the files of a list. *)
Definition pagesAmong (es : list DirEntry) : Z :=
  Z.of_nat (length (filter (λ e, isPageFlags (e_flags e) = true) es)).


(** ** Further sample buffers, documents and transports *)

(** The 16 bytes the constructor reads from a multi-page document. *)
Definition sampleHeader : Buffer := "AT&TFORM" +:+ int32Bytes 100 +:+ "DJVM".

(** A directory chunk, a table of contents, two forms and a chunk of
    another kind; the payloads of odd length are followed by a pad byte. *)
Definition sampleChunks : list (string * Buffer) :=
  [("DIRM", "dir"); ("NAVM", "toc"); ("FORM", "DJVIdict"); ("FORM", "DJVUpage1");
   ("INFO", "x")].

(** A transport that reaches no server. *)
Definition offlineEnv : Env :=
  {| fetch := λ _, NetworkFailure; arrival := sampleArrival;
     getDependencies := toyDependencies |}.

Definition leadingDecoders : Decoders :=
  {| decodeDirm := λ _, leadingDirm; decodeNavm := λ _, None; resolveUrl := λ s, s |}.

(** The two files of [leadingDirm]. *)
Definition dictEntry : DirEntry := sampleEntry 0 "dict" (formChunk "DJVI" "dictionary").
Definition pageEntry : DirEntry := sampleEntry 1 "p1" (formChunk "DJVU" "INCLdict").

(** A transport that answers every request with the resource file "aaaa". *)
Definition uniformEnv : Env :=
  {| fetch := λ _, Response true (fileOf (formChunk "DJVI" "aaaa"));
     arrival := sampleArrival; getDependencies := toyDependencies |}.

(** The first callback in flight lands at the first await of a call. *)
Definition landFirst : Schedule :=
  λ k, match k with O => [0%nat] | S _ => [] end.

(** The loaded document after a call for page 1 whose request of "b" fails:
    the callback of "c" is still in flight. *)
Definition failedOnce (limit : Z) : DjVuDocument :=
  afterCall (getPage failingEnv 1 (loadedOnce limit)).

(** The same document once that callback has landed. *)
Definition landedLate (limit : Z) : DjVuDocument := (land 0 (failedOnce limit)).2.

(** * Properties *)

Implicit Types m : Z.

Ltac quiet_step :=
  repeat progress change (await quiet _) with (@ret unit tt);
  try change (_loadDependenciesWith quiet 3) with _loadDependencies;
  try change (loadPageWith quiet) with loadPage.
Ltac mstep := quiet_step; unfold bind, get, modify, ret, throw; cbv beta iota.
Ltac munfold := unfold bind, get, modify, ret, throw, emit in *; simpl in *.

(** ** getPage: the prologue and the error paths *)

Lemma slot_outside d number :
  number < 1 ∨ Z.of_nat (length (pages d)) < number → slot d number = None.
Proof.
  intros H. unfold slot. destruct (Z.ltb_spec number 1) as [|Hge]; [done|].
  destruct H as [H|H]; [lia|].
  rewrite lookup_ge_None_2; [done | lia].
Qed.

Lemma await_quiet k d : await quiet k d = (Ok tt, d).
Proof. reflexivity. Qed.

Lemma bind_await_quiet (m : M unit) k d : bind m (λ _, await quiet k) d = m d.
Proof. unfold bind. by destruct (m d) as [[[]|e] d']. Qed.

(** The events with which every call of [getPage] starts: the release of the
    page held so far unless it is the very page of the requested slot. *)
Lemma getPageWith_unfold s env number d :
  getPageWith s env number d =
  let d0 := match lastRequestedPage d with
            | Some q => if negb (sameRef (Some q) (slot d number))
                        then set_trace d (trace d ++ [EvReset (pg_ref q)]) else d
            | None => d
            end in
  let d1 := set_lastRequestedPage d0 (slot d number) in
  bind (match slot d number with
        | None =>
            if (number <? 1) || (Z.of_nat (length (pages d)) <? number) || isBundled d
            then throw (NoSuchPageDjVuError number)
            else loadPageWith s env number
        | Some p =>
            if negb (isOnePageDependenciesLoaded d) && (formId d =? "FORMDJVU")%string then
              bind (match pg_deps p with
                    | [] => ret tt
                    | _ => bind (_loadDependenciesWith s 3 env (pg_deps p) 1)
                                (λ _, await s 2)
                    end)
                   (λ _, modify (λ d, set_isOnePageDependenciesLoaded d true))
            else ret tt
        end)
       (λ _, bind get (λ d, ret (lastRequestedPage d))) d1.
Proof.
  unfold getPageWith. unfold bind at 1 2 3, get, modify. cbv beta iota.
  destruct (lastRequestedPage d) as [q|]; [|done].
  destruct (negb _); done.
Qed.

Lemma getPage_unfold env number d :
  getPage env number d =
  let d0 := match lastRequestedPage d with
            | Some q => if negb (sameRef (Some q) (slot d number))
                        then set_trace d (trace d ++ [EvReset (pg_ref q)]) else d
            | None => d
            end in
  let d1 := set_lastRequestedPage d0 (slot d number) in
  bind (match slot d number with
        | None =>
            if (number <? 1) || (Z.of_nat (length (pages d)) <? number) || isBundled d
            then throw (NoSuchPageDjVuError number)
            else loadPage env number
        | Some p =>
            if negb (isOnePageDependenciesLoaded d) && (formId d =? "FORMDJVU")%string then
              bind (match pg_deps p with
                    | [] => ret tt
                    | _ => _loadDependencies env (pg_deps p) 1
                    end)
                   (λ _, modify (λ d, set_isOnePageDependenciesLoaded d true))
            else ret tt
        end)
       (λ _, bind get (λ d, ret (lastRequestedPage d))) d1.
Proof.
  unfold getPage. rewrite getPageWith_unfold. cbv zeta.
  destruct (slot d number) as [p|]; [|reflexivity].
  destruct (negb _ && _); [|reflexivity].
  destruct (pg_deps p) as [|x l]; [reflexivity|].
  unfold bind, _loadDependencies.
  destruct (_loadDependenciesWith quiet 3 env _ 1 _) as [[[]|e] d']; reflexivity.
Qed.

(** C7. [getPage(n)] with [n] outside [1, pages.length] throws
    NoSuchPage, and so does [getPage(n)] on an empty slot of a bundled
    document. *)
Theorem getPage_NoSuchPage env d number :
  number < 1 ∨ Z.of_nat (length (pages d)) < number
    ∨ (isBundled d = true ∧ slot d number = None) →
  (getPage env number d).1 = Throw (NoSuchPageDjVuError number).
Proof.
  intros H. rewrite getPage_unfold. cbv zeta.
  assert (Hs : slot d number = None).
  { destruct H as [H|[H|[_ H]]]; [apply slot_outside; auto..|done]. }
  rewrite Hs. unfold bind, throw.
  assert (Hc : (number <? 1) || (Z.of_nat (length (pages d)) <? number) || isBundled d = true).
  { destruct H as [H|[H|[H _]]].
    - apply Z.ltb_lt in H. by rewrite H.
    - apply Z.ltb_lt in H. rewrite H. by rewrite orb_true_r.
    - rewrite H. by rewrite orb_true_r. }
  by rewrite Hc.
Qed.

(** ** Frames: what the loader and the governor leave alone *)

Lemma set_lastRequestedPage_id d : set_lastRequestedPage d (lastRequestedPage d) = d.
Proof. by destruct d. Qed.

Ltac governed_step :=
  split; simpl; auto;
  try (by exists []; rewrite app_nil_r); try (by eexists).

Lemma governed_refl d : governed d d.
Proof. governed_step. Qed.

Lemma governed_trans d1 d2 d3 : governed d1 d2 → governed d2 d3 → governed d1 d3.
Proof.
  intros [] []. split; try congruence; auto.
  - destruct gv_held0, gv_held1; auto; right + left; congruence.
  - destruct gv_trace0 as [r1 H1], gv_trace1 as [r2 H2].
    exists (r1 ++ r2). by rewrite H2, H1, app_assoc.
Qed.

Local Hint Resolve governed_refl : core.

Lemma emitAll_run es d : emitAll es d = (Ok tt, set_trace d (trace d ++ es)).
Proof.
  revert d. induction es as [|e es IH]; intros d; simpl.
  - unfold ret. rewrite app_nil_r. by destruct d.
  - munfold. rewrite IH. simpl. by rewrite <- app_assoc.
Qed.

Lemma resetLastRequestedPage_run d :
  resetLastRequestedPage d =
  (Ok tt, set_lastRequestedPage
            (set_trace d (trace d ++ match lastRequestedPage d with
                                     | Some p => [EvReset (pg_ref p)]
                                     | None => []
                                     end)) None).
Proof.
  unfold resetLastRequestedPage. munfold.
  destruct d as [? ? ? ? ? ? ? ? ? ? ? ? [p|] ? ? ?]; simpl; [done|].
  by rewrite app_nil_r.
Qed.

Lemma loaded_frame_refl d : loaded_frame d d.
Proof. split; auto. Qed.

Ltac frame_step := split; simpl; auto; governed_step.

Lemma loaded_frame_trans d1 d2 d3 :
  loaded_frame d1 d2 → loaded_frame d2 d3 → loaded_frame d1 d3.
Proof. intros [] []. split; try congruence. by eapply governed_trans. Qed.

Local Hint Resolve loaded_frame_refl : core.

Lemma installDependency_frame id b d :
  loaded_frame d (installDependency id b d).2 ∧ (installDependency id b d).1 = Ok tt.
Proof. unfold installDependency, addMemory. munfold. split; [frame_step|done]. Qed.

Lemma land_frame i d : loaded_frame d (land i d).2 ∧ (land i d).1 = Ok tt.
Proof.
  unfold land. destruct (inFlight d !! i) as [cb|]; [|done].
  destruct (cb_result cb) as [b|e].
  - match goal with |- context [installDependency ?x ?y ?d0] =>
      destruct (installDependency_frame x y d0) as [Hf Hr] end.
    split; [|done]. eapply loaded_frame_trans; [|exact Hf]. frame_step.
  - split; [frame_step|done].
Qed.

Lemma landAll_frame indices d :
  loaded_frame d (landAll indices d).2 ∧ (landAll indices d).1 = Ok tt.
Proof.
  revert d. induction indices as [|i l IH]; intros d; simpl; [done|].
  unfold bind. destruct (land_frame i d) as [Hf Hr].
  destruct (land i d) as [[[]|e] d']; simpl in *; [|done].
  destruct (IH d') as [Hf' Hr']. split; [|done]. by eapply loaded_frame_trans.
Qed.

Lemma await_frame s k d : loaded_frame d (await s k d).2 ∧ (await s k d).1 = Ok tt.
Proof. apply landAll_frame. Qed.

(** Where a call is suspended, the document moves on and the call resumes. *)
Lemma await_run s k d : ∃ d', await s k d = (Ok tt, d') ∧ loaded_frame d d'.
Proof.
  destruct (await_frame s k d) as [Hf Hr].
  destruct (await s k d) as [r d']; simpl in *. subst r. by exists d'.
Qed.

Lemma completeDependency_frame env pn id d :
  loaded_frame d (completeDependency env pn id d).2
  ∧ throwsLater (completeDependency env pn id d).1.
Proof.
  unfold completeDependency. mstep.
  destruct (fetchComponent env pn _ id) as [body|e] eqn:Hf.
  - destruct (installDependency_frame id body d) as [H1 H2]. split; [done|].
    by rewrite H2.
  - split; [done|]. simpl. unfold fetchComponent in Hf.
    destruct (fetch env _) as [|ok b]; [by inversion Hf|].
    repeat (match type of Hf with context [if ?c then _ else _] => destruct c end);
      by inversion Hf.
Qed.

Lemma settleAllWith_frame s k env pn order d :
  loaded_frame d (settleAllWith s k env pn order d).2
  ∧ throwsLater (settleAllWith s k env pn order d).1.
Proof.
  revert k d. induction order as [|id order IH]; intros k d; simpl; [done|].
  unfold bind. destruct (await_run s k d) as (d0 & -> & H0).
  destruct (completeDependency_frame env pn id d0) as [Hf Ht].
  destruct (completeDependency env pn id d0) as [[[]|e] d']; simpl in *.
  - destruct (IH (S k) d') as [Hf' Ht']. split; [|done].
    eapply loaded_frame_trans; [exact H0|]. by eapply loaded_frame_trans.
  - split; [|done]. eapply loaded_frame_trans; [exact H0|].
    eapply loaded_frame_trans; [exact Hf|]. frame_step.
Qed.

Lemma settleAll_frame env pn order d :
  loaded_frame d (settleAll env pn order d).2
  ∧ throwsLater (settleAll env pn order d).1.
Proof. apply settleAllWith_frame. Qed.

Lemma loadDependenciesWith_frame s k env deps pn d :
  loaded_frame d (_loadDependenciesWith s k env deps pn d).2
  ∧ throwsLater (_loadDependenciesWith s k env deps pn d).1.
Proof.
  unfold _loadDependenciesWith. mstep.
  destruct (unloaded d deps) as [|u us] eqn:Hu; [done|].
  rewrite emitAll_run.
  match goal with |- context [settleAllWith s k env pn ?o ?d0] =>
    destruct (settleAllWith_frame s k env pn o d0) as [Hf Ht] end.
  split; [|done]. eapply loaded_frame_trans; [|exact Hf].
  frame_step.
Qed.

Lemma loadDependencies_frame env deps pn d :
  loaded_frame d (_loadDependencies env deps pn d).2
  ∧ throwsLater (_loadDependencies env deps pn d).1.
Proof. apply loadDependenciesWith_frame. Qed.

Lemma evictPages_governed queue d :
  governed d (evictPages queue d).2 ∧ throwsLater (evictPages queue d).1.
Proof.
  revert d. induction queue as [|number rest IH]; intros d; simpl.
  { by destruct (js_gt _ _). }
  destruct (js_gt _ _); [|done].
  destruct (pages d !! number) as [[p|]|] eqn:Hp; simpl.
  - match goal with |- context [evictPages rest ?d0] => destruct (IH d0) as [Hg Ht] end.
    split; [|done]. eapply governed_trans; [|exact Hg].
    governed_step.
    + by rewrite length_insert.
    + intros i Hi. destruct (decide (i = number)) as [->|Hne].
      * rewrite list_lookup_insert_eq; [done|]. by eapply lookup_lt_Some.
      * by rewrite list_lookup_insert_ne.
  - split; [|done]. governed_step.
  - split; [|done]. governed_step.
Qed.

Lemma preserveLoop_governed ids acc d :
  governed d (preserveLoop ids acc d).2 ∧ throwsLater (preserveLoop ids acc d).1.
Proof.
  revert acc d. induction ids as [|id ids IH]; intros acc d; simpl; [done|].
  munfold. destruct (djvi d !! id) as [c|]; simpl; [|done].
  match goal with |- context [preserveLoop ids ?a ?d0] => destruct (IH a d0) as [Hg Ht] end.
  split; [|done]. eapply governed_trans; [|exact Hg]. governed_step.
Qed.

Lemma releaseMemoryIfRequired_governed pres d :
  governed d (releaseMemoryIfRequired pres d).2
  ∧ throwsLater (releaseMemoryIfRequired pres d).1.
Proof.
  unfold releaseMemoryIfRequired. mstep.
  destruct (js_le _ _); [done|].
  destruct (evictPages_governed (loadedPageNumbers d) d) as [H1 T1].
  destruct (evictPages (loadedPageNumbers d) d) as [[[]|e] d1]; simpl in H1, T1 |- *; [|done].
  destruct (js_gt _ _ && _); [|done].
  rewrite resetLastRequestedPage_run.
  match goal with |- context [preserveLoop ?i ?a ?d2] =>
    destruct (preserveLoop_governed i a d2) as [H3 T3];
    destruct (preserveLoop i a d2) as [[nj|e] d3] end; simpl in H3, T3 |- *.
  - split; [|done].
    eapply governed_trans; [exact H1|].
    eapply governed_trans; [|eapply governed_trans; [exact H3|]].
    + governed_step.
    + governed_step.
  - split; [|done].
    eapply governed_trans; [exact H1|]. eapply governed_trans; [|exact H3].
    governed_step.
Qed.

(** ** The page load of an empty slot *)

Lemma loadPageWith_run s env number d :
  match loadPageWith s env number d with
  | (Ok _, d') =>
      ∃ dg page,
        governed d dg ∧ dirm d ≠ None ∧
        d' = set_lastRequestedPage
               (set_loadedPageNumbers
                  (set_pages dg (<[Z.to_nat (number - 1) := Some page]> (pages dg)))
                  (loadedPageNumbers dg ++ [Z.to_nat (number - 1)]))
               (Some page)
  | (Throw e, d') =>
      governed d d' ∧ (laterError e ∨ (e = NoBaseUrlDjVuError ∧ d' = d))
  end.
Proof.
  unfold loadPageWith. mstep.
  destruct (baseUrl d) as [base|] eqn:Hb; [|split; auto].
  destruct (dirm d) as [dm|] eqn:Hdm; [|split; [auto|by left]].
  unfold emit. mstep.
  match goal with |- context [await s 0 ?d0] =>
    destruct (await_run s 0 d0) as (dL & -> & [HL _ _ _ _]);
    assert (Hg0 : governed d dL) by (eapply governed_trans; [|exact HL]; governed_step)
  end.
  clear HL.
  destruct (fetch env _) as [|ok pageBuffer]; [split; [done|by left]|].
  destruct (negb ok); [split; [done|by left]|].
  destruct (await_run s 1 dL) as (dM & -> & [HM _ _ _ _]).
  assert (Hg1 : governed d dM) by (by eapply governed_trans). clear HM Hg0 dL.
  destruct (negb _); [split; [done|by left]|].
  unfold newDjVuPage, addMemory. mstep.
  set (page := {| pg_ref := _ |}).
  match goal with |- context [_loadDependenciesWith s 3 env ?ds number ?d0] =>
    destruct (loadDependenciesWith_frame s 3 env ds number d0) as [[Hf _ _ _ _] Ht];
    assert (Hg2 : governed d d0) by (eapply governed_trans; [exact Hg1|]; governed_step);
    destruct (_loadDependenciesWith s 3 env ds number d0) as [[[]|e] d1] end;
    simpl in Hf, Ht; [|split; [by eapply governed_trans|by left]].
  destruct (await_run s 2 d1) as (dN & -> & [HN _ _ _ _]).
  destruct (releaseMemoryIfRequired_governed (Some (pg_deps page)) dN) as [Hg Hgt].
  destruct (releaseMemoryIfRequired (Some (pg_deps page)) dN) as [[[]|e] dg];
    simpl in Hg, Hgt.
  - exists dg, page. split; [|done].
    eapply governed_trans; [exact Hg2|]. eapply governed_trans; [exact Hf|].
    by eapply governed_trans.
  - split; [|by left].
    eapply governed_trans; [exact Hg2|]. eapply governed_trans; [exact Hf|].
    by eapply governed_trans.
Qed.

Lemma loadPage_run env number d :
  match loadPage env number d with
  | (Ok _, d') =>
      ∃ dg page,
        governed d dg ∧ dirm d ≠ None ∧
        d' = set_lastRequestedPage
               (set_loadedPageNumbers
                  (set_pages dg (<[Z.to_nat (number - 1) := Some page]> (pages dg)))
                  (loadedPageNumbers dg ++ [Z.to_nat (number - 1)]))
               (Some page)
  | (Throw e, d') =>
      governed d d' ∧ (laterError e ∨ (e = NoBaseUrlDjVuError ∧ d' = d))
  end.
Proof. apply loadPageWith_run. Qed.

(** ** The page load, await by await *)

Lemma await_eq s k d : await s k d = (Ok tt, (await s k d).2).
Proof.
  destruct (await_frame s k d) as [_ Hr].
  destruct (await s k d) as [r d']; simpl in *. by subst r.
Qed.

Ltac mraw := unfold bind, get, modify, ret, throw; cbv beta iota.

(** The page load of an empty slot of a document with a base location:
    [dL], [dM] and [dC] are the documents in which the call resumes after
    its awaits. *)
Lemma loadPageWith_unfold s env number d base dm :
  baseUrl d = Some base → dirm d = Some dm →
  let url := base +:+ js_str "undefined" (getPageNameByItsNumber dm number) in
  let dL := (await s 0 (set_trace d (trace d ++ [EvFetch url]))).2 in
  loadPageWith s env number d =
  match fetch env url with
  | Response true b =>
      let dM := (await s 1 dL).2 in
      if (readStr4 0 b =? "AT&T")%string then
        let page := {| pg_ref := nextRef dM; pg_buffer := byteLength b;
                       pg_length := byteLength b - 4;
                       pg_deps := getDependencies env (forkFrom 4 b) |} in
        let dA := set_memoryUsage (set_nextRef dM (S (nextRef dM)))
                    (js_add (memoryUsage dM) (byteLength b)) in
        match _loadDependenciesWith s 3 env (pg_deps page) number dA with
        | (Throw e, dB) => (Throw e, dB)
        | (Ok _, dB) =>
            let dC := (await s 2 dB).2 in
            match releaseMemoryIfRequired (Some (pg_deps page)) dC with
            | (Throw e, dG) => (Throw e, dG)
            | (Ok _, dG) =>
                (Ok tt,
                 set_lastRequestedPage
                   (set_loadedPageNumbers
                      (set_pages dG (<[Z.to_nat (number - 1) := Some page]> (pages dG)))
                      (loadedPageNumbers dG ++ [Z.to_nat (number - 1)]))
                   (Some page))
            end
        end
      else (Throw CorruptedFileDjVuError, dM)
  | r => (Throw (pageFetchError number url r), dL)
  end.
Proof.
  intros Hb Hdm. cbv zeta. unfold loadPageWith. mraw. rewrite Hb, Hdm.
  unfold emit. mraw. rewrite (await_eq s 0).
  destruct (fetch env _) as [|[] b]; [done| |done]. cbv beta iota delta [negb].
  rewrite (await_eq s 1).
  destruct (readStr4 0 b =? "AT&T")%string; [|done]. cbv beta iota.
  unfold newDjVuPage, addMemory. mraw. cbn [pg_deps].
  destruct (_loadDependenciesWith _ _ _ _ _ _) as [[[]|e] dB]; [|done].
  rewrite (await_eq s 2).
  destruct (releaseMemoryIfRequired _ _) as [[[]|e] dG]; done.
Qed.

(** ** Calls on a document with no callback in flight

    With no callback in flight nothing can land while a call is suspended:
    whatever the schedule, the call is the one in which nothing lands. *)

Lemma land_idle i d : inFlight d = [] → land i d = (Ok tt, d).
Proof. intros H. unfold land. by rewrite H. Qed.

Lemma landAll_idle indices d : inFlight d = [] → landAll indices d = (Ok tt, d).
Proof.
  intros H. induction indices as [|i l IH]; simpl; [done|].
  unfold bind. by rewrite land_idle.
Qed.

Lemma await_idle s k d : inFlight d = [] → await s k d = (Ok tt, d).
Proof. apply landAll_idle. Qed.

Lemma completeDependency_inFlight env pn id d :
  inFlight (completeDependency env pn id d).2 = inFlight d.
Proof.
  unfold completeDependency, installDependency, addMemory. mstep.
  by destruct (fetchComponent _ _ _ _).
Qed.

Lemma settleAllWith_idle s k k' env pn order d :
  inFlight d = [] →
  settleAllWith s k env pn order d = settleAllWith quiet k' env pn order d.
Proof.
  revert k k' d. induction order as [|id order IH]; intros k k' d Hi; simpl; [done|].
  unfold bind. rewrite await_idle by done. rewrite await_quiet.
  pose proof (completeDependency_inFlight env pn id d) as Hc.
  destruct (completeDependency env pn id d) as [[[]|e] d']; simpl in Hc; [|done].
  apply IH. congruence.
Qed.

Lemma loadDependenciesWith_idle s k env deps pn d :
  inFlight d = [] →
  _loadDependenciesWith s k env deps pn d = _loadDependencies env deps pn d.
Proof.
  intros Hi. unfold _loadDependencies, _loadDependenciesWith. mraw.
  destruct (unloaded d deps); [done|]. rewrite !emitAll_run.
  by apply settleAllWith_idle.
Qed.

Lemma settleAllWith_ok_inFlight s k env pn order d d' :
  inFlight d = [] → settleAllWith s k env pn order d = (Ok tt, d') → inFlight d' = [].
Proof.
  revert k d. induction order as [|id order IH]; intros k d Hi; simpl.
  { by intros [= <-]. }
  unfold bind. rewrite await_idle by done.
  pose proof (completeDependency_inFlight env pn id d) as Hc.
  destruct (completeDependency env pn id d) as [[[]|e] d1]; simpl in Hc; [|done].
  apply IH. congruence.
Qed.

Lemma loadDependenciesWith_ok_idle s k env deps pn d d' :
  inFlight d = [] → _loadDependenciesWith s k env deps pn d = (Ok tt, d') → inFlight d' = [].
Proof.
  intros Hi. unfold _loadDependenciesWith. mraw.
  destruct (unloaded d deps); [by intros [= <-]|]. rewrite emitAll_run.
  by apply settleAllWith_ok_inFlight.
Qed.

Lemma loadPageWith_idle s env number d :
  inFlight d = [] → loadPageWith s env number d = loadPage env number d.
Proof.
  intros Hi. unfold loadPage.
  destruct (baseUrl d) as [base|] eqn:Hb.
  2:{ unfold loadPageWith. mraw. by rewrite Hb. }
  destruct (dirm d) as [dm|] eqn:Hdm.
  2:{ unfold loadPageWith. mraw. by rewrite Hb, Hdm. }
  rewrite !(loadPageWith_unfold _ env number d base dm) by done. cbv zeta.
  rewrite await_idle, await_quiet by done.
  set (d0 := set_trace d _). assert (H0 : inFlight d0 = []) by done. clearbody d0.
  cbn [snd].
  destruct (fetch env _) as [|[] b]; [done| |done].
  rewrite await_idle, await_quiet by done. cbn [snd].
  destruct (readStr4 0 b =? "AT&T")%string; [|done].
  set (page := {| pg_ref := _ |}). set (dA := set_memoryUsage _ _).
  assert (HA : inFlight dA = []) by done. clearbody dA.
  rewrite (loadDependenciesWith_idle s 3) by done.
  change (_loadDependenciesWith quiet 3) with _loadDependencies.
  destruct (_loadDependencies env (pg_deps page) number dA) as [[[]|e] dB] eqn:HB; [|done].
  apply loadDependenciesWith_ok_idle in HB; [|done].
  by rewrite await_idle, await_quiet by done.
Qed.

(** A call on a document with no callback in flight. *)
Lemma getPageWith_idle s env number d :
  inFlight d = [] → getPageWith s env number d = getPage env number d.
Proof.
  intros Hi. unfold getPage. rewrite !getPageWith_unfold. cbv zeta.
  set (d1 := set_lastRequestedPage _ _).
  assert (H1 : inFlight d1 = []).
  { subst d1. destruct (lastRequestedPage d); [destruct (negb _)|]; done. }
  clearbody d1.
  destruct (slot d number) as [p|].
  - destruct (negb _ && _); [|done].
    destruct (pg_deps p) as [|x l]; [done|].
    unfold bind. rewrite (loadDependenciesWith_idle s 3) by done.
    change (_loadDependenciesWith quiet 3) with _loadDependencies.
    destruct (_loadDependencies env (x :: l) 1 d1) as [[[]|e] dB] eqn:HB; [|done].
    apply loadDependenciesWith_ok_idle in HB; [|done].
    by rewrite await_idle, await_quiet by done.
  - destruct (_ || _); [done|].
    unfold bind. by rewrite loadPageWith_idle.
Qed.

(** C6. On an indirect document without a base location, [getPage(n)] on an
    empty slot with [n] in [1, pages.length] throws NoBaseUrl; the slot stays
    empty and the resident-byte counter keeps its value. *)
Theorem getPage_NoBaseUrl env d number :
  isBundled d = false → baseUrl d = None →
  1 ≤ number ≤ Z.of_nat (length (pages d)) → slot d number = None →
  ∃ d', getPage env number d = (Throw NoBaseUrlDjVuError, d')
        ∧ slot d' number = None ∧ pages d' = pages d
        ∧ memoryUsage d' = memoryUsage d.
Proof.
  intros Hb Hbase [H1 H2] Hs. rewrite getPage_unfold. cbv zeta. rewrite Hs.
  assert (Hc : (number <? 1) || (Z.of_nat (length (pages d)) <? number) || isBundled d = false).
  { rewrite Hb. destruct (Z.ltb_spec number 1); [lia|].
    destruct (Z.ltb_spec (Z.of_nat (length (pages d))) number); [lia|done]. }
  rewrite Hc. unfold bind at 1. unfold loadPage, loadPageWith. mstep.
  match goal with |- context [baseUrl ?d0] =>
    replace (baseUrl d0) with (@None string) end.
  2:{ destruct (lastRequestedPage d); [destruct (negb _)|]; simpl; done. }
  eexists. split; [reflexivity|].
  unfold slot in *. destruct (lastRequestedPage d); [destruct (negb _)|]; simpl; done.
Qed.

(** ** getPage on a resident page *)

Lemma sameRef_refl o : sameRef o o = true.
Proof. destruct o; simpl; [apply Nat.eqb_refl|done]. Qed.

Lemma getPage_resident env number d p :
  slot d number = Some p → lastRequestedPage d = Some p →
  isOnePageDependenciesLoaded d = true ∨ formId d ≠ "FORMDJVU" →
  getPage env number d = (Ok (Some p), d).
Proof.
  intros Hs Hl Hk. rewrite getPage_unfold. cbv zeta. rewrite Hs, Hl.
  rewrite sameRef_refl. simpl negb. cbv iota.
  assert (Hc : negb (isOnePageDependenciesLoaded d) && (formId d =? "FORMDJVU")%string = false).
  { destruct Hk as [->| Hk]; [done|]. apply String.eqb_neq in Hk. rewrite Hk.
    apply andb_false_r. }
  rewrite Hc. mstep. rewrite <- Hl. rewrite set_lastRequestedPage_id. by rewrite Hl.
Qed.

Ltac trace_goal H :=
  let rest := fresh "rest" in
  let Hr := fresh "Hr" in
  destruct H as [rest Hr]; exists rest; rewrite Hr; simpl; by rewrite <- ?app_assoc.

(** What a call of [getPage] leaves behind, whatever its outcome. *)
Lemma getPage_run env number d r d' :
  getPage env number d = (r, d') →
  lastRequestedPage d' = slot d' number
  ∧ (∃ rest, trace d' = trace d
               ++ match lastRequestedPage d with
                  | Some q => if sameRef (Some q) (slot d number) then []
                              else [EvReset (pg_ref q)]
                  | None => []
                  end ++ rest)
  ∧ match r with
    | Ok v => v = slot d' number ∧ is_Some v
              ∧ (formId d' = "FORMDJVU" → dirm d = None →
                 isOnePageDependenciesLoaded d' = true)
              ∧ formId d' = formId d
              ∧ (slot d number = None → dirm d ≠ None)
    | Throw e =>
        laterError e
        ∨ (slot d number = None ∧ lastRequestedPage d' = None ∧ pages d' = pages d
           ∧ djvi d' = djvi d ∧ memoryUsage d' = memoryUsage d
           ∧ loadedPageNumbers d' = loadedPageNumbers d
           ∧ trace d' = trace d
                        ++ match lastRequestedPage d with
                           | Some q => if sameRef (Some q) (slot d number) then []
                                       else [EvReset (pg_ref q)]
                           | None => []
                           end)
    end.
Proof.
  rewrite getPage_unfold. cbv zeta.
  set (ev := match lastRequestedPage d with
             | Some q => if sameRef (Some q) (slot d number) then []
                         else [EvReset (pg_ref q)]
             | None => [] end).
  set (d0 := match lastRequestedPage d with Some q => _ | None => d end).
  assert (H0 : d0 = set_trace d (trace d ++ ev)).
  { subst d0 ev. destruct (lastRequestedPage d); [destruct (sameRef _ _)|]; simpl;
      rewrite ?app_nil_r; by destruct d. }
  clearbody d0. subst d0.
  set (d1 := set_lastRequestedPage _ _).
  destruct (slot d number) as [p|] eqn:Hs.
  - (* the slot holds a page *)
    assert (Hs1 : slot d1 number = Some p) by (unfold slot in *; done).
    destruct (negb _ && _) eqn:Hc.
    + unfold bind at 1 2.
      set (m := match pg_deps p with
                | [] => ret tt
                | _ => _loadDependencies env (pg_deps p) 1 end).
      assert (Hf : ∀ r0 d2, m d1 = (r0, d2) → loaded_frame d1 d2 ∧ throwsLater r0).
      { intros r0 d2 Hr. subst m. destruct (pg_deps p) eqn:Hd.
        - inversion Hr; subst. done.
        - rewrite <- Hd in Hr.
          pose proof (loadDependencies_frame env (pg_deps p) 1 d1) as Hx.
          by rewrite Hr in Hx. }
      clearbody m.
      destruct (m d1) as [[[]|e] d2] eqn:Hr;
        destruct (Hf _ _ eq_refl) as [[[] Hp Hh _ _] Ht]; simpl in Ht.
      * mstep. intros [= <- <-]. simpl.
        unfold slot in *. simpl. rewrite Hp, Hh. simpl.
        split_and!; auto; try done; try congruence. trace_goal gv_trace0.
      * intros [= <- <-]. unfold slot in *. rewrite Hp, Hh. simpl.
        split_and!; auto. trace_goal gv_trace0.
    + mstep. intros [= <- <-]. simpl. unfold slot in *. simpl.
      split_and!; auto; try done; try congruence.
      * exists []. by rewrite app_nil_r.
      * intros Hk _. apply andb_false_iff in Hc as [Hc|Hc].
        -- by apply negb_false_iff in Hc.
        -- apply String.eqb_neq in Hc. done.
  - (* the slot is empty *)
    destruct (_ || _) eqn:Hc.
    + mstep. intros [= <- <-]. simpl. unfold slot in *. simpl.
      split_and!; auto.
      * exists []. by rewrite app_nil_r.
      * right. done.
    + apply orb_false_iff in Hc as [Hc Hb]. apply orb_false_iff in Hc as [Hlo Hhi].
      apply Z.ltb_ge in Hlo, Hhi.
      unfold bind at 1. pose proof (loadPage_run env number d1) as Hrun.
      destruct (loadPage env number d1) as [[[]|e] d2].
      * destruct Hrun as (dg & page & Hg & Hdm & ->). mstep. intros [= <- <-].
        destruct Hg. simpl in *. unfold slot. simpl.
        destruct (Z.ltb_spec number 1); [lia|].
        rewrite list_lookup_insert_eq by lia. simpl.
        split_and!; auto; try done; try congruence.
        trace_goal gv_trace0.
      * destruct Hrun as [Hg Hl]. intros [= <- <-]. destruct Hg. simpl in *.
        assert (He : slot d2 number = None).
        { unfold slot in *. destruct (number <? 1); [done|]. by apply gv_empty0. }
        rewrite He. split_and!.
        -- destruct gv_held0 as [->| ->]; done.
        -- trace_goal gv_trace0.
        -- destruct Hl as [Hl|[-> ->]]; [by left|right]. simpl. done.
Qed.

(** ** Sums over slots and resources *)

Lemma djviBytes_empty : djviBytes ∅ = 0.
Proof. unfold djviBytes. by rewrite map_fold_empty. Qed.

Lemma djviBytes_insert (m : gmap string DjViChunk) i c :
  m !! i = None → djviBytes (<[i := c]> m) = djviBytes m + dv_buffer c.
Proof.
  intros H. unfold djviBytes. rewrite map_fold_insert_L; [done| |done].
  intros. lia.
Qed.

Lemma subtract_fold (m : gmap string DjViChunk) (v : Z) :
  map_fold (λ _ c acc, js_sub acc (dv_buffer c)) (Some (Num v)) m
  = Some (Num (v - djviBytes m)).
Proof.
  unfold djviBytes.
  induction m as [|i c m Hi Hfold IH] using map_first_key_ind.
  - rewrite !map_fold_empty. do 2 f_equal. lia.
  - rewrite !map_fold_insert_first_key by done. rewrite IH. simpl. do 2 f_equal. lia.
Qed.

Lemma djviBytes_filter_split (P : string → Prop) `{!∀ x, Decision (P x)}
    (m : gmap string DjViChunk) :
  djviBytes m = djviBytes (filter (λ kc, P kc.1) m) + djviBytes (filter (λ kc, ¬ P kc.1) m).
Proof.
  induction m as [|i c m Hi IH] using map_ind.
  - rewrite !map_filter_empty, djviBytes_empty. lia.
  - rewrite djviBytes_insert by done.
    destruct (decide (P i)) as [HP|HP].
    + rewrite (map_filter_insert_True (λ kc, P kc.1)) by done.
      rewrite (map_filter_insert_False (λ kc, ¬ P kc.1)) by (simpl; tauto).
      rewrite delete_id by done.
      rewrite djviBytes_insert by (by rewrite map_lookup_filter_None; left).
      lia.
    + rewrite (map_filter_insert_False (λ kc, P kc.1)) by done.
      rewrite (map_filter_insert_True (λ kc, ¬ P kc.1)) by done.
      rewrite delete_id by done.
      rewrite djviBytes_insert by (by rewrite map_lookup_filter_None; left).
      lia.
Qed.

Lemma pagesBytes_cons o ps : pagesBytes (o :: ps) = slotBytes o + pagesBytes ps.
Proof. reflexivity. Qed.

Lemma pagesBytes_clear ps i :
  pagesBytes (<[i := None]> ps) = pagesBytes ps - pageBytesAt ps i.
Proof.
  unfold pageBytesAt. revert i.
  induction ps as [|o ps IH]; intros [|i]; simpl insert; simpl lookup;
    rewrite ?pagesBytes_cons, ?IH; try destruct o; simpl; lia.
Qed.

Lemma pagesBytes_fill ps i page :
  (i < length ps)%nat → mjoin (ps !! i) = None →
  pagesBytes (<[i := Some page]> ps) = pagesBytes ps + pg_buffer page.
Proof.
  revert i.
  induction ps as [|o ps IH]; intros [|i] Hl Hn; simpl in Hl, Hn;
    simpl insert; rewrite ?pagesBytes_cons; try (simpl in *; lia).
  - subst o. simpl. lia.
  - rewrite IH by (auto; lia). lia.
Qed.

Lemma pagesBytes_replicate n : pagesBytes (replicate n None) = 0.
Proof. induction n; simpl replicate; rewrite ?pagesBytes_cons, ?IHn; done. Qed.

Lemma clearSlots_lookup indices ps i :
  mjoin (clearSlots indices ps !! i) = if decide (i ∈ indices) then None else mjoin (ps !! i).
Proof.
  revert ps. induction indices as [|j l IH]; intros ps; [done|].
  unfold clearSlots in *. simpl. rewrite IH.
  destruct (decide (i ∈ l)) as [Hin|Hin].
  - rewrite decide_True; [done | by right].
  - destruct (decide (i = j)) as [->|Hne].
    + rewrite decide_True by left.
      destruct (decide (j < length ps)%nat).
      * by rewrite list_lookup_insert_eq.
      * rewrite list_insert_ge by lia. by rewrite lookup_ge_None_2 by lia.
    + rewrite decide_False by (intros [?|?]%elem_of_cons; done).
      by rewrite list_lookup_insert_ne.
Qed.

Lemma sumZ_cons x l : sumZ (x :: l) = x + sumZ l.
Proof. reflexivity. Qed.


Lemma sumZ_perm l1 l2 : l1 ≡ₚ l2 → sumZ l1 = sumZ l2.
Proof.
  induction 1; simpl; rewrite ?sumZ_cons in *; lia.
Qed.

Lemma pagesBytes_clearSlots indices ps :
  NoDup indices →
  pagesBytes (clearSlots indices ps) = pagesBytes ps - sumZ (pageBytesAt ps <$> indices).
Proof.
  revert ps. induction indices as [|j l IH]; intros ps Hnd.
  { unfold clearSlots. simpl. lia. }
  apply NoDup_cons in Hnd as [Hj Hnd].
  change (clearSlots (j :: l) ps) with (clearSlots l (<[j:=None]> ps)).
  rewrite IH by done. rewrite pagesBytes_clear.
  assert (Heq : pageBytesAt (<[j:=None]> ps) <$> l = pageBytesAt ps <$> l).
  { apply list_fmap_ext. intros k x Hx. unfold pageBytesAt.
    rewrite list_lookup_insert_ne; [done|]. intros ->.
    apply Hj. by eapply list_elem_of_lookup_2. }
  rewrite Heq, fmap_cons, sumZ_cons. lia.
Qed.

(** ** The governor, step by step *)

Lemma evicted_0 m d : memoryUsage d = Some m → evicted 0 m d = d.
Proof.
  intros H. unfold evicted, clearSlots. rewrite drop_0. simpl.
  rewrite Z.sub_0_r, <- H. by destruct d.
Qed.

Lemma evictPages_run queue d m :
  memoryUsage d = Some m → loadedPageNumbers d = queue → NoDup queue →
  (∀ i, i ∈ queue → is_Some (mjoin (pages d !! i))) →
  ∃ k, (k ≤ length queue)%nat
       ∧ evictPages queue d = (Ok tt, evicted k m d)
       ∧ (∀ j, (j < k)%nat →
               memoryLimit d < m - sumZ (pageBytesAt (pages d) <$> take j queue))
       ∧ (m - sumZ (pageBytesAt (pages d) <$> take k queue) ≤ memoryLimit d
          ∨ k = length queue).
Proof.
  revert d m. induction queue as [|number rest IH]; intros d m Hm Hq Hnd Hres.
  { exists 0%nat. simpl. rewrite evicted_0 by done.
    split_and!; [done|by destruct (js_gt _ _)|lia|by right]. }
  simpl evictPages. rewrite Hm. simpl js_gt.
  destruct (Z.ltb_spec (memoryLimit d) m) as [Hover|Hunder].
  2:{ exists 0%nat. rewrite evicted_0 by done. simpl.
      split_and!; [lia|done|lia|left; lia]. }
  destruct (Hres number) as [p Hp]; [by left|].
  assert (Hlk : pages d !! number = Some (Some p)).
  { destruct (pages d !! number) as [[q|]|]; simpl in Hp; congruence. }
  simpl pages. rewrite Hlk. simpl memoryUsage.
  change ((λ v : Z, v - pg_buffer p) <$> Some m) with (Some (m - pg_buffer p)).
  apply NoDup_cons in Hnd as [Hnot Hnd].
  set (d' := set_pages _ _).
  destruct (IH d' (m - pg_buffer p)) as (k & Hk & Hrun & Hlim & Hend); [done..| |].
  { intros i Hi. simpl. rewrite list_lookup_insert_ne by (intros ->; done).
    apply Hres. by right. }
  assert (Hb : pageBytesAt (pages d) number = pg_buffer p).
  { unfold pageBytesAt. by rewrite Hlk. }
  assert (Heq : ∀ j, pageBytesAt (pages d') <$> take j rest
                     = pageBytesAt (pages d) <$> take j rest).
  { intros j. apply list_fmap_ext. intros i x Hx. unfold pageBytesAt. simpl.
    rewrite list_lookup_insert_ne; [done|]. intros ->. apply Hnot.
    apply lookup_take_Some in Hx as [Hx _]. by eapply list_elem_of_lookup_2. }
  exists (S k). split_and!.
  - simpl. lia.
  - rewrite Hrun. f_equal. unfold evicted. rewrite Hq. simpl loadedPageNumbers.
    simpl drop. simpl take. rewrite Heq. rewrite fmap_cons, sumZ_cons, Hb.
    replace (m - pg_buffer p - sumZ (pageBytesAt (pages d) <$> take k rest))
      with (m - (pg_buffer p + sumZ (pageBytesAt (pages d) <$> take k rest))) by lia.
    reflexivity.
  - intros [|j] Hj; simpl take.
    + simpl. lia.
    + rewrite fmap_cons, sumZ_cons, Hb. specialize (Hlim j ltac:(lia)).
      rewrite Heq in Hlim. simpl in Hlim. lia.
  - simpl take. rewrite fmap_cons, sumZ_cons, Hb. rewrite Heq in Hend.
    simpl in Hend |- *. destruct Hend as [Hend|Hend]; [left; lia|right; lia].
Qed.

Lemma lookup_filter_in (m : gmap string DjViChunk) (ids : list string) x :
  filter (λ kc, kc.1 ∈ ids) m !! x = if decide (x ∈ ids) then m !! x else None.
Proof.
  apply option_eq. intros c. rewrite map_lookup_filter_Some. simpl.
  destruct (decide (x ∈ ids)); split; try tauto; try done; by intros [? ?].
Qed.

Lemma keptDjvi_lookup (m : gmap string DjViChunk) ids acc x :
  keptDjvi m ids acc !! x
  = if decide (x ∈ ids) then (match m !! x with Some c => Some c | None => acc !! x end)
    else acc !! x.
Proof.
  revert acc. induction ids as [|id ids IH]; intros acc; [done|].
  unfold keptDjvi in *. simpl. rewrite IH.
  destruct (decide (x ∈ ids)) as [Hin|Hin].
  - rewrite decide_True by (by right).
    destruct (m !! x) eqn:Hx; [done|].
    destruct (m !! id) eqn:Hid; [|done].
    rewrite lookup_insert_ne; [done|]. congruence.
  - destruct (decide (x = id)) as [->|Hne].
    + rewrite decide_True by left.
      destruct (m !! id) eqn:Hid; [by rewrite lookup_insert_eq|done].
    + rewrite decide_False by (intros [?|?]%elem_of_cons; done).
      destruct (m !! id) eqn:Hid; [by rewrite lookup_insert_ne|done].
Qed.

Lemma keptDjvi_filter (m : gmap string DjViChunk) ids :
  keptDjvi m ids ∅ = filter (λ kc, kc.1 ∈ ids) m.
Proof.
  apply map_eq. intros x. rewrite keptDjvi_lookup, lookup_filter_in, lookup_empty.
  case_decide; [|done]. by destruct (m !! x).
Qed.

Lemma kept_bytes (m : gmap string DjViChunk) ids :
  NoDup ids → (∀ id, id ∈ ids → is_Some (m !! id)) →
  sumZ (residentBytes m <$> ids) = djviBytes (filter (λ kc, kc.1 ∈ ids) m).
Proof.
  induction ids as [|id ids IH]; intros Hnd Hres.
  { assert (He : filter (λ kc : string * DjViChunk, kc.1 ∈ @nil string) m = ∅).
    { apply map_eq. intros x. rewrite lookup_filter_in, lookup_empty.
      rewrite decide_False; [done | apply not_elem_of_nil]. }
    rewrite He, djviBytes_empty. done. }
  apply NoDup_cons in Hnd as [Hnot Hnd].
  destruct (Hres id) as [c Hc]; [by left|].
  assert (Hf : filter (λ kc, kc.1 ∈ id :: ids) m
               = <[id := c]> (filter (λ kc, kc.1 ∈ ids) m)).
  { apply map_eq. intros x. rewrite lookup_filter_in.
    destruct (decide (x = id)) as [->|Hne].
    - rewrite lookup_insert_eq, decide_True by left. done.
    - rewrite lookup_insert_ne by done. rewrite lookup_filter_in.
      destruct (decide (x ∈ ids)).
      + rewrite decide_True by (by right). done.
      + rewrite decide_False by (intros [?|?]%elem_of_cons; done). done. }
  rewrite Hf, djviBytes_insert by (rewrite lookup_filter_in; by rewrite decide_False).
  rewrite fmap_cons, sumZ_cons, IH by (auto; intros; apply Hres; by right).
  unfold residentBytes. rewrite Hc. simpl. lia.
Qed.

Lemma preserveLoop_run ids acc d m :
  memoryUsage d = Some m → (∀ id, id ∈ ids → is_Some (djvi d !! id)) →
  preserveLoop ids acc d
  = (Ok (keptDjvi (djvi d) ids acc),
     set_memoryUsage d (Some (m + sumZ (residentBytes (djvi d) <$> ids)))).
Proof.
  revert acc d m. induction ids as [|id ids IH]; intros acc d m Hm Hres.
  { simpl. unfold ret. rewrite Z.add_0_r, <- Hm. by destruct d. }
  destruct (Hres id) as [c Hc]; [by left|].
  simpl preserveLoop. unfold bind at 1, get. rewrite Hc.
  unfold bind, addMemory, modify. rewrite Hm.
  erewrite IH; [|reflexivity|intros; apply Hres; by right].
  simpl djvi. unfold keptDjvi. simpl foldl. rewrite Hc. f_equal.
  rewrite fmap_cons, sumZ_cons. unfold residentBytes at 2. rewrite Hc. simpl.
  unfold set_memoryUsage. simpl. do 3 f_equal. lia.
Qed.

(** The governor over budget, in full. *)
Lemma releaseMemoryIfRequired_run pres d m :
  memoryUsage d = Some m → memoryLimit d < m →
  NoDup (loadedPageNumbers d) →
  (∀ i, i ∈ loadedPageNumbers d → is_Some (mjoin (pages d !! i))) →
  (∀ id, id ∈ default [] pres → is_Some (djvi d !! id)) →
  ∃ k,
    (k ≤ length (loadedPageNumbers d))%nat
    ∧ let queue := loadedPageNumbers d in
      let m1 := m - sumZ (pageBytesAt (pages d) <$> take k queue) in
      (∀ j, (j < k)%nat →
            memoryLimit d < m - sumZ (pageBytesAt (pages d) <$> take j queue))
      ∧ (m1 ≤ memoryLimit d ∨ k = length queue)
      ∧ releaseMemoryIfRequired pres d
        = (Ok tt,
           if decide (m1 ≤ memoryLimit d) then evicted k m d
           else
             set_djvi
               (set_memoryUsage
                  (set_lastRequestedPage
                     (set_trace (evicted k m d)
                        (trace d ++ match lastRequestedPage d with
                                    | Some p => [EvReset (pg_ref p)]
                                    | None => []
                                    end))
                     None)
                  (Some (m1 + sumZ (residentBytes (djvi d) <$> default [] pres)
                         - djviBytes (djvi d))))
               (filter (λ kc, kc.1 ∈ default [] pres) (djvi d))).
Proof.
  intros Hm Hover Hnd Hres Hpres.
  destruct (evictPages_run (loadedPageNumbers d) d m Hm eq_refl Hnd Hres)
    as (k & Hk & Hrun & Hlim & Hend).
  exists k. split; [done|]. cbv zeta. split; [done|]. split; [done|].
  unfold releaseMemoryIfRequired. mstep. rewrite Hm. unfold js_le.
  destruct (Z.leb_spec m (memoryLimit d)) as [?|_]; [lia|]. cbv beta iota.
  rewrite Hrun. set (d1 := evicted k m d).
  set (m1 := m - sumZ (pageBytesAt (pages d) <$> take k (loadedPageNumbers d))) in *.
  assert (Hm1 : memoryUsage d1 = Some m1) by done.
  assert (Hl1 : memoryLimit d1 = memoryLimit d) by done.
  rewrite Hm1, Hl1. unfold js_gt.
  destruct (decide (m1 ≤ memoryLimit d)) as [Hle|Hgt].
  - destruct (Z.ltb_spec (memoryLimit d) m1) as [?|_]; [lia|].
    cbv beta iota delta [andb]. done.
  - destruct (Z.ltb_spec (memoryLimit d) m1) as [_|?]; [|lia].
    destruct Hend as [?|Hend]; [lia|].
    assert (Hq1 : loadedPageNumbers d1 = []).
    { subst d1. unfold evicted. simpl. rewrite Hend. apply drop_all. }
    rewrite Hq1. rewrite bool_decide_eq_true_2 by done. cbv beta iota delta [andb].
    rewrite resetLastRequestedPage_run.
    erewrite preserveLoop_run; [|exact Hm1|exact Hpres].
    unfold subtractAll, modify. cbv beta iota.
    simpl. rewrite subtract_fold, keptDjvi_filter. done.
Qed.

(** Within the budget the governor does nothing. *)
Lemma releaseMemoryIfRequired_within pres d m :
  memoryUsage d = Some m → m ≤ memoryLimit d →
  releaseMemoryIfRequired pres d = (Ok tt, d).
Proof.
  intros Hm Hle. unfold releaseMemoryIfRequired. mstep. rewrite Hm. unfold js_le.
  destruct (Z.leb_spec m (memoryLimit d)); [done|lia].
Qed.

(** C5 (amended). When the queue lists loaded slots without repetition and
    the preserved identifiers are resident and pairwise distinct, the
    governor, run over budget, evicts loaded pages oldest-loaded first,
    clearing each slot and subtracting its bytes, and stops as soon as the
    counter is within the budget or no loaded page remains; only when it is
    still over budget with no loaded page left does it drop the held page and
    rebuild the resource map with exactly the preserved identifiers,
    subtracting the bytes of every removed resource and of no preserved one.
    Without the side conditions the claim fails: a preserved identifier that
    is repeated is added once per occurrence and subtracted once, and one
    that is not resident (like a queue entry with an empty slot) makes the
    method throw a TypeError half-way. *)
Theorem releaseMemoryIfRequired_policy pres d m :
  memoryUsage d = Some m → memoryLimit d < m →
  NoDup (loadedPageNumbers d) →
  (∀ i, i ∈ loadedPageNumbers d → is_Some (mjoin (pages d !! i))) →
  NoDup (default [] pres) →
  (∀ id, id ∈ default [] pres → is_Some (djvi d !! id)) →
  ∃ k d',
    releaseMemoryIfRequired pres d = (Ok tt, d')
    ∧ (k ≤ length (loadedPageNumbers d))%nat
    ∧ let queue := loadedPageNumbers d in
      let m1 := m - sumZ (pageBytesAt (pages d) <$> take k queue) in
      (∀ j, (j < k)%nat →
            memoryLimit d < m - sumZ (pageBytesAt (pages d) <$> take j queue))
      ∧ (m1 ≤ memoryLimit d ∨ k = length queue)
      ∧ loadedPageNumbers d' = drop k queue
      ∧ pages d' = clearSlots (take k queue) (pages d)
      ∧ if decide (m1 ≤ memoryLimit d) then
          djvi d' = djvi d ∧ memoryUsage d' = Some m1
          ∧ lastRequestedPage d' = lastRequestedPage d ∧ trace d' = trace d
        else
          djvi d' = filter (λ kc, kc.1 ∈ default [] pres) (djvi d)
          ∧ memoryUsage d'
            = Some (m1 - djviBytes (filter (λ kc, kc.1 ∉ default [] pres) (djvi d)))
          ∧ lastRequestedPage d' = None
          ∧ trace d' = trace d ++ match lastRequestedPage d with
                                  | Some p => [EvReset (pg_ref p)]
                                  | None => []
                                  end.
Proof.
  intros Hm Hover Hnd Hres Hpnd Hpres.
  destruct (releaseMemoryIfRequired_run pres d m Hm Hover Hnd Hres Hpres)
    as (k & Hk & Hlim & Hend & Hrun).
  exists k. eexists. split; [exact Hrun|]. split; [done|]. cbv zeta.
  split; [done|]. split; [done|].
  destruct (decide _) as [Hle|Hgt]; simpl.
  - done.
  - split_and!; try done.
    do 2 f_equal. rewrite kept_bytes by done.
    rewrite (djviBytes_filter_split (λ x, x ∈ default [] pres) (djvi d)). lia.
Qed.

(** ** The dependency batch, step by step *)

Lemma insertByArrival_perm t x l : insertByArrival t x l ≡ₚ x :: l.
Proof.
  induction l as [|y l IH]; simpl; [done|].
  destruct (t y <? t x)%nat; [|done].
  rewrite IH. apply Permutation_swap.
Qed.

Lemma completionOrder_perm t l : completionOrder t l ≡ₚ l.
Proof.
  induction l as [|x l IH]; simpl; [done|].
  unfold completionOrder in *. simpl. by rewrite insertByArrival_perm, IH.
Qed.

Lemma settleAllWith_quiet env pn order k d :
  settleAllWith quiet k env pn order d
  = (match firstFailure env pn d order with Some e => Throw e | None => Ok tt end,
     set_inFlight
       (set_memoryUsage
          (set_djvi d (installDjvi env pn d (okPrefix env pn d order) (djvi d)))
          (counted (memoryUsage d) (fetchedBytes env pn d <$> okPrefix env pn d order)))
       (inFlight d ++ stillInFlight env pn d (afterFailure env pn d order))).
Proof.
  assert (Hgen : ∀ k d0, dependencyUrl d0 = dependencyUrl d →
    settleAllWith quiet k env pn order d0
    = (match firstFailure env pn d order with Some e => Throw e | None => Ok tt end,
       set_inFlight
         (set_memoryUsage
            (set_djvi d0 (installDjvi env pn d (okPrefix env pn d order) (djvi d0)))
            (counted (memoryUsage d0) (fetchedBytes env pn d <$> okPrefix env pn d order)))
         (inFlight d0 ++ stillInFlight env pn d (afterFailure env pn d order)))).
  2:{ by apply Hgen. }
  clear k. induction order as [|id order IH]; intros k d0 Hu.
  { simpl. unfold ret. f_equal. rewrite app_nil_r. by destruct d0. }
  simpl settleAllWith. mstep. unfold completeDependency. mstep.
  rewrite Hu. simpl firstFailure. simpl okPrefix. simpl afterFailure.
  destruct (fetchComponent env pn (dependencyUrl d id) id) as [b|e] eqn:Hf.
  - unfold installDependency, addMemory. mstep.
    rewrite IH by done. f_equal. unfold installDjvi at 2. simpl foldl. rewrite Hf.
    rewrite fmap_cons. unfold counted at 2. simpl foldl. unfold fetchedBytes at 2.
    rewrite Hf. reflexivity.
  - f_equal. unfold stillInFlight. rewrite Hu. by destruct d0.
Qed.

Lemma settleAll_run env pn order d :
  settleAll env pn order d
  = (match firstFailure env pn d order with Some e => Throw e | None => Ok tt end,
     set_inFlight
       (set_memoryUsage
          (set_djvi d (installDjvi env pn d (okPrefix env pn d order) (djvi d)))
          (counted (memoryUsage d) (fetchedBytes env pn d <$> okPrefix env pn d order)))
       (inFlight d ++ stillInFlight env pn d (afterFailure env pn d order))).
Proof. apply settleAllWith_quiet. Qed.

Lemma firstFailure_None env pn d order :
  firstFailure env pn d order = None → okPrefix env pn d order = order.
Proof.
  induction order as [|id order IH]; simpl; [done|].
  destruct (fetchComponent _ _ _ _); [|done]. intros H. by rewrite IH.
Qed.

Lemma okPrefix_ok env pn d order id :
  id ∈ okPrefix env pn d order →
  id ∈ order ∧ ∃ b, fetchComponent env pn (dependencyUrl d id) id = Ok b.
Proof.
  induction order as [|x order IH]; simpl; [by intros ?%not_elem_of_nil|].
  destruct (fetchComponent env pn (dependencyUrl d x) x) as [b|e] eqn:Hf;
    [|by intros ?%not_elem_of_nil].
  intros [->|Hin]%elem_of_cons.
  - split; [by left|eauto].
  - destruct (IH Hin) as [? ?]. split; [by right|done].
Qed.

(** The resources installed by callbacks that all succeeded. *)
Lemma installDjvi_lookup env pn d ids (m : gmap string DjViChunk) x :
  (∀ id, id ∈ ids → ∃ b, fetchComponent env pn (dependencyUrl d id) id = Ok b) →
  installDjvi env pn d ids m !! x
  = if decide (x ∈ ids)
    then match fetchComponent env pn (dependencyUrl d x) x with
         | Ok b => Some (newDjViChunk b)
         | Throw _ => None
         end
    else m !! x.
Proof.
  revert m. induction ids as [|id ids IH]; intros m Hok; [done|].
  unfold installDjvi in *. simpl foldl.
  destruct (Hok id) as [b Hb]; [by left|]. rewrite Hb.
  rewrite IH by (intros; apply Hok; by right).
  destruct (decide (x ∈ ids)) as [Hin|Hin].
  - by rewrite decide_True by (by right).
  - destruct (decide (x = id)) as [->|Hne].
    + rewrite decide_True by left. by rewrite Hb, lookup_insert_eq.
    + rewrite decide_False by (intros [?|?]%elem_of_cons; done).
      by rewrite lookup_insert_ne.
Qed.

Lemma installDjvi_bytes env pn d ids (m : gmap string DjViChunk) :
  NoDup ids → (∀ id, id ∈ ids → m !! id = None) →
  (∀ id, id ∈ ids → ∃ b, fetchComponent env pn (dependencyUrl d id) id = Ok b) →
  djviBytes (installDjvi env pn d ids m)
  = djviBytes m + sumZ (fetchedBytes env pn d <$> ids).
Proof.
  revert m. induction ids as [|id ids IH]; intros m Hnd Hfresh Hok.
  { simpl. lia. }
  apply NoDup_cons in Hnd as [Hnot Hnd].
  unfold installDjvi in *. simpl foldl.
  destruct (Hok id) as [b Hb]; [by left|]. rewrite Hb.
  rewrite IH; [|done| |intros; apply Hok; by right].
  - rewrite djviBytes_insert by (apply Hfresh; by left).
    rewrite fmap_cons, sumZ_cons. unfold fetchedBytes at 2. rewrite Hb.
    unfold newDjViChunk. simpl. lia.
  - intros x Hx. rewrite lookup_insert_ne by (intros ->; done).
    apply Hfresh. by right.
Qed.

Lemma okPrefix_ext env pn d0 d order :
  dependencyUrl d0 = dependencyUrl d → okPrefix env pn d0 order = okPrefix env pn d order.
Proof. intros H. induction order as [|x l IH]; simpl; [done|]. by rewrite H, IH. Qed.

Lemma firstFailure_ext env pn d0 d order :
  dependencyUrl d0 = dependencyUrl d →
  firstFailure env pn d0 order = firstFailure env pn d order.
Proof. intros H. induction order as [|x l IH]; simpl; [done|]. by rewrite H, IH. Qed.

Lemma afterFailure_ext env pn d0 d order :
  dependencyUrl d0 = dependencyUrl d →
  afterFailure env pn d0 order = afterFailure env pn d order.
Proof. intros H. induction order as [|x l IH]; simpl; [done|]. by rewrite H, IH. Qed.

Lemma counted_number (v : Z) sizes : counted (Some (Num v)) sizes = Some (Num (v + sumZ sizes)).
Proof.
  revert v. induction sizes as [|x l IH]; intros v; simpl.
  - do 2 f_equal. lia.
  - unfold counted in *. rewrite IH. do 2 f_equal. unfold sumZ. simpl. lia.
Qed.

Lemma loadDependencies_run env deps pn d :
  unloaded d deps ≠ [] →
  _loadDependencies env deps pn d
  = (match firstFailure env pn d (batchOrder env d deps) with
     | Some e => Throw e
     | None => Ok tt
     end,
     settledState env pn d deps).
Proof.
  intros Hne. unfold _loadDependencies, _loadDependenciesWith. mstep.
  unfold settledState, batchRequests.
  destruct (unloaded d deps) as [|u us] eqn:Hu; [done|].
  rewrite emitAll_run. unfold batchOrder. rewrite Hu.
  set (order := completionOrder _ _).
  set (d0 := set_trace d _).
  assert (Hd0 : dependencyUrl d0 = dependencyUrl d) by done.
  rewrite settleAllWith_quiet.
  rewrite (okPrefix_ext env pn d0 d), (firstFailure_ext env pn d0 d),
    (afterFailure_ext env pn d0 d) by done.
  f_equal.
Qed.

Lemma afterFailure_None env pn d order :
  firstFailure env pn d order = None → afterFailure env pn d order = [].
Proof.
  induction order as [|id order IH]; simpl; [done|].
  by destruct (fetchComponent _ _ _ _).
Qed.

(** The state a batch without failure leaves behind. *)
Lemma settledState_ok env pn d deps :
  firstFailure env pn d (batchOrder env d deps) = None →
  settledState env pn d deps
  = set_trace
      (set_memoryUsage
         (set_djvi d (installDjvi env pn d (batchOrder env d deps) (djvi d)))
         (counted (memoryUsage d) (fetchedBytes env pn d <$> batchOrder env d deps)))
      (trace d ++ batchRequests d deps).
Proof.
  intros Hff. unfold settledState. cbv zeta.
  rewrite (afterFailure_None _ _ _ _ Hff), (firstFailure_None _ _ _ _ Hff).
  simpl. rewrite app_nil_r. by destruct d.
Qed.

Lemma loadDependencies_none env deps pn d :
  unloaded d deps = [] → _loadDependencies env deps pn d = (Ok tt, d).
Proof. intros H. unfold _loadDependencies, _loadDependenciesWith. mstep. by rewrite H. Qed.

(** ** The accounting invariant *)

Lemma loadDependencies_accounted env deps pn d d' m :
  NoDup deps → memoryUsage d = Some m →
  _loadDependencies env deps pn d = (Ok tt, d') →
  (∃ m', memoryUsage d' = Some m'
         ∧ m' - djviBytes (djvi d') = m - djviBytes (djvi d))
  ∧ (∀ id, id ∈ deps → is_Some (djvi d' !! id))
  ∧ loaded_frame d d'.
Proof.
  intros Hnd Hm Hrun.
  pose proof (loadDependencies_frame env deps pn d) as [Hfr _].
  rewrite Hrun in Hfr. simpl in Hfr.
  destruct (decide (unloaded d deps = [])) as [Hu|Hu].
  - rewrite loadDependencies_none in Hrun by done. inversion Hrun; subst d'.
    split_and!; [by exists m| |done].
    intros id Hid. destruct (djvi d !! id) eqn:Hl; [done|].
    assert (Hin : id ∈ unloaded d deps) by (by apply list_elem_of_filter).
    rewrite Hu in Hin. by apply not_elem_of_nil in Hin.
  - rewrite loadDependencies_run in Hrun by done.
    destruct (firstFailure env pn d (batchOrder env d deps)) eqn:Hff; [done|].
    rewrite (settledState_ok _ _ _ _ Hff) in Hrun.
    apply firstFailure_None in Hff.
    inversion Hrun as [Hd']. clear Hrun. rewrite Hd'.
    set (order := batchOrder env d deps) in *.
    assert (Hperm : order ≡ₚ unloaded d deps) by apply completionOrder_perm.
    assert (Hond : NoDup order).
    { rewrite Hperm. by apply NoDup_filter. }
    assert (Hfresh : ∀ id, id ∈ order → djvi d !! id = None).
    { intros id Hid. rewrite Hperm in Hid. by apply list_elem_of_filter in Hid as [? _]. }
    assert (Hok : ∀ id, id ∈ order →
                  ∃ b, fetchComponent env pn (dependencyUrl d id) id = Ok b).
    { intros id Hid. rewrite <- Hff in Hid. by apply okPrefix_ok in Hid as [_ ?]. }
    split_and!; [| |done]; rewrite <- Hd'.
    + simpl. rewrite Hm, counted_number. eexists. split; [reflexivity|].
      rewrite installDjvi_bytes by done. lia.
    + intros id Hid. simpl. rewrite installDjvi_lookup by done.
      destruct (decide (id ∈ order)) as [Hin|Hin].
      * destruct (Hok id Hin) as [b ->]. done.
      * destruct (djvi d !! id) eqn:Hl; [done|]. exfalso. apply Hin.
        rewrite Hperm. by apply list_elem_of_filter.
Qed.

Lemma loadDependencies_ok_inFlight env deps pn d d' :
  _loadDependencies env deps pn d = (Ok tt, d') → inFlight d' = inFlight d.
Proof.
  intros Hrun. destruct (decide (unloaded d deps = [])) as [Hu|Hu].
  - rewrite loadDependencies_none in Hrun by done. by inversion Hrun.
  - rewrite loadDependencies_run in Hrun by done.
    destruct (firstFailure env pn d (batchOrder env d deps)) eqn:Hff; [done|].
    rewrite (settledState_ok _ _ _ _ Hff) in Hrun. by inversion Hrun.
Qed.

(** The governor leaves the callbacks in flight alone. *)
Lemma evictPages_inFlight queue d : inFlight (evictPages queue d).2 = inFlight d.
Proof.
  revert d. induction queue as [|number rest IH]; intros d; simpl.
  { by destruct (js_gt _ _). }
  destruct (js_gt _ _); [|done].
  destruct (pages d !! number) as [[p|]|]; simpl; [|done..].
  by rewrite IH.
Qed.

Lemma preserveLoop_inFlight ids acc d : inFlight (preserveLoop ids acc d).2 = inFlight d.
Proof.
  revert acc d. induction ids as [|id ids IH]; intros acc d; simpl; [done|].
  munfold. destruct (djvi d !! id) as [c|]; simpl; [|done]. by rewrite IH.
Qed.

Lemma releaseMemoryIfRequired_inFlight pres d :
  inFlight (releaseMemoryIfRequired pres d).2 = inFlight d.
Proof.
  unfold releaseMemoryIfRequired. mstep.
  destruct (js_le _ _); [done|].
  pose proof (evictPages_inFlight (loadedPageNumbers d) d) as H1.
  destruct (evictPages (loadedPageNumbers d) d) as [[[]|e] d1]; simpl in H1 |- *; [|done].
  destruct (js_gt _ _ && _); [|done].
  rewrite resetLastRequestedPage_run.
  match goal with |- context [preserveLoop ?i ?a ?d2] =>
    pose proof (preserveLoop_inFlight i a d2) as H3;
    destruct (preserveLoop i a d2) as [[nj|e] d3] end; simpl in H3 |- *; congruence.
Qed.

Lemma accounted_queue_drop d k :
  NoDup (loadedPageNumbers d) →
  (∀ i, i ∈ loadedPageNumbers d ↔ is_Some (mjoin (pages d !! i))) →
  NoDup (drop k (loadedPageNumbers d))
  ∧ ∀ i, i ∈ drop k (loadedPageNumbers d)
         ↔ is_Some (mjoin (clearSlots (take k (loadedPageNumbers d)) (pages d) !! i)).
Proof.
  intros Hnd Hq.
  rewrite <- (take_drop k (loadedPageNumbers d)) in Hnd.
  apply NoDup_app in Hnd as (Hn1 & Hdisj & Hn2). split; [done|].
  intros i. rewrite clearSlots_lookup.
  destruct (decide (i ∈ take k (loadedPageNumbers d))) as [Hin|Hin].
  - split; [intros Hd; by apply Hdisj in Hin | by intros [? ?]].
  - rewrite <- Hq. rewrite <- (take_drop k (loadedPageNumbers d)) at 2.
    rewrite elem_of_app. tauto.
Qed.

(** A successful page load keeps the accounting. *)
Lemma loadPage_accounted env number d d' :
  distinctDependencies env d number →
  accounted d → slot d number = None →
  1 ≤ number ≤ Z.of_nat (length (pages d)) →
  loadPage env number d = (Ok tt, d') → accounted d'.
Proof.
  intros Hdeps [Hkind Husage Hnd Hq Hidle] Hs [Hlo Hhi].
  unfold distinctDependencies, fetchedPage in Hdeps.
  unfold loadPage, loadPageWith. mstep.
  destruct (baseUrl d) as [base|]; [|done].
  destruct (dirm d) as [dm|]; [|done].
  unfold emit. mstep.
  destruct (fetch env _) as [|ok pageBuffer]; [done|].
  destruct ok; [|done]. cbv beta iota delta [negb].
  destruct (readStr4 0 pageBuffer =? "AT&T")%string; [|done]. cbv beta iota.
  specialize (Hdeps pageBuffer eq_refl).
  unfold newDjVuPage, addMemory. mstep.
  set (page := {| pg_ref := _ |}). set (dA := set_memoryUsage _ _).
  set (A := bufferLength d + pagesBytes (pages d) + djviBytes (djvi d)) in *.
  assert (HmA : memoryUsage dA = Some (A + pg_buffer page)).
  { subst dA. simpl. by rewrite Husage. }
  destruct (_loadDependencies env (pg_deps page) number dA) as [[[]|e] dB] eqn:HrunB;
    [|done].
  destruct (loadDependencies_accounted _ _ _ _ _ _ Hdeps HmA HrunB)
    as ((mB & HmB & HeqB) & HresB & [HgB HpB HhB HqB HnB]).
  assert (HmB' : mB = bufferLength d + pagesBytes (pages d) + djviBytes (djvi dB)
                       + pg_buffer page).
  { change (djvi dA) with (djvi d) in HeqB. subst A. lia. }
  change (pages dA) with (pages d) in HpB.
  change (loadedPageNumbers dA) with (loadedPageNumbers d) in HqB.
  assert (Hi : (Z.to_nat (number - 1) < length (pages d))%nat) by lia.
  assert (Hempty : mjoin (pages d !! Z.to_nat (number - 1)) = None).
  { unfold slot in Hs. destruct (Z.ltb_spec number 1); [lia|done]. }
  assert (HqB' : ∀ i, i ∈ loadedPageNumbers dB ↔ is_Some (mjoin (pages dB !! i))).
  { rewrite HqB, HpB. exact Hq. }
  assert (HndB : NoDup (loadedPageNumbers dB)) by (by rewrite HqB).
  destruct (releaseMemoryIfRequired (Some (pg_deps page)) dB) as [[[]|e] dG] eqn:HrunG;
    [|done].
  intros [= <-].
  assert (HiG : inFlight dG = []).
  { pose proof (releaseMemoryIfRequired_inFlight (Some (pg_deps page)) dB) as Hfl.
    rewrite HrunG in Hfl. simpl in Hfl.
    by rewrite Hfl, (loadDependencies_ok_inFlight _ _ _ _ _ HrunB). }
  assert (HG : formId dG = formId d ∧ bufferLength dG = bufferLength d
               ∧ length (pages dG) = length (pages d)
               ∧ mjoin (pages dG !! Z.to_nat (number - 1)) = None
               ∧ memoryUsage dG = Some (bufferLength d + pagesBytes (pages dG)
                                        + djviBytes (djvi dG) + pg_buffer page)
               ∧ NoDup (loadedPageNumbers dG)
               ∧ ∀ i, i ∈ loadedPageNumbers dG ↔ is_Some (mjoin (pages dG !! i))).
  { pose proof (releaseMemoryIfRequired_governed (Some (pg_deps page)) dB) as [HgG _].
    rewrite HrunG in HgG. simpl in HgG.
    destruct HgG as [f2 _ _ _ b2 _ l2 e2 _ _], HgB as [f1 _ _ _ b1 _ l1 _ _ _].
    change (formId dA) with (formId d) in f1.
    change (bufferLength dA) with (bufferLength d) in b1.
    change (pages dA) with (pages d) in l1.
    split; [congruence|]. split; [congruence|]. split; [congruence|].
    split; [apply e2; by rewrite HpB|].
    destruct (Z.le_gt_cases mB (memoryLimit dB)) as [Hle|Hgt].
    - rewrite (releaseMemoryIfRequired_within _ _ _ HmB Hle) in HrunG.
      inversion HrunG; subst dG.
      split_and!; [by rewrite HmB, HmB', HpB | done | done].
    - destruct (releaseMemoryIfRequired_run (Some (pg_deps page)) dB mB HmB)
        as (k & Hk & _ & _ & Hrun); [lia|done|by intros i ?%HqB'|exact HresB|].
      rewrite Hrun in HrunG. clear Hrun.
      destruct (accounted_queue_drop dB k HndB HqB') as [Hnd' Hq'].
      assert (Hpb : pagesBytes (clearSlots (take k (loadedPageNumbers dB)) (pages dB))
                    = pagesBytes (pages d)
                      - sumZ (pageBytesAt (pages dB) <$> take k (loadedPageNumbers dB))).
      { rewrite pagesBytes_clearSlots, HpB; [done|].
        rewrite <- (take_drop k (loadedPageNumbers dB)) in HndB.
        by apply NoDup_app in HndB as (? & _ & _). }
      destruct (decide _) as [Hle|Hgt']; inversion HrunG; subst dG; simpl;
        (split; [|done]); do 2 f_equal; rewrite Hpb;
        change (pg_buffer page) with (byteLength pageBuffer) in HmB'.
      + lia.
      + rewrite kept_bytes by auto.
        lia. }
  destruct HG as (Hf & Hb & Hl & He & Hm & Hn & Hqq).
  split; simpl.
  - congruence.
  - rewrite Hm, Hb. do 2 f_equal. rewrite pagesBytes_fill by (auto; lia). lia.
  - apply NoDup_app. split_and!; [done| |apply NoDup_singleton].
    intros i Hi1 ->%list_elem_of_singleton. apply Hqq in Hi1 as [? Hi1]. congruence.
  - intros i. rewrite elem_of_app, list_elem_of_singleton, Hqq.
    destruct (decide (i = Z.to_nat (number - 1))) as [->|Hne].
    + rewrite list_lookup_insert_eq by lia. simpl. split; [eauto|by right].
    + rewrite list_lookup_insert_ne by done. tauto.
  - done.
Qed.

Lemma parseComponents_dirm env es d :
  dirm (foldl (parseComponent env) d es) = dirm d.
Proof.
  revert d. induction es as [|e es IH]; intros d; simpl; [done|].
  rewrite IH. unfold parseComponent.
  repeat (match goal with |- context [if ?c then _ else _] => destruct c end); done.
Qed.

(** The indirect documents the constructor returns. *)
Lemma construct_indirect env dec arraybuffer base limit d :
  construct env dec arraybuffer base limit = Ok d → isBundled d = false →
  ∃ dm nv,
    dirmIsBundled dm = false
    ∧ d = _initMultiPageDocument env dm nv
            (blankDocument "FORMDJVM" (byteLength arraybuffer)
               (constructorBaseUrl (resolveUrl dec) base) limit).
Proof.
  unfold construct. destruct (negb _); [done|].
  destruct (String.eqb_spec (readStr4 4 arraybuffer +:+ readStr4 12 arraybuffer) "FORMDJVM")
    as [Hid|Hid].
  - destruct (negb _); [done|]. intros [= <-] Hb. rewrite Hid.
    eexists _, _. split; [|reflexivity].
    unfold _initMultiPageDocument, isBundled in Hb.
    destruct (dirmIsBundled (decodeDirm dec arraybuffer)) eqn:Hd; [|done].
    unfold _parseComponents in Hb. rewrite parseComponents_dirm in Hb. simpl in Hb.
    congruence.
  - destruct (_ =? _)%string; [|done]. intros [= <-]. done.
Qed.

Lemma construct_accounted env dec arraybuffer base limit d :
  construct env dec arraybuffer base limit = Ok d → isBundled d = false → accounted d.
Proof.
  intros Hc Hb. destruct (construct_indirect _ _ _ _ _ _ Hc Hb) as (dm & nv & Hdm & ->).
  unfold _initMultiPageDocument. rewrite Hdm. split; simpl.
  - done.
  - rewrite pagesBytes_replicate, djviBytes_empty. do 2 f_equal. lia.
  - apply NoDup_nil_2.
  - intros i. split; [by intros ?%not_elem_of_nil|].
    intros [p Hp]. destruct (replicate _ _ !! i) as [o|] eqn:Hl; [|done].
    apply lookup_replicate in Hl as [-> _]. done.
  - done.
Qed.

Lemma getPage_accounted env number d r d' :
  distinctDependencies env d number →
  accounted d → getPage env number d = (Ok r, d') → accounted d'.
Proof.
  intros Hdeps Hacc. rewrite getPage_unfold. cbv zeta.
  set (d0 := match lastRequestedPage d with Some q => _ | None => d end).
  assert (H0 : ∃ t, d0 = set_trace d t).
  { subst d0. destruct (lastRequestedPage d); [destruct (negb _)|];
      [by eexists | exists (trace d); by destruct d ..]. }
  destruct H0 as [t H0]. clearbody d0. subst d0.
  set (d1 := set_lastRequestedPage _ _).
  assert (Hacc1 : accounted d1) by (destruct Hacc; by split).
  destruct (slot d number) as [p|] eqn:Hs.
  - destruct Hacc as [Hk _ _ _ _]. rewrite Hk. simpl (_ =? _)%string.
    rewrite andb_false_r. mstep. by intros [= _ <-].
  - destruct (_ || _) eqn:Hc; [done|].
    apply orb_false_iff in Hc as [Hc Hb]. apply orb_false_iff in Hc as [Hlo Hhi].
    apply Z.ltb_ge in Hlo, Hhi.
    unfold bind at 1.
    destruct (loadPage env number d1) as [[[]|e] d2] eqn:Hl; [|done].
    mstep. intros [= _ <-].
    eapply (loadPage_accounted env number d1); eauto.
Qed.

Lemma afterLoads_accounted d : afterLoads d → accounted d.
Proof.
  induction 1 as [env dec buf base limit d Hc Hb | s env number d r d' _ IH Hdeps Hg].
  - by eapply construct_accounted.
  - rewrite getPageWith_idle in Hg by (by destruct IH). by eapply getPage_accounted.
Qed.

(** C3 (amended). After every sequence of successful page loads on an
    indirect document (each loaded page listing an identifier at most once),
    the resident-byte counter is the byte length of the buffer the document
    was constructed from plus the exact sum of the byte lengths of the
    loaded pages and of the resident shared resources; and every run of the
    governor with resident preserved identifiers ends with the counter within
    the budget or with no page loaded and every resident resource
    preserved. *)
Theorem resident_accounting :
  (∀ d, afterLoads d →
        memoryUsage d
        = Some (bufferLength d + pagesBytes (pages d) + djviBytes (djvi d)))
  ∧ (∀ pres d m,
       memoryUsage d = Some m →
       NoDup (loadedPageNumbers d) →
       (∀ i, i ∈ loadedPageNumbers d ↔ is_Some (mjoin (pages d !! i))) →
       (∀ id, id ∈ default [] pres → is_Some (djvi d !! id)) →
       ∃ d' m',
         releaseMemoryIfRequired pres d = (Ok tt, d')
         ∧ memoryUsage d' = Some m'
         ∧ (m' ≤ memoryLimit d'
            ∨ ((∀ i, mjoin (pages d' !! i) = None)
               ∧ ∀ id, is_Some (djvi d' !! id) → id ∈ default [] pres))).
Proof.
  split.
  { intros d Hd. by destruct (afterLoads_accounted d Hd). }
  intros pres d m Hm Hnd Hq Hpres.
  destruct (Z.le_gt_cases m (memoryLimit d)) as [Hle|Hgt].
  { exists d, m. rewrite (releaseMemoryIfRequired_within _ _ _ Hm Hle). auto. }
  destruct (releaseMemoryIfRequired_run pres d m Hm) as (k & Hk & _ & Hend & Hrun);
    [lia|done|by intros i ?%Hq|done|].
  cbv zeta in Hend, Hrun. rewrite Hrun.
  destruct (decide _) as [Hle|Hgt'].
  - eexists _, _. split; [reflexivity|]. split; [reflexivity|]. by left.
  - eexists _, _. split; [reflexivity|]. split; [reflexivity|]. right. simpl.
    destruct Hend as [?|Hend]; [done|]. rewrite Hend, firstn_all. split.
    + intros i. rewrite clearSlots_lookup. destruct (decide _) as [|Hn]; [done|].
      destruct (mjoin (pages d !! i)) eqn:Hl; [|done].
      exfalso. apply Hn, Hq. by rewrite Hl.
    + intros id [c Hc]. rewrite lookup_filter_in in Hc.
      by destruct (decide (id ∈ default [] pres)).
Qed.

(** ** What the constructor establishes *)

Lemma constructorBaseUrl_None resolve base :
  constructorBaseUrl resolve base = None ↔ base = None.
Proof.
  unfold constructorBaseUrl. destruct base as [b|]; [|done].
  destruct (trim b =? "")%string; done.
Qed.

(** A base location given as the empty string is kept, not turned into
    [null]: it does not count as absent in [getPage]. *)
Example constructorBaseUrl_empty resolve :
  constructorBaseUrl resolve (Some "  ") = Some "".
Proof. reflexivity. Qed.

Lemma parseComponent_parsed env d e :
  parsed d (parseComponent env d e)
  ∧ (length (pages (parseComponent env d e)) ≤ S (length (pages d)))%nat.
Proof.
  unfold parseComponent.
  repeat (match goal with |- context [if ?c then _ else _] => destruct c end);
    (split; [split; simpl; auto; try (by eexists); by exists []; rewrite app_nil_r|]);
    simpl; rewrite ?length_app; simpl; lia.
Qed.

Lemma parseComponents_parsed env es d :
  parsed d (foldl (parseComponent env) d es)
  ∧ (length (pages (foldl (parseComponent env) d es)) ≤ length (pages d) + length es)%nat.
Proof.
  revert d. induction es as [|e es IH]; intros d; simpl.
  { split; [split; auto; exists []; by rewrite app_nil_r | lia]. }
  destruct (parseComponent_parsed env d e) as [[f1 m1 b1 [x1 p1]] l1].
  destruct (IH (parseComponent env d e)) as [[f2 m2 b2 [x2 p2]] l2].
  split; [split; try congruence|lia].
  exists (x1 ++ x2). by rewrite p2, p1, app_assoc.
Qed.

(** The documents the constructor returns: only a document without
    directory has the form FORMDJVU, such a document holds its one page, a
    document with directory has no more page slots than directory entries,
    and the base location is the normalised one. *)
Lemma construct_wf env dec arraybuffer base limit d :
  construct env dec arraybuffer base limit = Ok d →
  (formId d = "FORMDJVU" → dirm d = None)
  ∧ (dirm d = None → ∃ p, pages d = [Some p])
  ∧ (∀ dm, dirm d = Some dm → (length (pages d) ≤ length (entries dm))%nat)
  ∧ baseUrl d = constructorBaseUrl (resolveUrl dec) base.
Proof.
  unfold construct. destruct (negb _); [done|].
  destruct (String.eqb_spec (readStr4 4 arraybuffer +:+ readStr4 12 arraybuffer) "FORMDJVM")
    as [Hid|Hid].
  - destruct (negb _); [done|]. intros [= <-]. rewrite Hid.
    unfold _initMultiPageDocument.
    destruct (dirmIsBundled (decodeDirm dec arraybuffer)).
    + unfold _parseComponents.
      match goal with |- context [foldl _ ?d0 ?es] =>
        destruct (parseComponents_parsed env es d0) as [[f m b _] l] end.
      rewrite f, m, b. simpl in *. split_and!; try done.
      intros dm [= <-]. lia.
    + simpl. split_and!; try done. intros dm [= <-].
      rewrite length_replicate. unfold dirmPagesQuantity, pageEntries.
      apply length_filter.
  - destruct (String.eqb_spec (readStr4 4 arraybuffer +:+ readStr4 12 arraybuffer) "FORMDJVU")
      as [Hid'|]; [|done].
    intros [= <-]. simpl. split_and!; try done. eauto.
Qed.

(** The page slots of a constructed indirect document are as many as the
    pages of its directory. *)
Lemma construct_indirect_slots env dec arraybuffer base limit d :
  construct env dec arraybuffer base limit = Ok d → isBundled d = false →
  length (pages d) = getPagesQuantity d ∧ ∀ i, mjoin (pages d !! i) = None.
Proof.
  intros Hc Hb. destruct (construct_indirect _ _ _ _ _ _ Hc Hb) as (dm & nv & Hdm & ->).
  unfold _initMultiPageDocument, getPagesQuantity. rewrite Hdm. simpl.
  split; [by rewrite length_replicate|].
  intros i. destruct (replicate _ _ !! i) as [o|] eqn:Hl; [|done].
  by apply lookup_replicate in Hl as [-> _].
Qed.

(** ** A dependency batch with a failing fetch *)

(** *** Callbacks landing *)

Lemma land_run i d :
  land i d
  = (Ok tt,
     match inFlight d !! i with
     | Some cb =>
         set_inFlight
           (set_memoryUsage (set_djvi d (landedDjvi [cb] (djvi d)))
                            (counted (memoryUsage d) (landedSizes [cb])))
           (delete i (inFlight d))
     | None => d
     end).
Proof.
  unfold land. destruct (inFlight d !! i) as [cb|]; [|done].
  unfold landedDjvi, landedSizes, installDependency, addMemory. simpl. mraw.
  destruct (cb_result cb) as [b|e]; simpl; [done|]. by destruct d.
Qed.

Lemma landedDjvi_app l1 l2 (m : gmap string DjViChunk) :
  landedDjvi (l1 ++ l2) m = landedDjvi l2 (landedDjvi l1 m).
Proof. unfold landedDjvi. by rewrite foldl_app. Qed.

Lemma landedSizes_app l1 l2 : landedSizes (l1 ++ l2) = landedSizes l1 ++ landedSizes l2.
Proof. unfold landedSizes. by rewrite omap_app. Qed.

Lemma counted_app c l1 l2 : counted c (l1 ++ l2) = counted (counted c l1) l2.
Proof. unfold counted. by rewrite foldl_app. Qed.

(** Any number of landings: the callbacks [landed] have run, in this order,
    and the others are still in flight. *)
Lemma landAll_run indices d :
  ∃ landed rest,
    landed ++ rest ≡ₚ inFlight d
    ∧ landAll indices d
      = (Ok tt,
         set_inFlight
           (set_memoryUsage (set_djvi d (landedDjvi landed (djvi d)))
                            (counted (memoryUsage d) (landedSizes landed)))
           rest).
Proof.
  revert d. induction indices as [|i l IH]; intros d.
  { exists [], (inFlight d). split; [done|]. simpl. unfold ret. by destruct d. }
  simpl. unfold bind. rewrite land_run.
  destruct (inFlight d !! i) as [cb|] eqn:Hi.
  - match goal with |- context [landAll l ?d1] => destruct (IH d1) as (landed & rest & Hp & ->) end.
    exists (cb :: landed), rest. split.
    + simpl in Hp. rewrite <- app_comm_cons, Hp. symmetry. by apply delete_Permutation.
    + f_equal. change (cb :: landed) with ([cb] ++ landed).
      by rewrite landedDjvi_app, landedSizes_app, counted_app.
  - destruct (IH d) as (landed & rest & Hp & ->). by exists landed, rest.
Qed.







Lemma installDjvi_other env pn d ids (m : gmap string DjViChunk) x :
  x ∉ ids → installDjvi env pn d ids m !! x = m !! x.
Proof.
  revert m. induction ids as [|id ids IH]; intros m Hx; [done|].
  unfold installDjvi in *. simpl foldl.
  rewrite IH by (intros ?; apply Hx; by right).
  destruct (fetchComponent _ _ _ _); [|done].
  rewrite lookup_insert_ne; [done|]. intros ->. apply Hx. by left.
Qed.


(** ** concat: fresh identifiers *)

Lemma size_bound (X : gset (option string)) (l : list (option string)) :
  NoDup l → (∀ x, x ∈ l → x ∈ X) → (length l ≤ size X)%nat.
Proof.
  intros Hnd Hin. unfold size, set_size. simpl.
  apply submseteq_length, NoDup_submseteq; [done|].
  intros x Hx. apply elem_of_elements. by apply Hin.
Qed.

Lemma candidate_inj base : Inj (=) (=) (candidate base).
Proof.
  intros i j [= H]. apply (inj (String.append _)) in H. by apply (inj pretty) in H.
Qed.

Lemma uniqueIdLoop_spec fuel idset base newid tmp :
  (∀ j, (S j < tmp)%nat → candidate base j ∈ idset) →
  (tmp ≠ 0%nat → base ∈ idset) →
  newid = (match tmp with O => base | S j => candidate base j end) →
  (S (size idset) < fuel + tmp)%nat →
  ∃ r, uniqueIdLoop fuel idset base newid tmp = Ok r
       ∧ renamed (λ x, x ∈ idset) base r.
Proof.
  revert newid tmp. induction fuel as [|fuel IH]; intros newid tmp Htried Hbase Hnew Hfuel.
  { exfalso.
    assert (Hb : (length (candidate base <$> seq 0 (tmp - 1)) ≤ size idset)%nat).
    { apply size_bound.
      - apply NoDup_fmap_2; [apply candidate_inj | apply NoDup_seq].
      - intros x (j & -> & Hj)%list_elem_of_fmap. apply Htried.
        apply elem_of_seq in Hj. lia. }
    rewrite length_fmap, length_seq in Hb. lia. }
  simpl. destruct (bool_decide (newid ∈ idset)) eqn:Hd.
  - apply bool_decide_eq_true in Hd. apply IH; [| |done|lia].
    + intros j Hj. destruct (decide (S j = tmp)) as [<-|Hne].
      * by rewrite <- Hnew.
      * apply Htried. lia.
    + intros _. destruct tmp; [by rewrite <- Hnew|by apply Hbase].
  - apply bool_decide_eq_false in Hd. exists newid. split; [done|]. split; [done|].
    subst newid. destruct tmp as [|j]; [by left|right].
    split; [by apply Hbase|]. exists j. split; [done|].
    intros j' Hj'. apply Htried. lia.
Qed.

Lemma uniqueId_spec idset base :
  ∃ r, uniqueId idset base = Ok r ∧ renamed (λ x, x ∈ idset) base r.
Proof. apply uniqueIdLoop_spec; [lia|done|done|lia]. Qed.

Lemma renamed_iff (used used' : option string → Prop) base newid :
  (∀ x, used x ↔ used' x) → renamed used base newid → renamed used' base newid.
Proof.
  intros H [Hfree Hform]. split; [by rewrite <- H|].
  destruct Hform as [->|(Hb & n & -> & Hj)]; [by left|right].
  split; [by apply H|]. exists n. split; [done|]. intros j ?. by apply H, Hj.
Qed.

Lemma lookups_nodup {A} (l : list A) n :
  (n ≤ length l)%nat → NoDup l → NoDup ((λ i, l !! i) <$> seq 0 n).
Proof.
  intros Hn Hnd. apply NoDup_fmap_2_strong; [|apply NoDup_seq].
  intros i j Hi Hj Heq. apply elem_of_seq in Hi, Hj.
  destruct (lookup_lt_is_Some_2 l i) as [x Hx]; [lia|].
  rewrite Hx in Heq. symmetry in Heq.
  by eapply NoDup_lookup.
Qed.

Lemma concatFirst_fold dm (ps : list (option DjVuPage)) n :
  let st := foldl (λ st i,
                     let id := e_id <$> entries dm !! i in
                     csAdd (csPush st (e_flags <$> entries dm !! i)
                                   (e_size <$> entries dm !! i) id (mjoin (ps !! i))) id)
                  csEmpty (seq 0 n) in
  cs_ids st = (λ i, e_id <$> entries dm !! i) <$> seq 0 n
  ∧ (∀ x, x ∈ cs_idset st ↔ x ∈ cs_ids st)
  ∧ cs_pages st = (λ i, mjoin (ps !! i)) <$> seq 0 n.
Proof.
  induction n as [|n IH]; cbv zeta.
  { simpl. split_and!; [done| |done]. intros x. set_solver. }
  rewrite seq_S, foldl_app. cbv zeta in IH. destruct IH as (Hids & Hset & Hps).
  simpl foldl. simpl cs_ids. simpl cs_pages. simpl cs_idset.
  rewrite Hids, Hps, !fmap_app. simpl. split_and!; [done| |done].
  intros x. rewrite elem_of_union, elem_of_singleton, elem_of_app, list_elem_of_singleton.
  rewrite Hset, Hids. done.
Qed.

Lemma concatSecondLoop_spec dm pages2 indices st :
  csInv st →
  ∃ st' news,
    concatSecondLoop dm pages2 indices st = Ok st'
    ∧ csInv st'
    ∧ cs_ids st' = cs_ids st ++ news
    ∧ length news = length indices
    ∧ (∀ i k newid,
         indices !! i = Some k → news !! i = Some newid →
         renamed (λ x, x ∈ cs_ids st ++ take i news) (e_id <$> entries dm !! k) newid)
    ∧ cs_pages st' = cs_pages st ++ ((λ i, mjoin (pages2 !! i)) <$> indices).
Proof.
  revert st. induction indices as [|k indices IH]; intros st Hinv.
  { exists st, []. simpl. rewrite !app_nil_r. split_and!; done. }
  simpl concatSecondLoop.
  destruct (uniqueId_spec (cs_idset st) (e_id <$> entries dm !! k))
    as (newid & -> & Hren).
  set (st1 := csAdd _ _).
  assert (Hinv1 : csInv st1).
  { destruct Hinv as [Hnd Hset Hlen]. split; simpl.
    - apply NoDup_app. split_and!; [done| |apply NoDup_singleton].
      intros x Hx ->%list_elem_of_singleton. destruct Hren as [Hfresh _].
      by apply Hfresh, Hset.
    - intros x.
      rewrite elem_of_union, elem_of_singleton, elem_of_app, list_elem_of_singleton, Hset.
      done.
    - rewrite !length_app, Hlen. done. }
  destruct (IH st1 Hinv1) as (st' & news & Hrun & Hinv' & Hids & Hlen & Hrens & Hps).
  exists st', (newid :: news). split_and!; [done|done| | | |].
  - rewrite Hids. simpl. by rewrite <- app_assoc.
  - simpl. by rewrite Hlen.
  - intros [|i] k' newid' Hk Hn; simpl in Hk, Hn.
    + injection Hk as <-. injection Hn as <-. simpl. rewrite app_nil_r.
      eapply renamed_iff; [|exact Hren]. apply Hinv.
    + specialize (Hrens i k' newid' Hk Hn). simpl in Hrens.
      rewrite <- app_assoc in Hrens. exact Hrens.
  - rewrite Hps. simpl. by rewrite <- app_assoc.
Qed.

Lemma writePages_all (ps : list (option DjVuPage)) indices :
  (∀ i, i ∈ indices → is_Some (mjoin (ps !! i))) →
  ∃ written, writePages ps indices = Ok written.
Proof.
  induction indices as [|i indices IH]; intros Hall; simpl; [eauto|].
  destruct (Hall i) as [p ->]; [by left|].
  destruct IH as [w ->]; [intros; apply Hall; by right|]. eauto.
Qed.

Lemma concatFirst_spec doc1 :
  (∀ dm, dirm doc1 = Some dm →
         NoDup (e_id <$> entries dm) ∧ (length (pages doc1) ≤ length (entries dm))%nat) →
  (dirm doc1 = None → ∃ p, pages doc1 = [Some p]) →
  ∃ st, concatFirst doc1 = Ok st ∧ csInv st ∧ cs_ids st = firstIds doc1
        ∧ length (cs_ids st) = length (pages doc1)
        ∧ ∀ o, o ∈ cs_pages st → o ∈ (mjoin ∘ Some <$> pages doc1).
Proof.
  intros Hdir Hsingle. unfold concatFirst, firstIds.
  destruct (dirm doc1) as [dm|] eqn:Hdm.
  - destruct (Hdir dm eq_refl) as [Hnd Hlen].
    pose proof (concatFirst_fold dm (pages doc1) (length (pages doc1))) as H.
    cbv zeta in H. destruct H as (Hids & Hset & Hps).
    eexists. split; [reflexivity|]. split_and!.
    + split; [|done|].
      * rewrite Hids.
        replace ((λ i, e_id <$> entries dm !! i) <$> seq 0 (length (pages doc1)))
          with ((λ i, (e_id <$> entries dm) !! i) <$> seq 0 (length (pages doc1))).
        { apply lookups_nodup; [by rewrite length_fmap|done]. }
        apply list_fmap_ext. intros i x _. by rewrite list_lookup_fmap.
      * by rewrite Hps, Hids, !length_fmap.
    + done.
    + by rewrite Hids, length_fmap, length_seq.
    + intros o Ho. rewrite Hps in Ho.
      apply list_elem_of_fmap in Ho as (i & -> & Hi). apply elem_of_seq in Hi.
      destruct (lookup_lt_is_Some_2 (pages doc1) i) as [x Hx]; [lia|].
      rewrite Hx. simpl. apply list_elem_of_fmap. exists x. split; [done|].
      by eapply list_elem_of_lookup_2.
  - destruct (Hsingle eq_refl) as [p Hp]. rewrite Hp. simpl.
    eexists. split; [reflexivity|]. split_and!; simpl; try done.
    split; simpl; [apply NoDup_singleton| |done]. intros x.
    rewrite elem_of_union, elem_of_singleton, list_elem_of_singleton.
    split; [intros [H|H]; [by apply not_elem_of_empty in H|done] | by right].
Qed.

(** C4. [concat(A, B)] builds a directory in which no two entries share an
    identifier: the identifiers of A come first, each identifier of B
    follows, as it is when it is not among those before it and otherwise
    with the first of the counters 0, 1, 2, ... appended that makes it
    differ from all of them, and the flag word 129 of the directory marks
    the container as bundled.  A's identifiers
    are taken pairwise distinct (B's need not be), its page slots no more
    than its directory entries, and a document without directory holds its
    one page, as the constructor leaves them; when every page slot of both
    documents holds a page, [concat] hands this directory to the Writer. *)
Theorem concat_unique_ids doc1 doc2 :
  (∀ dm, dirm doc1 = Some dm →
         NoDup (e_id <$> entries dm) ∧ (length (pages doc1) ≤ length (entries dm))%nat) →
  (dirm doc1 = None → ∃ p, pages doc1 = [Some p]) →
  (dirm doc2 = None → ∃ p, pages doc2 = [Some p]) →
  ∃ dd ps second,
    concatDirm doc1 doc2 = Ok (dd, ps)
    ∧ NoDup (dd_ids dd)
    ∧ dd_ids dd = firstIds doc1 ++ second
    ∧ length second = length (secondBases doc2)
    ∧ (∀ i base newid,
         secondBases doc2 !! i = Some base → second !! i = Some newid →
         renamed (λ x, x ∈ firstIds doc1 ++ take i second) base newid)
    ∧ dd_dflags dd = 129 ∧ dflagsBundled (dd_dflags dd) = true
    ∧ ((∀ o, o ∈ pages doc1 ++ pages doc2 → is_Some o) →
       ∃ written, concat doc1 doc2 = Ok (dd, written)).
Proof.
  intros Hdir Hs1 Hs2.
  destruct (concatFirst_spec doc1 Hdir Hs1) as (st1 & Hrun1 & Hinv1 & Hids1 & Hlen1 & Hps1).
  unfold concat, concatDirm. rewrite Hrun1. unfold concatSecond, secondBases.
  destruct (dirm doc2) as [dm2|] eqn:Hdm2.
  - destruct (concatSecondLoop_spec dm2 (pages doc2) (seq 0 (length (pages doc2))) st1 Hinv1)
      as (st & news & -> & Hinv & Hids & Hlenn & Hren & Hps).
    eexists _, _, news. split; [reflexivity|]. simpl.
    destruct Hinv as [Hnd _ Hlen].
    split_and!; [done|by rewrite Hids, Hids1|by rewrite Hlenn, length_fmap|
                 |done|done|].
    + intros i base newid Hb Hn. rewrite list_lookup_fmap in Hb.
      destruct (seq 0 (length (pages doc2)) !! i) as [k|] eqn:Hk; [|done].
      injection Hb as <-. rewrite <- Hids1. by eapply Hren.
    + intros Hall. destruct (writePages_all (cs_pages st)
        (seq 0 (length (pages doc1) + length (pages doc2)))) as [w ->]; [|eauto].
      intros i Hi%elem_of_seq.
      assert (Hl : length (cs_pages st) = (length (pages doc1) + length (pages doc2))%nat).
      { rewrite Hlen, Hids, length_app, Hlen1, Hlenn, length_seq. done. }
      destruct (lookup_lt_is_Some_2 (cs_pages st) i) as [o Ho]; [lia|].
      rewrite Ho. simpl.
      assert (Hin : o ∈ cs_pages st) by (by eapply list_elem_of_lookup_2).
      rewrite Hps in Hin. apply elem_of_app in Hin as [Hin|Hin].
      * apply Hps1 in Hin. apply list_elem_of_fmap in Hin as (x & -> & Hx). simpl.
        apply Hall. apply elem_of_app. by left.
      * apply list_elem_of_fmap in Hin as (j & -> & Hj). apply elem_of_seq in Hj.
        destruct (lookup_lt_is_Some_2 (pages doc2) j) as [x Hx]; [lia|].
        rewrite Hx. simpl. apply Hall. apply elem_of_app. right.
        by eapply list_elem_of_lookup_2.
  - destruct (Hs2 eq_refl) as [p Hp]. rewrite Hp. simpl.
    destruct (uniqueId_spec (cs_idset st1) (Some "single2")) as (newid & -> & Hren).
    eexists _, _, [newid]. split; [reflexivity|]. simpl.
    destruct Hinv1 as [Hnd Hset Hlen].
    split_and!; [|by rewrite Hids1|done| |done|done|].
    + apply NoDup_app. split_and!; [done| |apply NoDup_singleton].
      intros x Hx ->%list_elem_of_singleton. destruct Hren as [Hfresh _].
      by apply Hfresh, Hset.
    + intros [|i] base newid' Hb Hn; simpl in Hb, Hn; [|done].
      injection Hb as <-. injection Hn as <-. simpl. rewrite app_nil_r, <- Hids1.
      eapply renamed_iff; [|exact Hren]. exact Hset.
    + intros Hall. destruct (writePages_all (cs_pages st1 ++ [Some p])
        (seq 0 (length (pages doc1) + 1))) as [w ->]; [|eauto].
      intros i Hi%elem_of_seq.
      destruct (lookup_lt_is_Some_2 (cs_pages st1 ++ [Some p]) i) as [o Ho].
      { rewrite length_app, Hlen, Hlen1. simpl. lia. }
      rewrite Ho. simpl.
      assert (Hin : o ∈ cs_pages st1 ++ [Some p]) by (by eapply list_elem_of_lookup_2).
      apply elem_of_app in Hin as [Hin|Hin].
      * apply Hps1 in Hin. apply list_elem_of_fmap in Hin as (x & -> & Hx). simpl.
        apply Hall. apply elem_of_app. by left.
      * apply list_elem_of_singleton in Hin as ->. done.
Qed.

(** C9. When [getPage(n)] has returned a page, calling it again right away
    returns the very same page object and changes nothing: no request is
    issued and no page is reset (the trace of the document is the same).
    The document is taken as the constructor leaves it: only a document
    without directory has the form FORMDJVU. *)
Theorem getPage_twice env env' number d r d1 :
  (formId d = "FORMDJVU" → dirm d = None) →
  getPage env number d = (Ok r, d1) →
  (∃ p, r = Some p ∧ slot d1 number = Some p)
  ∧ getPage env' number d1 = (Ok r, d1).
Proof.
  intros Hwf Hrun.
  destruct (getPage_run _ _ _ _ _ Hrun) as (Hheld & _ & Hv & [p Hp] & Hone & Hform & Hdm).
  rewrite Hp in Hv |- *. symmetry in Hv. split; [by exists p|].
  apply getPage_resident; [done|congruence|].
  destruct (decide (formId d1 = "FORMDJVU")) as [Hf|Hf]; [left|by right].
  apply Hone; [done|]. apply Hwf. congruence.
Qed.

(** C10. Every call of [getPage(n)] starts by resetting the page held so far
    unless it is the very page of the requested slot, and ends with the held
    page being what the requested slot holds; when the call fails with
    NoSuchPage or NoBaseUrl, the slot was empty, so the pointer to the held
    page is left empty, the release of the previous page is the only event,
    and slots, resources and counter are as before. *)
Theorem getPage_releases_previous env number d r d' :
  getPage env number d = (r, d') →
  (∀ q, lastRequestedPage d = Some q → sameRef (Some q) (slot d number) = false →
        ∃ rest, trace d' = trace d ++ EvReset (pg_ref q) :: rest)
  ∧ lastRequestedPage d' = slot d' number
  ∧ (r = Throw NoBaseUrlDjVuError ∨ (∃ k, r = Throw (NoSuchPageDjVuError k)) →
     lastRequestedPage d' = slot d number
     ∧ lastRequestedPage d' = None
     ∧ trace d' = trace d ++ match lastRequestedPage d with
                             | Some q => if sameRef (Some q) (slot d number) then []
                                         else [EvReset (pg_ref q)]
                             | None => []
                             end
     ∧ pages d' = pages d ∧ djvi d' = djvi d ∧ memoryUsage d' = memoryUsage d).
Proof.
  intros Hrun. destruct (getPage_run _ _ _ _ _ Hrun) as (Hheld & [rest Htr] & Hr).
  split_and!.
  - intros q Hq Hne. rewrite Hq, Hne in Htr. exists rest. by rewrite Htr.
  - done.
  - intros He. destruct r as [v|e].
    { destruct He as [He|[k He]]; discriminate. }
    destruct Hr as [Hl|(Hs & Hn & Hp & Hj & Hm & _ & Ht)].
    { destruct He as [[= ->]|[k [= ->]]]; destruct Hl. }
    rewrite Hs in Ht |- *. split_and!; done.
Qed.

(** ** Page reference resolution on a document with directory *)

Lemma getPageNumberByUrl_multipage roundNumber d (m : gmap string Z) url :
  idToPageNumberMap d = Some m → (∀ ref v, m !! ref = Some v → v ≠ 0) →
  getPageNumberByUrl roundNumber d url
  = Ok match url with
       | String "#" ref =>
           match m !! ref with
           | Some v => Some v
           | None =>
               match roundNumber ref with
               | Some num =>
                   if bool_decide (1 ≤ num ≤ Z.of_nat (length (pages d)))
                   then Some num else None
               | None => None
               end
           end
       | _ => None
       end.
Proof.
  intros Hm Hnz. unfold getPageNumberByUrl.
  destruct url as [|c ref]; [done|].
  destruct (Ascii.eqb_spec c "#") as [->|Hc].
  2:{ destruct c as [[] [] [] [] [] [] [] []]; try done. }
  rewrite Hm. f_equal.
  destruct (m !! ref) as [v|] eqn:Hv; simpl.
  - apply Hnz in Hv. destruct (Z.eqb_spec v 0); [done|]. simpl.
    destruct (Z.eqb_spec v 0); done.
  - destruct (roundNumber ref) as [num|]; [|done].
    destruct (Z.leb_spec 1 num), (Z.leb_spec num (Z.of_nat (length (pages d)))); simpl.
    + rewrite bool_decide_eq_true_2 by lia. destruct (Z.eqb_spec num 0); [lia|done].
    + rewrite bool_decide_eq_false_2 by lia. done.
    + rewrite bool_decide_eq_false_2 by lia. done.
    + rewrite bool_decide_eq_false_2 by lia. done.
Qed.

(** C8 (the code at the failing input). On a single-page document the
    identifier-to-page map was never created, so the lookup of "#1", which
    names the one page, throws a TypeError instead of yielding 1. *)
Theorem getPageNumberByUrl_single_page :
  dirm singlePageDoc = None
  ∧ length (pages singlePageDoc) = 1%nat
  ∧ idToPageNumberMap singlePageDoc = None
  ∧ getPageNumberByUrl roundDecimal singlePageDoc "#1" = Throw TypeError
  ∧ getPageNumberByUrl roundDecimal leadingDoc "#1" = Ok (Some 1).
Proof. split_and!; by vm_compute. Qed.

(** ** slice *)

(** Once the last page in range was seen, no further entry is copied. *)
Lemma slicePass2_stop from pageNumber dependencies es pageIndex addedPageCount :
  pageNumber ≤ addedPageCount →
  slicePass2 from pageNumber dependencies es pageIndex addedPageCount = [].
Proof.
  intros H. destruct es as [|e es]; [done|]. simpl.
  destruct (Z.ltb_spec addedPageCount pageNumber); [lia|done].
Qed.

(** C2 (the code at the failing input). The one page of [trailingDoc]
    includes the resource "dict", which the directory lists after the page;
    [slice(1, 1)] copies the page and stops, so the re-parsed document has
    the same page count but its page depends on an identifier that is not
    among its shared resources.  With the resource listed before the page
    ([leadingDoc]) it is copied. *)
Theorem slice_drops_trailing_dependency :
  ∃ d' p,
    sliceAll sampleEnv sampleWriter trailingDoc = Ok d'
    ∧ length (pages d') = length (pages trailingDoc)
    ∧ pages d' = [Some p] ∧ pg_deps p = ["dict"]
    ∧ is_Some (djvi trailingDoc !! "dict")
    ∧ djvi d' !! "dict" = None
    ∧ e_id <$> entries (sliceDirm sampleEnv trailingDirm 1 1) = ["p1"]
    ∧ e_id <$> entries (sliceDirm sampleEnv leadingDirm 1 1) = ["dict"; "p1"].
Proof.
  eexists _, _. split; [vm_compute; reflexivity|].
  split_and!; try (by vm_compute). vm_compute. eauto.
Qed.

(** ** The claims on the sample documents *)

Ltac by_decide := apply (bool_decide_unpack _); vm_compute; exact I.

Lemma run_pair {A} (m : M A) d r : (m d).1 = r → m d = (r, (m d).2).
Proof. destruct (m d); simpl; congruence. Qed.

Ltac by_run :=
  match goal with |- ?m ?d = (_, _) => apply (run_pair m d) end; vm_compute; reflexivity.

Lemma construct_indirectDoc limit :
  construct sampleEnv sampleDecoders indirectHeader (Some "http://host") limit
  = Ok (indirectDoc limit).
Proof. reflexivity. Qed.

Lemma getPage_NoSuchPage_witness :
  (0 < 1 ∨ Z.of_nat (length (pages (indirectDoc 1000))) < 0
   ∨ (isBundled (indirectDoc 1000) = true ∧ slot (indirectDoc 1000) 0 = None))
  ∧ (getPage sampleEnv 0 (indirectDoc 1000)).1 = Throw (NoSuchPageDjVuError 0)
  ∧ (getPage sampleEnv 2 trailingDoc).1 = Throw (NoSuchPageDjVuError 2).
Proof.
  split_and!.
  - left. lia.
  - apply getPage_NoSuchPage. left. lia.
  - apply getPage_NoSuchPage. right. right. split; vm_compute; reflexivity.
Defined.

Lemma getPage_NoBaseUrl_witness :
  isBundled indirectDocNoBase = false ∧ baseUrl indirectDocNoBase = None
  ∧ 1 ≤ 2 ≤ Z.of_nat (length (pages indirectDocNoBase))
  ∧ slot indirectDocNoBase 2 = None
  ∧ ∃ d', getPage sampleEnv 2 indirectDocNoBase = (Throw NoBaseUrlDjVuError, d')
          ∧ slot d' 2 = None ∧ pages d' = pages indirectDocNoBase
          ∧ memoryUsage d' = memoryUsage indirectDocNoBase.
Proof.
  split_and!;
    [by vm_compute|by vm_compute|by vm_compute|by vm_compute|by vm_compute|].
  apply getPage_NoBaseUrl;
    [by vm_compute|by vm_compute|split; by vm_compute|by vm_compute].
Defined.

Lemma getPage_twice_witness :
  (formId (indirectDoc 1000) = "FORMDJVU" → dirm (indirectDoc 1000) = None)
  ∧ ∃ r d1, getPage sampleEnv 2 (indirectDoc 1000) = (Ok r, d1)
            ∧ (∃ p, r = Some p ∧ slot d1 2 = Some p)
            ∧ getPage failingEnv 2 d1 = (Ok r, d1).
Proof.
  assert (Hwf : formId (indirectDoc 1000) = "FORMDJVU" → dirm (indirectDoc 1000) = None).
  { intros H. vm_compute in H. discriminate. }
  split; [exact Hwf|].
  assert (Hrun : getPage sampleEnv 2 (indirectDoc 1000)
                 = (Ok (Some {| pg_ref := 0; pg_buffer := 21; pg_length := 17;
                                pg_deps := ["a"] |}),
                    (getPage sampleEnv 2 (indirectDoc 1000)).2)).
  { by_run. }
  eexists _, _. split; [exact Hrun|].
  exact (getPage_twice _ _ _ _ _ _ Hwf Hrun).
Defined.

Lemma getPage_releases_previous_witness :
  ∃ d', getPage sampleEnv 5 (loadedOnce 1000) = (Throw (NoSuchPageDjVuError 5), d')
        ∧ trace d' = trace (loadedOnce 1000) ++ [EvReset 0]
        ∧ lastRequestedPage d' = None.
Proof.
  assert (Hrun : getPage sampleEnv 5 (loadedOnce 1000)
                 = (Throw (NoSuchPageDjVuError 5),
                    (getPage sampleEnv 5 (loadedOnce 1000)).2)).
  { by_run. }
  eexists. split; [exact Hrun|].
  destruct (getPage_releases_previous _ _ _ _ _ Hrun) as (_ & _ & H).
  destruct H as (_ & Hn & Ht & _); [right; by eexists|].
  split; [|exact Hn]. rewrite Ht. f_equal.
Defined.

Lemma releaseMemoryIfRequired_policy_witness :
  memoryUsage overBudgetDoc = Some 125 ∧ memoryLimit overBudgetDoc < 125
  ∧ ∃ k d', releaseMemoryIfRequired (Some ["a"]) overBudgetDoc = (Ok tt, d')
            ∧ loadedPageNumbers d' = drop k (loadedPageNumbers overBudgetDoc).
Proof.
  split; [by vm_compute|]. split; [by vm_compute|].
  destruct (releaseMemoryIfRequired_policy (Some ["a"]) overBudgetDoc 125)
    as (k & d' & Hrun & _ & _ & _ & Hq & _).
  - by vm_compute.
  - by vm_compute.
  - by_decide.
  - apply Forall_forall. by_decide.
  - by_decide.
  - apply Forall_forall. by_decide.
  - exists k, d'. split; [exact Hrun|exact Hq].
Defined.

(** C5 as stated fails when the preserve list repeats an identifier or
    names one that is not resident.  Over budget (125 > 70) with the list
    ["a"; "a"], the 20 bytes of "a" are added once per occurrence and
    subtracted once: both pages are evicted, only "a" stays resident and the
    counter ends at 64 with 44 bytes resident.  With ["a"; "z"], "z" not
    resident, the method throws a TypeError after the evictions and the
    addition for "a" (counter 99), the resource map left as it was.
    [getPage] passes the dependency list of the page unfiltered: loading a
    page file that lists "a" twice, with a budget of 30, runs the governor
    with ["a"; "a"] and leaves the counter at 107 with 67 bytes resident. *)
Lemma releaseMemoryIfRequired_policy_counterexample :
  memoryUsage overBudgetDoc = Some 125 ∧ memoryLimit overBudgetDoc = 70
  ∧ NoDup (loadedPageNumbers overBudgetDoc)
  ∧ (∀ i, i ∈ loadedPageNumbers overBudgetDoc → is_Some (mjoin (pages overBudgetDoc !! i)))
  ∧ (∃ d', releaseMemoryIfRequired (Some ["a"; "a"]) overBudgetDoc = (Ok tt, d')
           ∧ pages d' = [None; None] ∧ loadedPageNumbers d' = []
           ∧ map_to_list (djvi d') = [("a", {| dv_buffer := 20 |})]
           ∧ memoryUsage d' = Some 64
           ∧ bufferLength d' + pagesBytes (pages d') + djviBytes (djvi d') = 44)
  ∧ (∃ d', releaseMemoryIfRequired (Some ["a"; "z"]) overBudgetDoc = (Throw TypeError, d')
           ∧ pages d' = [None; None] ∧ memoryUsage d' = Some 99
           ∧ djvi d' = djvi overBudgetDoc)
  ∧ ∃ d', getPage duplicateEnv 2 (indirectDoc 30)
          = (Ok (Some {| pg_ref := 0; pg_buffer := 23; pg_length := 19;
                         pg_deps := ["a"; "a"] |}), d')
          ∧ memoryLimit d' = 30 ∧ memoryUsage d' = Some 107
          ∧ bufferLength d' + pagesBytes (pages d') + djviBytes (djvi d') = 67.
Proof.
  split; [by vm_compute|]. split; [by vm_compute|]. split; [by_decide|].
  split; [apply Forall_forall; by_decide|].
  split; [|split].
  - eexists. split; [by_run|]. split_and!; by vm_compute.
  - eexists. split; [by_run|]. split_and!; by vm_compute.
  - eexists. split; [by_run|]. split_and!; by vm_compute.
Qed.

Example releaseMemoryIfRequired_overBudget :
  let d' := (releaseMemoryIfRequired (Some ["a"]) overBudgetDoc).2 in
  memoryUsage d' = Some 44 ∧ pages d' = [None; None] ∧ loadedPageNumbers d' = []
  ∧ elements (dom (djvi d')) = ["a"] ∧ lastRequestedPage d' = None.
Proof. cbv zeta. split_and!; by vm_compute. Qed.

Lemma afterLoads_loadedOnce : afterLoads (loadedOnce 1000).
Proof.
  eapply (al_getPage quiet sampleEnv 2 (indirectDoc 1000)).
  - eapply al_construct; [apply (construct_indirectDoc 1000)|by vm_compute].
  - intros b Hb. vm_compute in Hb. injection Hb as <-. by_decide.
  - unfold loadedOnce, afterCall. by_run.
Qed.

Lemma resident_accounting_witness :
  memoryUsage (loadedOnce 1000)
  = Some (bufferLength (loadedOnce 1000) + pagesBytes (pages (loadedOnce 1000))
          + djviBytes (djvi (loadedOnce 1000))).
Proof. apply resident_accounting, afterLoads_loadedOnce. Defined.

(** C3 as stated fails: after one successful load the counter (65) is not
    the sum of the loaded page (21) and the resident resource (20); the 24
    bytes of the buffer the document was constructed from are counted too. *)
Lemma resident_accounting_counterexample :
  afterLoads (loadedOnce 1000)
  ∧ memoryUsage (loadedOnce 1000) = Some 65
  ∧ pagesBytes (pages (loadedOnce 1000)) + djviBytes (djvi (loadedOnce 1000)) = 41
  ∧ memoryUsage (loadedOnce 1000)
    ≠ Some (pagesBytes (pages (loadedOnce 1000)) + djviBytes (djvi (loadedOnce 1000))).
Proof.
  split; [apply afterLoads_loadedOnce|]. split; [by vm_compute|].
  split; [by vm_compute|]. by vm_compute.
Qed.

(** A page file that lists an identifier twice has it fetched and counted
    twice, though it is resident once: such loads are outside C3. *)
Example duplicate_dependency_counted_twice :
  (getPage duplicateEnv 2 (indirectDoc 1000)).1
  = Ok (Some {| pg_ref := 0; pg_buffer := 23; pg_length := 19; pg_deps := ["a"; "a"] |})
  ∧ memoryUsage (getPage duplicateEnv 2 (indirectDoc 1000)).2 = Some 87
  ∧ bufferLength (getPage duplicateEnv 2 (indirectDoc 1000)).2
    + pagesBytes (pages (getPage duplicateEnv 2 (indirectDoc 1000)).2)
    + djviBytes (djvi (getPage duplicateEnv 2 (indirectDoc 1000)).2) = 67.
Proof. split_and!; by vm_compute. Qed.



Lemma concat_unique_ids_witness :
  ∃ dd ps, concatDirm trailingDoc trailingDoc = Ok (dd, ps) ∧ NoDup (dd_ids dd)
           ∧ dflagsBundled (dd_dflags dd) = true.
Proof.
  destruct (concat_unique_ids trailingDoc trailingDoc)
    as (dd & ps & second & Hrun & Hnd & _ & _ & _ & _ & Hb & _).
  - intros dm H. vm_compute in H. injection H as <-. split; [by_decide|].
    vm_compute. lia.
  - intros H. vm_compute in H. discriminate.
  - intros H. vm_compute in H. discriminate.
  - exists dd, ps. split; [exact Hrun|]. split; [exact Hnd|exact Hb].
Defined.

Example concat_colliding_ids :
  (λ r, match r with Ok (dd, _) => dd_ids dd | Throw _ => [] end)
    (concatDirm trailingDoc trailingDoc) = [Some "p1"; Some "p10"]
  ∧ (λ r, match r with Ok (dd, _) => dd_ids dd | Throw _ => [] end)
      (concatDirm singlePageDoc singlePageDoc) = [Some "single"; Some "single2"].
Proof. split; by vm_compute. Qed.

(** * Further properties *)

Lemma string_app_cons c (s t : string) : String c s +:+ t = String c (s +:+ t).
Proof. reflexivity. Qed.

Lemma string_app_nil (t : string) : "" +:+ t = t.
Proof. reflexivity. Qed.

Lemma substring_app_skip pre n s :
  String.substring (String.length pre) n (pre +:+ s) = String.substring 0 n s.
Proof. induction pre as [|c pre IH]; rewrite ?string_app_cons; simpl; [done|exact IH]. Qed.

Lemma substring_app_take t r :
  String.substring 0 (String.length t) (t +:+ r) = t.
Proof.
  induction t as [|c t IH]; rewrite ?string_app_cons; simpl; [by destruct r|]. by rewrite IH.
Qed.

Lemma substring_app_take_more t r n :
  String.substring 0 (String.length t + n) (t +:+ r) = t +:+ String.substring 0 n r.
Proof. induction t as [|c t IH]; rewrite ?string_app_cons; simpl; [done|]. by rewrite IH. Qed.

Lemma length_app_string (s1 s2 : string) :
  String.length (s1 +:+ s2) = (String.length s1 + String.length s2)%nat.
Proof. induction s1 as [|c s1 IH]; rewrite ?string_app_cons; simpl; [done|by rewrite IH]. Qed.

Lemma app_assoc_string (s1 s2 s3 : string) : (s1 +:+ s2) +:+ s3 = s1 +:+ (s2 +:+ s3).
Proof. induction s1 as [|c s1 IH]; rewrite ?string_app_cons; [done|by rewrite IH]. Qed.

Lemma readStr4_at pre tag rest :
  String.length tag = 4%nat → readStr4 (String.length pre) (pre +:+ tag +:+ rest) = tag.
Proof.
  intros H. unfold readStr4. rewrite substring_app_skip, <- H. apply substring_app_take.
Qed.

Lemma byteAt_app_skip pre s i :
  byteAt (pre +:+ s) (String.length pre + i) = byteAt s i.
Proof.
  unfold byteAt. rewrite (String.append_correct2 pre s i).
  by rewrite (Nat.add_comm i).
Qed.

Lemma int32Bytes_length n : String.length (int32Bytes n) = 4%nat.
Proof. reflexivity. Qed.

Lemma byte_value (x : N) : (x < 256)%N → Z.of_nat (nat_of_ascii (ascii_of_N x)) = Z.of_N x.
Proof.
  intros H. unfold nat_of_ascii. rewrite N_ascii_embedding by done. lia.
Qed.

Lemma getInt32_int32Bytes n rest :
  Z.of_nat n < 2 ^ 31 → getInt32 0 (int32Bytes n +:+ rest) = Z.of_nat n.
Proof.
  intros Hn. unfold getInt32, int32Bytes, byteAt. cbv zeta.
  rewrite !string_app_cons. simpl String.get. cbv beta iota.
  rewrite !byte_value by (apply N.mod_lt; done).
  set (x := N.of_nat n).
  assert (Hx : Z.of_nat n = Z.of_N x) by (subst x; lia).
  rewrite Hx in *. clearbody x.
  rewrite !N2Z.inj_mod, !N2Z.inj_div. simpl Z.of_N.
  set (z := Z.of_N x) in *. assert (0 ≤ z) by (subst z; lia). clearbody z.
  assert (Hz : z / 1 = z) by apply Z.div_1_r. rewrite Hz.
  change (2 ^ 31) with 2147483648 in *. change (2 ^ 32) with 4294967296.
  replace (z / 65536) with (z / 256 / 256) by (rewrite Z.div_div by lia; done).
  replace (z / 16777216) with (z / 256 / 256 / 256) by (rewrite !Z.div_div by lia; done).
  pose proof (Z.div_mod z 256 ltac:(lia)) as E1.
  pose proof (Z.mod_pos_bound z 256 ltac:(lia)) as B1.
  pose proof (Z.div_mod (z / 256) 256 ltac:(lia)) as E2.
  pose proof (Z.mod_pos_bound (z / 256) 256 ltac:(lia)) as B2.
  pose proof (Z.div_mod (z / 256 / 256) 256 ltac:(lia)) as E3.
  pose proof (Z.mod_pos_bound (z / 256 / 256) 256 ltac:(lia)) as B3.
  pose proof (Z.div_mod (z / 256 / 256 / 256) 256 ltac:(lia)) as E4.
  pose proof (Z.mod_pos_bound (z / 256 / 256 / 256) 256 ltac:(lia)) as B4.
  set (q1 := z / 256) in *. set (r1 := z `mod` 256) in *.
  set (q2 := q1 / 256) in *. set (r2 := q1 `mod` 256) in *.
  set (q3 := q2 / 256) in *. set (r3 := q2 `mod` 256) in *.
  set (q4 := q3 / 256) in *. set (r4 := q3 `mod` 256) in *.
  clearbody q1 r1 q2 r2 q3 r3 q4 r4.
  assert (q4 = 0) by lia.
  match goal with |- context [?u <? _] => destruct (Z.ltb_spec u 2147483648) end; lia.
Qed.

Lemma getInt32_app_skip pre s i :
  getInt32 (String.length pre + i) (pre +:+ s) = getInt32 i s.
Proof.
  unfold getInt32. rewrite <- !Nat.add_assoc. by rewrite !byteAt_app_skip.
Qed.

Lemma getInt32_at pre n rest :
  Z.of_nat n < 2 ^ 31 →
  getInt32 (String.length pre) (pre +:+ int32Bytes n +:+ rest) = Z.of_nat n.
Proof.
  intros Hn. rewrite <- (Nat.add_0_r (String.length pre)).
  rewrite getInt32_app_skip. by apply getInt32_int32Bytes.
Qed.

Lemma land_1_odd n : (Z.land (Z.of_nat n) 1 =? 0) = negb (Nat.odd n).
Proof.
  change 1 with (Z.ones 1) at 1. rewrite Z.land_ones by lia.
  change (2 ^ 1) with 2.
  destruct (Nat.odd n) eqn:Ho.
  - apply Nat.odd_spec in Ho as [m ->]. simpl negb.
    apply Z.eqb_neq. Z.div_mod_to_equations. lia.
  - assert (He : Nat.even n = true) by (rewrite <- Nat.negb_odd, Ho; done).
    apply Nat.even_spec in He as [m ->]. simpl negb.
    apply Z.eqb_eq. Z.div_mod_to_equations. lia.
Qed.

Lemma chunkBytes_length tag payload :
  Z.of_nat (String.length (chunkBytes tag payload))
  = Z.of_nat (String.length tag) - 4 + chunkStride (Z.of_nat (String.length payload)).
Proof.
  unfold chunkBytes, chunkStride. rewrite land_1_odd.
  rewrite !length_app_string, int32Bytes_length.
  destruct (Nat.odd _); simpl; lia.
Qed.

(** What the cursor reads at the start of a stored chunk. *)
Lemma chunk_at pre tag payload rest :
  wellFormedChunk (tag, payload) →
  let b := pre +:+ chunkBytes tag payload +:+ rest in
  let offset := Z.of_nat (String.length pre) in
  inBuffer b offset 8 = true
  ∧ readStr4 (Z.to_nat offset) b = tag
  ∧ getInt32 (Z.to_nat offset + 4) b = Z.of_nat (String.length payload)
  ∧ forkAt (Z.to_nat offset) (Z.of_nat (String.length payload) + 8) b = chunkSpan tag payload
  ∧ offset + chunkStride (Z.of_nat (String.length payload))
    = Z.of_nat (String.length (pre +:+ chunkBytes tag payload)).
Proof.
  intros [Ht Hp]. simpl in Ht, Hp. cbv zeta. rewrite Nat2Z.id.
  assert (Hb : chunkBytes tag payload
               = chunkSpan tag payload
                 +:+ (if Nat.odd (String.length payload) then String zero "" else "")).
  { unfold chunkBytes, chunkSpan. by rewrite !app_assoc_string. }
  split_and!.
  - unfold inBuffer, byteLength. rewrite !length_app_string.
    pose proof (chunkBytes_length tag payload) as Hl. unfold chunkStride in Hl.
    destruct (_ =? 0) in Hl; apply andb_true_intro; split; apply Z.leb_le; lia.
  - unfold chunkBytes. rewrite !app_assoc_string. by apply readStr4_at.
  - unfold chunkBytes. rewrite !app_assoc_string.
    rewrite <- (app_assoc_string pre tag), <- Ht, <- length_app_string.
    by apply getInt32_at.
  - unfold forkAt. rewrite substring_app_skip, Hb, app_assoc_string.
    replace (Z.to_nat (Z.of_nat (String.length payload) + 8))
      with (String.length (chunkSpan tag payload)).
    + apply substring_app_take.
    + unfold chunkSpan. rewrite !length_app_string, int32Bytes_length. lia.
  - rewrite length_app_string, Nat2Z.inj_add, chunkBytes_length. lia.
Qed.

Lemma chunksBytes_cons c chunks :
  chunksBytes (c :: chunks) = chunkBytes c.1 c.2 +:+ chunksBytes chunks.
Proof. reflexivity. Qed.

Lemma string_app_nil_r (s : string) : s +:+ "" = s.
Proof. induction s as [|c s IH]; rewrite ?string_app_cons; [done|by rewrite IH]. Qed.

Lemma countFilesLoop_chunks fuel pre chunks count :
  Forall wellFormedChunk chunks → (length chunks < fuel)%nat →
  countFilesLoop fuel (pre +:+ chunksBytes chunks) (Z.of_nat (String.length pre)) count
  = Read (count + length (filter (λ c, c.1 = "FORM") chunks))%nat.
Proof.
  revert pre chunks count. induction fuel as [|fuel IH]; intros pre chunks count Hwf Hfuel;
    [lia|].
  destruct chunks as [|[tag payload] chunks].
  { simpl. unfold byteLength. rewrite string_app_nil_r.
    rewrite (proj2 (Z.leb_le _ _)) by lia. by rewrite Nat.add_0_r. }
  apply Forall_cons in Hwf as [Hc Hwf]. rewrite chunksBytes_cons.
  destruct (chunk_at pre tag payload (chunksBytes chunks) Hc) as (Hin & Hid & Hlen & _ & Hnext).
  cbv zeta in Hin, Hid, Hlen, Hnext. cbn [fst snd] in *.
  simpl countFilesLoop.
  assert (Hne : (byteLength (pre +:+ chunkBytes tag payload +:+ chunksBytes chunks)
                 <=? Z.of_nat (String.length pre)) = false).
  { apply Z.leb_gt. unfold inBuffer in Hin. apply andb_prop in Hin as [_ Hin].
    apply Z.leb_le in Hin. lia. }
  rewrite Hne, Hin. cbv beta iota delta [negb]. rewrite Hid, Hlen, Hnext.
  rewrite <- app_assoc_string. rewrite IH by (auto; simpl in Hfuel; lia).
  f_equal. rewrite filter_cons. cbn [fst].
  destruct (String.eqb_spec tag "FORM") as [->|Hne'].
  - rewrite decide_True by done. simpl. lia.
  - by rewrite decide_False by done.
Qed.

Lemma chunksBytes_long chunks :
  Forall wellFormedChunk chunks →
  (8 * length chunks ≤ String.length (chunksBytes chunks))%nat.
Proof.
  induction 1 as [|[tag payload] chunks [Ht _] _ IH]; [simpl; lia|].
  rewrite chunksBytes_cons, length_app_string. cbn [fst snd length] in *.
  pose proof (chunkBytes_length tag payload) as Hl. unfold chunkStride in Hl.
  destruct (_ =? 0) in Hl; lia.
Qed.

(** X17. On a buffer made of 16 header bytes followed by well-formed chunks
    (a 4-byte tag, the payload length, the payload, a pad byte after an odd
    payload), [countFiles()] returns the number of chunks tagged FORM: the
    walk steps over every payload and pad byte and ends exactly at the end
    of the buffer. *)
Theorem countFiles_counts_forms header chunks :
  String.length header = 16%nat → Forall wellFormedChunk chunks →
  countFiles (header +:+ chunksBytes chunks)
  = Read (length (filter (λ c, c.1 = "FORM") chunks)).
Proof.
  intros Hh Hwf. unfold countFiles.
  change 16 with (Z.of_nat 16). rewrite <- Hh.
  rewrite countFilesLoop_chunks; [done|done|].
  rewrite length_app_string. pose proof (chunksBytes_long chunks Hwf). lia.
Qed.

Lemma countFilesLoop_stuck fuel b offset count :
  inBuffer b offset 8 = true → getInt32 (Z.to_nat offset + 4) b = -8 →
  countFilesLoop fuel b offset count = Raise LoopBound.
Proof.
  intros Hin Hlen. revert count. induction fuel as [|fuel IH]; intros count; [done|].
  simpl. assert (Hne : (byteLength b <=? offset) = false).
  { apply Z.leb_gt. unfold inBuffer in Hin. apply andb_prop in Hin as [_ Hin].
    apply Z.leb_le in Hin. lia. }
  rewrite Hne, Hin, Hlen. cbv beta iota delta [negb].
  change (chunkStride (-8)) with 0. rewrite Z.add_0_r. apply IH.
Qed.

Lemma getInt32_minus8 rest : getInt32 0 (minus8Bytes +:+ rest) = -8.
Proof. reflexivity. Qed.

(** X18. When the walk of [countFiles()] reaches a chunk whose length field
    holds -8 (the bytes FF FF FF F8), the cursor moves by
    8 + (-8) + 0 = 0 bytes: no number of turns ends the loop. *)
Theorem countFiles_no_progress header chunks tag rest :
  String.length header = 16%nat → Forall wellFormedChunk chunks →
  String.length tag = 4%nat →
  ∀ fuel, countFilesLoop fuel
            (header +:+ chunksBytes chunks +:+ tag +:+ minus8Bytes +:+ rest) 16 0
          = Raise LoopBound.
Proof.
  intros Hh Hwf Ht. set (stuck := tag +:+ minus8Bytes +:+ rest).
  assert (Hgen : ∀ fuel pre chunks count, Forall wellFormedChunk chunks →
            countFilesLoop fuel (pre +:+ chunksBytes chunks +:+ stuck)
              (Z.of_nat (String.length pre)) count = Raise LoopBound).
  { clear header chunks Hh Hwf.
    induction fuel as [|fuel IH]; intros pre chunks count Hwf; [done|].
    destruct chunks as [|[tg payload] chunks].
    - rewrite string_app_nil. apply countFilesLoop_stuck.
      + unfold inBuffer, byteLength, stuck. rewrite !length_app_string, Ht.
        apply andb_true_intro. split; apply Z.leb_le; simpl; lia.
      + rewrite Nat2Z.id. unfold stuck. rewrite <- app_assoc_string.
        replace (String.length pre + 4)%nat with (String.length (pre +:+ tag) + 0)%nat
          by (rewrite length_app_string; lia).
        rewrite getInt32_app_skip. apply getInt32_minus8.
    - apply Forall_cons in Hwf as [Hc Hwf]. rewrite chunksBytes_cons.
      rewrite (app_assoc_string (chunkBytes _ _)).
      destruct (chunk_at pre tg payload (chunksBytes chunks +:+ stuck) Hc)
        as (Hin & Hid & Hlen & _ & Hnext).
      cbv zeta in Hin, Hid, Hlen, Hnext. cbn [fst snd] in *.
      simpl countFilesLoop.
      assert (Hne : (byteLength (pre +:+ chunkBytes tg payload +:+ chunksBytes chunks
                                 +:+ stuck)
                     <=? Z.of_nat (String.length pre)) = false).
      { apply Z.leb_gt. unfold inBuffer in Hin. apply andb_prop in Hin as [_ Hin].
        apply Z.leb_le in Hin. lia. }
      rewrite Hne, Hin. cbv beta iota delta [negb]. rewrite Hlen, Hnext.
      rewrite <- app_assoc_string. by apply IH. }
  intros fuel. change 16 with (Z.of_nat 16). rewrite <- Hh. by apply Hgen.
Qed.

(** X19. In a multi-page buffer whose 16 header bytes are followed by a DIRM
    chunk, the constructor hands the directory decoder exactly that chunk
    (without its pad byte), and it finds the table of contents exactly when
    more than 8 bytes follow the padded DIRM chunk and they start with the
    tag NAVM: a NAVM chunk stored right there is handed over whole, while an
    empty NAVM chunk that ends the buffer, or a chunk with another tag,
    leaves the table of contents [null]. *)
Theorem readHeaderChunks_finds header payload tail :
  String.length header = 16%nat → Z.of_nat (String.length payload) < 2 ^ 31 →
  let b := header +:+ chunkBytes "DIRM" payload +:+ tail in
  (∀ contents rest,
     tail = chunkBytes "NAVM" contents +:+ rest →
     Z.of_nat (String.length contents) < 2 ^ 31 →
     contents ≠ "" ∨ rest ≠ "" →
     readHeaderChunks b
     = Read (chunkSpan "DIRM" payload, Some (chunkSpan "NAVM" contents)))
  ∧ ((String.length tail ≤ 8)%nat →
     readHeaderChunks b = Read (chunkSpan "DIRM" payload, None))
  ∧ (readStr4 0 tail ≠ "NAVM" →
     readHeaderChunks b = Read (chunkSpan "DIRM" payload, None)).
Proof.
  intros Hh Hp b.
  assert (Hwf : wellFormedChunk ("DIRM", payload)) by done.
  destruct (chunk_at header "DIRM" payload tail Hwf) as (Hin & Hid & Hlen & Hfork & Hnext).
  cbv zeta in Hin, Hid, Hlen, Hfork, Hnext. rewrite Hh in *.
  change (Z.to_nat (Z.of_nat 16)) with 16%nat in *.
  change (Z.of_nat 16) with 16 in *. change (16 + 4)%nat with 20%nat in *. fold b in Hin, Hid, Hlen, Hfork.
  assert (Hmeta : _readMetaDataChunk b
                  = Read (chunkSpan "DIRM" payload,
                          Z.of_nat (String.length (header +:+ chunkBytes "DIRM" payload)))).
  { unfold _readMetaDataChunk.
    assert (H1 : inBuffer b 16 4 = true ∧ inBuffer b 20 4 = true).
    { unfold inBuffer in *. apply andb_prop in Hin as [_ Hin]. apply Z.leb_le in Hin.
      split; apply andb_true_intro; split; apply Z.leb_le; lia. }
    destruct H1 as [-> ->]. rewrite Hid. cbv beta iota delta [negb].
    simpl (_ =? _)%string. cbv beta iota. by rewrite Hlen, Hfork, Hnext. }
  unfold readHeaderChunks. rewrite Hmeta.
  set (pre := header +:+ chunkBytes "DIRM" payload).
  assert (Hb : b = pre +:+ tail) by (subst b pre; by rewrite app_assoc_string).
  assert (Hrem : byteLength b - Z.of_nat (String.length pre)
                 = Z.of_nat (String.length tail)).
  { rewrite Hb. unfold byteLength. rewrite length_app_string. lia. }
  split_and!.
  - intros contents rest -> Hc Hmore.
    assert (Hwf' : wellFormedChunk ("NAVM", contents)) by done.
    destruct (chunk_at pre "NAVM" contents rest Hwf') as (Hin' & Hid' & Hlen' & Hfork' & _).
    cbv zeta in Hin', Hid', Hlen', Hfork'. rewrite <- Hb in *.
    unfold _readContentsChunkIfExists. rewrite Hrem.
    assert (Hlong : (8 <? Z.of_nat (String.length (chunkBytes "NAVM" contents +:+ rest)))
                    = true).
    { apply Z.ltb_lt. rewrite length_app_string.
      pose proof (chunkBytes_length "NAVM" contents) as Hl. unfold chunkStride in Hl.
      simpl (String.length "NAVM") in Hl.
      destruct Hmore as [Hm|Hm].
      - assert (String.length contents ≠ 0%nat) by (by destruct contents).
        destruct (_ =? 0) in Hl; lia.
      - assert (String.length rest ≠ 0%nat) by (by destruct rest).
        destruct (_ =? 0) in Hl; lia. }
    rewrite Hlong, Hin'. cbv beta iota delta [negb]. rewrite Hid'.
    simpl (_ =? _)%string. cbv beta iota. by rewrite Hlen', Hfork'.
  - intros Hshort. unfold _readContentsChunkIfExists. rewrite Hrem.
    by rewrite (proj2 (Z.ltb_ge _ _)) by lia.
  - intros Htag. unfold _readContentsChunkIfExists. rewrite Hrem.
    destruct (8 <? _) eqn:Hlong; [|done].
    apply Z.ltb_lt in Hlong.
    assert (Hin' : inBuffer b (Z.of_nat (String.length pre)) 8 = true).
    { unfold inBuffer. apply andb_true_intro. split; apply Z.leb_le; lia. }
    rewrite Hin'. cbv beta iota delta [negb]. rewrite Nat2Z.id.
    assert (Hid' : readStr4 (String.length pre) b = readStr4 0 tail).
    { rewrite Hb. unfold readStr4. apply substring_app_skip. }
    rewrite Hid'. by apply String.eqb_neq in Htag as ->.
Qed.

(** ** The dependency loader *)

Lemma unloaded_resident d deps :
  unloaded d deps = [] → ∀ id, id ∈ deps → is_Some (djvi d !! id).
Proof.
  intros Hu id Hid. destruct (djvi d !! id) eqn:Hl; [done|].
  assert (Hin : id ∈ unloaded d deps) by (by apply list_elem_of_filter).
  rewrite Hu in Hin. by apply not_elem_of_nil in Hin.
Qed.


(** What a dependency batch leaves behind, whatever its outcome. *)
Lemma loadDependencies_result env deps pn d r d' :
  _loadDependencies env deps pn d = (r, d') →
  loaded_frame d d'
  ∧ trace d' = trace d ++ batchRequests d deps
  ∧ (∀ m, memoryUsage d = Some m → ∃ m', memoryUsage d' = Some m')
  ∧ (∀ id, is_Some (djvi d !! id) → djvi d' !! id = djvi d !! id)
  ∧ match r with
    | Ok _ => (∀ id, id ∈ deps → is_Some (djvi d' !! id))
    | Throw e => Some e = firstFailure env pn d (batchOrder env d deps)
                 ∧ ∃ id, id ∈ unloaded d deps
                         ∧ fetchComponent env pn (dependencyUrl d id) id = Throw e
    end.
Proof.
  intros Hrun.
  pose proof (loadDependencies_frame env deps pn d) as [Hfr _].
  rewrite Hrun in Hfr. simpl in Hfr. split; [done|].
  unfold batchRequests.
  destruct (decide (unloaded d deps = [])) as [Hu|Hu].
  { rewrite loadDependencies_none in Hrun by done. inversion Hrun; subst.
    rewrite Hu. simpl. rewrite app_nil_r. split_and!; try done; [by eauto|].
    by apply unloaded_resident. }
  rewrite loadDependencies_run in Hrun by done.
  set (order := batchOrder env d deps) in *.
  assert (Hperm : order ≡ₚ unloaded d deps) by apply completionOrder_perm.
  inversion Hrun as [[Hr Hd']]. clear Hrun. unfold settledState. fold order. cbv zeta. simpl.
  split; [done|].
  split; [intros m ->; rewrite counted_number; by eauto|].
  split.
  { intros id [c Hc]. apply installDjvi_other. intros Hin.
    apply okPrefix_ok in Hin as [Hin _]. rewrite Hperm in Hin.
    apply list_elem_of_filter in Hin as [Hn _]. congruence. }
  destruct (firstFailure env pn d order) as [e|] eqn:Hff.
  - split; [done|]. clear Hd' Hr. revert Hff.
    assert (Hsub : ∀ id, id ∈ order → id ∈ unloaded d deps).
    { intros id Hid. by rewrite <- Hperm. }
    clear Hperm. induction order as [|x order IH]; simpl; [done|].
    destruct (fetchComponent env pn (dependencyUrl d x) x) as [c|e'] eqn:Hf.
    + intros Hff. apply IH; [|done]. intros; apply Hsub; by right.
    + intros [= ->]. exists x. split; [apply Hsub; by left|done].
  - apply firstFailure_None in Hff. rewrite Hff.
    assert (Hok : ∀ id, id ∈ order →
                  ∃ b, fetchComponent env pn (dependencyUrl d id) id = Ok b).
    { intros id Hid. rewrite <- Hff in Hid. by apply okPrefix_ok in Hid as [_ ?]. }
    intros id Hid. rewrite installDjvi_lookup by done.
    destruct (decide (id ∈ order)) as [Hin|Hin].
    + destruct (Hok id Hin) as [b ->]. done.
    + destruct (djvi d !! id) eqn:Hl; [done|]. exfalso. apply Hin.
      rewrite Hperm. by apply list_elem_of_filter.
Qed.


(** ** getPage on an empty slot of an indirect document, step by step *)

(** The state in which the dependencies of a fetched page are resolved: the
    request is in the trace, the page object is allocated and its bytes are
    counted. *)
Lemma loadPage_unfold env number d base dm :
  baseUrl d = Some base → dirm d = Some dm →
  let url := base +:+ js_str "undefined" (getPageNameByItsNumber dm number) in
  let d0 := set_trace d (trace d ++ [EvFetch url]) in
  loadPage env number d =
  match fetch env url with
  | Response true b =>
      if (readStr4 0 b =? "AT&T")%string then
        let page := {| pg_ref := nextRef d; pg_buffer := byteLength b;
                       pg_length := byteLength b - 4;
                       pg_deps := getDependencies env (forkFrom 4 b) |} in
        let dA := set_memoryUsage (set_nextRef d0 (S (nextRef d)))
                    (js_add (memoryUsage d) (byteLength b)) in
        match _loadDependencies env (pg_deps page) number dA with
        | (Throw e, dB) => (Throw e, dB)
        | (Ok _, dB) =>
            match releaseMemoryIfRequired (Some (pg_deps page)) dB with
            | (Throw e, dG) => (Throw e, dG)
            | (Ok _, dG) =>
                (Ok tt,
                 set_lastRequestedPage
                   (set_loadedPageNumbers
                      (set_pages dG (<[Z.to_nat (number - 1) := Some page]> (pages dG)))
                      (loadedPageNumbers dG ++ [Z.to_nat (number - 1)]))
                   (Some page))
            end
        end
      else (Throw CorruptedFileDjVuError, d0)
  | r => (Throw (pageFetchError number url r), d0)
  end.
Proof.
  intros Hb Hdm. cbv zeta. unfold loadPage.
  by rewrite (loadPageWith_unfold quiet env number d base dm).
Qed.

Lemma prologue_state d number :
  match lastRequestedPage d with
  | Some q => if negb (sameRef (Some q) (slot d number))
              then set_trace d (trace d ++ [EvReset (pg_ref q)]) else d
  | None => d
  end = set_trace d (trace d ++ releaseEvents d number).
Proof.
  unfold releaseEvents. destruct (lastRequestedPage d); [destruct (sameRef _ _)|]; simpl;
    rewrite ?app_nil_r; by destruct d.
Qed.

(** [getPage] on an empty slot in range of an indirect document. *)
Lemma getPage_empty_slot env number d dm :
  slot d number = None → 1 ≤ number ≤ Z.of_nat (length (pages d)) →
  dirm d = Some dm → dirmIsBundled dm = false →
  getPage env number d
  = bind (loadPage env number) (λ _, bind get (λ d, ret (lastRequestedPage d)))
      (set_lastRequestedPage (set_trace d (trace d ++ releaseEvents d number)) None).
Proof.
  intros Hs [Hlo Hhi] Hdm Hind. rewrite getPage_unfold. cbv zeta.
  rewrite prologue_state, Hs.
  assert (Hc : (number <? 1) || (Z.of_nat (length (pages d)) <? number) || isBundled d
               = false).
  { unfold isBundled. rewrite Hdm, Hind.
    destruct (Z.ltb_spec number 1); [lia|].
    destruct (Z.ltb_spec (Z.of_nat (length (pages d))) number); [lia|done]. }
  by rewrite Hc.
Qed.


Lemma loadDependencies_state env deps pn d :
  _loadDependencies env deps pn d
  = (match firstFailure env pn d (batchOrder env d deps) with
     | Some e => Throw e
     | None => Ok tt
     end, settledState env pn d deps).
Proof.
  destruct (decide (unloaded d deps = [])) as [Hu|Hu].
  - rewrite loadDependencies_none by done.
    unfold settledState, batchRequests, batchOrder. rewrite Hu. simpl.
    f_equal. destruct d as [? ? ? ? ? ? ? ? ? ? [v|] ? ? ? ? ?];
      unfold set_trace, set_memoryUsage, set_djvi; simpl;
      rewrite ?app_nil_r, ?Z.add_0_r; done.
  - by rewrite loadDependencies_run by done.
Qed.

Lemma firstFailure_all_ok env pn d order :
  (∀ id, id ∈ order → ∃ c, fetchComponent env pn (dependencyUrl d id) id = Ok c) →
  firstFailure env pn d order = None.
Proof.
  induction order as [|x order IH]; intros H; simpl; [done|].
  destruct (H x) as [c ->]; [by left|]. apply IH. intros; apply H; by right.
Qed.

(** The governor on a document whose queue lists loaded slots. *)
Lemma governor_props pres d m :
  memoryUsage d = Some m → NoDup (loadedPageNumbers d) →
  (∀ i, i ∈ loadedPageNumbers d → is_Some (mjoin (pages d !! i))) →
  (∀ id, id ∈ default [] pres → is_Some (djvi d !! id)) →
  ∃ k d',
    releaseMemoryIfRequired pres d = (Ok tt, d')
    ∧ (k ≤ length (loadedPageNumbers d))%nat
    ∧ loadedPageNumbers d' = drop k (loadedPageNumbers d)
    ∧ pages d' = clearSlots (take k (loadedPageNumbers d)) (pages d)
    ∧ (∃ m', memoryUsage d' = Some m')
    ∧ (djvi d' = djvi d
       ∨ (k = length (loadedPageNumbers d)
          ∧ djvi d' = filter (λ kc, kc.1 ∈ default [] pres) (djvi d)))
    ∧ (m ≤ memoryLimit d → d' = d ∧ k = 0%nat)
    ∧ (lastRequestedPage d = None → trace d' = trace d ∧ lastRequestedPage d' = None)
    ∧ formId d' = formId d ∧ dirm d' = dirm d ∧ baseUrl d' = baseUrl d
    ∧ memoryLimit d' = memoryLimit d ∧ bufferLength d' = bufferLength d
    ∧ idToPageNumberMap d' = idToPageNumberMap d ∧ nextRef d' = nextRef d
    ∧ (memoryLimit d < m →
       (∀ j, (j < k)%nat →
             memoryLimit d
             < m - sumZ (pageBytesAt (pages d) <$> take j (loadedPageNumbers d)))
       ∧ (m - sumZ (pageBytesAt (pages d) <$> take k (loadedPageNumbers d)) ≤ memoryLimit d
          ∨ k = length (loadedPageNumbers d))).
Proof.
  intros Hm Hnd Hq Hpres.
  destruct (Z.le_gt_cases m (memoryLimit d)) as [Hle|Hgt].
  { exists 0%nat, d. rewrite (releaseMemoryIfRequired_within _ _ _ Hm Hle).
    rewrite drop_0. split_and!; try done; try lia; eauto. }
  destruct (releaseMemoryIfRequired_run pres d m Hm) as (k & Hk & Hlim & Hend & Hrun);
    [lia|done..|].
  cbv zeta in Hlim, Hend, Hrun. exists k. eexists. split; [exact Hrun|].
  destruct (decide _) as [Hle|Hgt'].
  - unfold evicted. simpl. split_and!; try done; eauto; try lia.
  - destruct Hend as [?|Hend]; [lia|]. unfold evicted. simpl.
    split_and!; try done; eauto; try lia.
    intros ->. by rewrite app_nil_r.
Qed.

(** ** What holds of an indirect document between calls of getPage *)

Lemma clearSlots_length indices ps : length (clearSlots indices ps) = length ps.
Proof.
  revert ps. induction indices as [|i l IH]; intros ps; [done|].
  unfold clearSlots in *. simpl. by rewrite IH, length_insert.
Qed.

Lemma fetchComponent_error env pn url id e :
  fetchComponent env pn url id = Throw e →
  e = NetworkDjVuError pn (Some id) url ∨ e = UnsuccessfulRequestDjVuError pn (Some id)
  ∨ e = CorruptedFileDjVuError.
Proof.
  unfold fetchComponent. destruct (fetch env url) as [|ok b]; [intros [= <-]; auto|].
  repeat (match goal with |- context [if ?c then _ else _] => destruct c end);
    intros [= <-]; auto.
Qed.

Lemma pageFetchError_documented number url r : documentedError number (pageFetchError number url r).
Proof.
  unfold documentedError. destruct r as [|[] b]; simpl; eauto 10.
Qed.

Lemma loadedInv_frame d d' :
  loadedInv d →
  formId d' = formId d → dirm d' = dirm d → pages d' = pages d →
  memoryUsage d' = memoryUsage d → loadedPageNumbers d' = loadedPageNumbers d →
  djvi d' = djvi d → idToPageNumberMap d' = idToPageNumberMap d →
  loadedInv d'.
Proof.
  intros [] Hf Hd Hp Hm Hq Hj Hi. split; rewrite ?Hf, ?Hd, ?Hp, ?Hm, ?Hq, ?Hj, ?Hi; done.
Qed.

(** *** Landings and batches under any schedule *)

Lemma grows_refl d : grows d d.
Proof. split; auto. Qed.

Lemma grows_trans d1 d2 d3 : grows d1 d2 → grows d2 d3 → grows d1 d3.
Proof.
  intros [] []. split; try congruence; auto. by eapply loaded_frame_trans.
Qed.

Lemma installDependency_grows id b d :
  grows d (installDependency id b d).2
  ∧ (installDependency id b d).1 = Ok tt
  ∧ is_Some (djvi (installDependency id b d).2 !! id).
Proof.
  destruct (installDependency_frame id b d) as [Hf Hr].
  unfold installDependency, addMemory in *. revert Hf Hr. mraw.
  cbn [fst snd]. intros Hf Hr.
  split_and!; [split; try done|done|];
    cbn [djvi memoryUsage set_memoryUsage set_djvi].
  - intros x Hx. destruct (decide (x = id)) as [->|Hne].
    + by rewrite lookup_insert_eq.
    + by rewrite lookup_insert_ne.
  - intros [v ->]. simpl. by eexists.
  - by rewrite lookup_insert_eq.
Qed.

Lemma land_grows i d : grows d (land i d).2 ∧ (land i d).1 = Ok tt.
Proof.
  unfold land. destruct (inFlight d !! i) as [cb|]; [|split; [apply grows_refl|done]].
  assert (H0 : grows d (set_inFlight d (delete i (inFlight d)))).
  { split; try done. frame_step. }
  destruct (cb_result cb) as [b|e]; [|done].
  match goal with |- context [installDependency ?x ?y ?d0] =>
    destruct (installDependency_grows x y d0) as (Hg & Hr & _) end.
  split; [|done]. by eapply grows_trans.
Qed.

Lemma landAll_grows indices d :
  grows d (landAll indices d).2 ∧ (landAll indices d).1 = Ok tt.
Proof.
  revert d. induction indices as [|i l IH]; intros d; simpl.
  { split; [apply grows_refl|done]. }
  unfold bind. destruct (land_grows i d) as [Hg Hr].
  destruct (land i d) as [[[]|e] d']; simpl in *; [|done].
  destruct (IH d') as [Hg' Hr']. split; [|done]. by eapply grows_trans.
Qed.

Lemma await_grows s k d : grows d (await s k d).2.
Proof. apply landAll_grows. Qed.

Lemma dependencyUrl_governed d d' : governed d d' → dependencyUrl d' = dependencyUrl d.
Proof. intros []. unfold dependencyUrl. by rewrite gv_baseUrl0, gv_dirm0. Qed.

Lemma dependencyUrl_grows d d' : grows d d' → dependencyUrl d' = dependencyUrl d.
Proof. intros [[] _ _ _ _]. by apply dependencyUrl_governed. Qed.

(** A batch under any schedule: it only adds resources and bytes; when it
    succeeds every callback has installed its resource, and when it is
    rejected one of its callbacks has thrown the error. *)
Lemma settleAllWith_grows s k env pn order d :
  grows d (settleAllWith s k env pn order d).2
  ∧ match (settleAllWith s k env pn order d).1 with
    | Ok _ => ∀ id, id ∈ order → is_Some (djvi (settleAllWith s k env pn order d).2 !! id)
    | Throw e => ∃ id, id ∈ order
                       ∧ fetchComponent env pn (dependencyUrl d id) id = Throw e
    end.
Proof.
  revert k d. induction order as [|id order IH]; intros k d; simpl.
  { split; [apply grows_refl|]. by intros id ?%not_elem_of_nil. }
  unfold bind. rewrite (await_eq s k). pose proof (await_grows s k d) as H0.
  set (d0 := (await s k d).2) in *. clearbody d0.
  pose proof (dependencyUrl_grows _ _ H0) as Hu0.
  unfold completeDependency. mraw. rewrite Hu0.
  destruct (fetchComponent env pn (dependencyUrl d id) id) as [b|e] eqn:Hf.
  - destruct (installDependency_grows id b d0) as (Hg & Hr & Hid).
    destruct (installDependency id b d0) as [r1 d1]; simpl in *. subst r1.
    destruct (IH (S k) d1) as [Hg' Hr'].
    pose proof (dependencyUrl_grows _ _ Hg) as Hu1.
    split; [by eapply grows_trans; [|eapply grows_trans]|].
    destruct (settleAllWith s (S k) env pn order d1) as [[[]|e] d2]; simpl in *.
    + intros x [->|Hx]%elem_of_cons; [|by apply Hr'].
      by apply (gr_djvi _ _ Hg').
    + destruct Hr' as (x & Hx & He). exists x. split; [by right|].
      by rewrite Hu1, Hu0 in He.
  - simpl. split.
    + eapply grows_trans; [exact H0|]. split; try done. frame_step.
    + exists id. split; [by left|done].
Qed.

Lemma loadDependenciesWith_result s k env deps pn d r d' :
  _loadDependenciesWith s k env deps pn d = (r, d') →
  grows (set_trace d (trace d ++ batchRequests d deps)) d'
  ∧ match r with
    | Ok _ => ∀ id, id ∈ deps → is_Some (djvi d' !! id)
    | Throw e => ∃ id, id ∈ unloaded d deps
                       ∧ fetchComponent env pn (dependencyUrl d id) id = Throw e
    end.
Proof.
  unfold _loadDependenciesWith, batchRequests. mraw.
  destruct (unloaded d deps) as [|u us] eqn:Hu.
  { intros [= <- <-]. simpl. rewrite app_nil_r.
    replace (set_trace d (trace d)) with d by (by destruct d).
    split; [apply grows_refl|]. apply unloaded_resident. done. }
  rewrite emitAll_run. set (d0 := set_trace d _).
  set (order := completionOrder _ _).
  assert (Hperm : order ≡ₚ u :: us) by apply completionOrder_perm.
  destruct (settleAllWith_grows s k env pn order d0) as [Hg Hr].
  destruct (settleAllWith s k env pn order d0) as [r0 d1]; simpl in *.
  intros [= <- <-]. split; [done|].
  destruct r0 as [[]|e].
  - intros id Hid. destruct (djvi d !! id) as [c|] eqn:Hl.
    + apply (gr_djvi _ _ Hg). change (is_Some (djvi d !! id)). by rewrite Hl.
    + apply Hr. rewrite Hperm, <- Hu. by apply list_elem_of_filter.
  - destruct Hr as (id & Hid & He). exists id. split; [|done].
    by rewrite <- Hperm.
Qed.

Lemma loadedInv_grows d d' : loadedInv d → grows d d' → loadedInv d'.
Proof.
  intros [Hk (dm & Hdm & Hind & Hlen) Hm Hnd Hq Hdeps Hmap]
    [[[Hf Hd _ _ _ _ _ _ _ _] Hp _ Hqq _] Hi _ Hj Hu].
  split; rewrite ?Hf, ?Hd, ?Hp, ?Hqq, ?Hi; try done.
  - by exists dm.
  - by apply Hu.
  - intros i p id Hip Hid. apply Hj. by eapply Hdeps.
Qed.

(** The governor and the installation of the page, on a document whose
    queue lists loaded slots and in which the dependencies of the page are
    resident. *)
Lemma installPage_inv d page number :
  loadedInv d → slot d number = None → 1 ≤ number ≤ Z.of_nat (length (pages d)) →
  (∀ id, id ∈ pg_deps page → is_Some (djvi d !! id)) →
  ∃ dG, releaseMemoryIfRequired (Some (pg_deps page)) d = (Ok tt, dG)
        ∧ loadedInv
            (set_lastRequestedPage
               (set_loadedPageNumbers
                  (set_pages dG (<[Z.to_nat (number - 1) := Some page]> (pages dG)))
                  (loadedPageNumbers dG ++ [Z.to_nat (number - 1)]))
               (Some page)).
Proof.
  intros [Hkind (dm & Hdm & Hind & Hlen) [m Hm] Hnd Hq Hdeps Hmap] Hs [Hlo Hhi] Hres.
  destruct (governor_props (Some (pg_deps page)) d m Hm) as (k & dG & -> & Hk & HqG & HpG
    & [mG HmG] & HjG & _ & _ & HfG & HdG & _ & _ & _ & HiG & _);
    [done|by intros i ?%Hq|done|].
  exists dG. split; [done|].
  assert (Hidx : (Z.to_nat (number - 1) < length (pages d))%nat) by lia.
  assert (Hempty : mjoin (pages d !! Z.to_nat (number - 1)) = None).
  { unfold slot in Hs. destruct (Z.ltb_spec number 1); [lia|done]. }
  destruct (accounted_queue_drop d k Hnd Hq) as [Hnd' Hq'].
  split; cbn [formId dirm pages memoryUsage loadedPageNumbers djvi idToPageNumberMap
              set_lastRequestedPage set_loadedPageNumbers set_pages].
  - congruence.
  - exists dm. rewrite HdG. split_and!; [done..|].
    by rewrite length_insert, HpG, clearSlots_length.
  - by exists mG.
  - rewrite HqG. apply NoDup_app. split_and!; [done| |apply NoDup_singleton].
    intros i Hi ->%list_elem_of_singleton. apply Hq' in Hi as [q Hi].
    rewrite clearSlots_lookup in Hi. destruct (decide _); congruence.
  - intros i. rewrite HqG, HpG, elem_of_app, list_elem_of_singleton, Hq'.
    destruct (decide (i = Z.to_nat (number - 1))) as [->|Hne].
    + rewrite list_lookup_insert_eq by (by rewrite clearSlots_length).
      simpl. split; [eauto|by right].
    + rewrite list_lookup_insert_ne by done. tauto.
  - intros i q id Hi Hid. rewrite HpG in Hi.
    destruct (decide (i = Z.to_nat (number - 1))) as [->|Hne].
    + rewrite list_lookup_insert_eq in Hi by (by rewrite clearSlots_length).
      simpl in Hi. injection Hi as <-.
      destruct HjG as [->|[_ ->]]; [by apply Hres|].
      rewrite lookup_filter_in. simpl. rewrite decide_True by done. by apply Hres.
    + rewrite list_lookup_insert_ne in Hi by done.
      rewrite clearSlots_lookup in Hi. destruct (decide (i ∈ take k _)) as [|Hout]; [done|].
      destruct HjG as [->|[-> _]].
      * by eapply Hdeps.
      * exfalso. apply Hout. rewrite firstn_all. apply Hq. by rewrite Hi.
  - congruence.
Qed.

(** A call of [getPage] under any schedule keeps what holds of an indirect
    document, and throws documented errors only. *)
Lemma getPageWith_inv s env number d r d' :
  loadedInv d → getPageWith s env number d = (r, d') →
  loadedInv d' ∧ ∀ e, r = Throw e → documentedError number e.
Proof.
  intros Hinv. rewrite getPageWith_unfold. cbv zeta. rewrite prologue_state.
  set (d1 := set_lastRequestedPage _ _).
  assert (Hinv1 : loadedInv d1) by (by eapply loadedInv_frame).
  destruct (slot d number) as [p|] eqn:Hs.
  { destruct Hinv as [Hk _ _ _ _ _ _]. rewrite Hk. simpl (_ =? _)%string.
    rewrite andb_false_r. mraw. intros [= <- <-]. split; [done|]. intros e [=]. }
  destruct (_ || _) eqn:Hc.
  { mraw. intros [= <- <-]. split; [done|]. intros e [= <-]. by left. }
  apply orb_false_iff in Hc as [Hc Hb]. apply orb_false_iff in Hc as [Hlo Hhi].
  apply Z.ltb_ge in Hlo, Hhi.
  unfold bind at 1.
  destruct (baseUrl d) as [base|] eqn:Hbase.
  2:{ unfold loadPageWith. mraw. cbn [baseUrl d1 set_lastRequestedPage set_trace].
      rewrite Hbase. intros [= <- <-]. split; [done|]. intros e [= <-]. right. by left. }
  destruct (li_dirm _ Hinv) as (dm & Hdm & Hind & Hlen).
  rewrite (loadPageWith_unfold s env number d1 base dm) by done. cbv zeta.
  set (url := base +:+ _). set (d0 := set_trace d1 _).
  assert (Hinv0 : loadedInv d0) by (by eapply loadedInv_frame).
  pose proof (await_grows s 0 d0) as HgL. set (dL := (await s 0 d0).2) in *. clearbody dL.
  pose proof (loadedInv_grows _ _ Hinv0 HgL) as HinvL.
  destruct (fetch env url) as [|[] b] eqn:Hf.
  { intros [= <- <-]. split; [done|]. intros e [= <-].
    apply (pageFetchError_documented number url NetworkFailure). }
  2:{ intros [= <- <-]. split; [done|]. intros e [= <-].
      apply (pageFetchError_documented number url (Response false b)). }
  pose proof (await_grows s 1 dL) as HgM. set (dM := (await s 1 dL).2) in *. clearbody dM.
  pose proof (loadedInv_grows _ _ HinvL HgM) as HinvM.
  destruct (readStr4 0 b =? "AT&T")%string.
  2:{ intros [= <- <-]. split; [done|]. intros e [= <-]. right. right. by left. }
  set (page := {| pg_ref := _ |}).
  set (deps := getDependencies env (forkFrom 4 b)).
  change (pg_deps page) with deps.
  set (dA := set_memoryUsage _ _).
  assert (HinvA : loadedInv (set_trace dA (trace dA ++ batchRequests dA deps))).
  { destruct HinvM as [? ? [v Hv] ? ? ? ?]. split; try done.
    subst dA. simpl. rewrite Hv. by eexists. }
  assert (HpM : pages dM = pages d).
  { rewrite (lf_pages _ _ (gr_frame _ _ HgM)), (lf_pages _ _ (gr_frame _ _ HgL)). done. }
  destruct (_loadDependenciesWith s 3 env deps number dA) as [rB dB] eqn:HrunB.
  destruct (loadDependenciesWith_result _ _ _ _ _ _ _ _ HrunB) as [HgB HrB].
  pose proof (loadedInv_grows _ _ HinvA HgB) as HinvB.
  assert (HpB : pages dB = pages d).
  { rewrite (lf_pages _ _ (gr_frame _ _ HgB)). exact HpM. }
  destruct rB as [[]|e].
  2:{ intros [= <- <-]. split; [done|]. intros e' [= <-].
      destruct HrB as (id & _ & He). apply fetchComponent_error in He.
      unfold documentedError. destruct He as [->|[->| ->]]; eauto 10. }
  pose proof (await_grows s 2 dB) as HgC. set (dC := (await s 2 dB).2) in *. clearbody dC.
  pose proof (loadedInv_grows _ _ HinvB HgC) as HinvC.
  assert (HpC : pages dC = pages d).
  { rewrite (lf_pages _ _ (gr_frame _ _ HgC)). exact HpB. }
  destruct (installPage_inv dC page number HinvC) as (dG & HrunG & HinvG).
  - unfold slot in *. by rewrite HpC.
  - by rewrite HpC.
  - intros id Hid. apply (gr_djvi _ _ HgC). by apply HrB.
  - change (pg_deps page) with deps in HrunG. rewrite HrunG.
    intros [= <- <-]. split; [done|]. intros e [=].
Qed.

Lemma getPage_inv env number d r d' :
  loadedInv d → getPage env number d = (r, d') →
  loadedInv d' ∧ ∀ e, r = Throw e → documentedError number e.
Proof. apply getPageWith_inv. Qed.

Lemma construct_loadedInv env dec arraybuffer base limit d :
  construct env dec arraybuffer base limit = Ok d → isBundled d = false → loadedInv d.
Proof.
  intros Hc Hb. destruct (construct_indirect _ _ _ _ _ _ Hc Hb) as (dm & nv & Hdm & ->).
  unfold _initMultiPageDocument. rewrite Hdm. split; simpl; try done.
  - exists dm. split_and!; [done..|]. by rewrite length_replicate.
  - by eexists.
  - apply NoDup_nil_2.
  - intros i. split; [by intros ?%not_elem_of_nil|].
    intros [p Hp]. destruct (replicate _ _ !! i) as [o|] eqn:Hl; [|done].
    apply lookup_replicate in Hl as [-> _]. done.
  - intros i p id Hp. destruct (replicate _ _ !! i) as [o|] eqn:Hl; [|done].
    apply lookup_replicate in Hl as [-> _]. done.
Qed.

Lemma afterCalls_loadedInv d0 d : loadedInv d0 → afterCalls d0 d → loadedInv d.
Proof.
  intros H0. induction 1 as [|s env number d r d' _ IH _ Hrun|i d d' _ IH Hland]; [done| |].
  - by destruct (getPageWith_inv _ _ _ _ _ _ IH Hrun).
  - destruct (land_grows i d) as [Hg _]. rewrite Hland in Hg. by eapply loadedInv_grows.
Qed.

(** X5. After any calls of [getPage] on a constructed indirect document,
    whatever their outcomes and whenever the callbacks they leave in flight
    land, the page slots are as many as the pages of the directory, the load
    queue lists exactly the loaded slots, each once, and every resource a
    loaded page depends on is resident; the counter is a number. *)
Theorem indirect_queue_and_resources env dec arraybuffer base limit d0 d :
  construct env dec arraybuffer base limit = Ok d0 → isBundled d0 = false →
  afterCalls d0 d →
  length (pages d) = getPagesQuantity d
  ∧ NoDup (loadedPageNumbers d)
  ∧ (∀ i, i ∈ loadedPageNumbers d ↔ is_Some (mjoin (pages d !! i)))
  ∧ (∀ number p id, slot d number = Some p → id ∈ pg_deps p → is_Some (djvi d !! id))
  ∧ ∃ v : Z, memoryUsage d = Some (Num v).
Proof.
  intros Hc Hb Hcalls.
  destruct (afterCalls_loadedInv d0 d (construct_loadedInv _ _ _ _ _ _ Hc Hb) Hcalls)
    as [_ (dm & Hdm & _ & Hlen) Hm Hnd Hq Hdeps _].
  split_and!; [|done|done| |done].
  - unfold getPagesQuantity. by rewrite Hdm.
  - intros number p id Hs. unfold slot in Hs. destruct (number <? 1); [done|].
    by eapply Hdeps.
Qed.

(** X6. After any calls of [getPage] on a constructed indirect document, a
    call of [getPage(n)] that fails, whatever lands during it (the
    transport delivering the body of every response it reads, of at least 16
    bytes), throws NoSuchPage for n, NoBaseUrl, CorruptedFile, or a Network
    or UnsuccessfulRequest error for page n: the governor never dereferences
    an empty slot or a missing resource. *)
Theorem indirect_getPage_errors env0 dec arraybuffer base limit d0 d s env number e d' :
  construct env0 dec arraybuffer base limit = Ok d0 → isBundled d0 = false →
  afterCalls d0 d → plainDependencies env d number → readableBodies env →
  getPageWith s env number d = (Throw e, d') →
  documentedError number e.
Proof.
  intros Hc Hb Hcalls _ _ Hrun.
  pose proof (afterCalls_loadedInv d0 d (construct_loadedInv _ _ _ _ _ _ Hc Hb) Hcalls)
    as Hinv.
  destruct (getPageWith_inv _ _ _ _ _ _ Hinv Hrun) as [_ He]. by apply He.
Qed.

(** X9. On an indirect document the identifier-to-page map is created
    empty and no call of [getPage] fills it: a reference "#ref" resolves
    only through its number, to [Math.round(Number(ref))] when that lies in
    [1, page count], and to [null] otherwise, also when [ref] is the
    identifier of a page. *)
Theorem indirect_getPageNumberByUrl env dec arraybuffer base limit d0 d roundNumber ref :
  construct env dec arraybuffer base limit = Ok d0 → isBundled d0 = false →
  afterCalls d0 d → plainKey ref →
  idToPageNumberMap d = Some ∅
  ∧ getPageNumberByUrl roundNumber d (String "#" ref)
    = Ok match roundNumber ref with
         | Some num => if bool_decide (1 ≤ num ≤ Z.of_nat (getPagesQuantity d))
                       then Some num else None
         | None => None
         end.
Proof.
  intros Hc Hb Hcalls _.
  destruct (afterCalls_loadedInv d0 d (construct_loadedInv _ _ _ _ _ _ Hc Hb) Hcalls)
    as [_ (dm & Hdm & _ & Hlen) _ _ _ _ Hmap].
  split; [done|].
  rewrite (getPageNumberByUrl_multipage roundNumber d ∅) by done.
  rewrite lookup_empty. unfold getPagesQuantity. by rewrite Hdm, Hlen.
Qed.

(** X7. On an indirect document reached by calls of [getPage], with no
    callback of an earlier batch in flight, when the request of the page
    file of an empty slot n and the requests of its dependencies that are
    not resident all deliver well-formed files, [getPage(n)] returns a new
    page object over the received file, whatever the schedule; the requests
    issued are that of the page followed by those of the missing
    dependencies; the k oldest entries of the load queue are evicted for
    some k, slot n then holds the page and n - 1 is appended to the queue;
    the dependencies of the page are resident afterwards and no callback is
    left in flight.  When the counter with the page and the fetched
    resources stays within the budget, nothing is evicted (k = 0): exactly
    slot n changes, and the counter is that sum. *)
Theorem indirect_getPage_loads env0 dec arraybuffer base0 limit d0 d s env number base dm b :
  construct env0 dec arraybuffer base0 limit = Ok d0 → isBundled d0 = false →
  afterCalls d0 d → inFlight d = [] →
  slot d number = None → 1 ≤ number ≤ Z.of_nat (length (pages d)) →
  baseUrl d = Some base → dirm d = Some dm →
  let url := base +:+ js_str "undefined" (getPageNameByItsNumber dm number) in
  fetch env url = Response true b → readStr4 0 b = "AT&T" →
  let deps := getDependencies env (forkFrom 4 b) in
  Forall plainKey deps →
  (∀ id, id ∈ unloaded d deps →
         ∃ c, fetchComponent env number (dependencyUrl d id) id = Ok c) →
  let page := {| pg_ref := nextRef d; pg_buffer := byteLength b;
                 pg_length := byteLength b - 4; pg_deps := deps |} in
  let queue := loadedPageNumbers d in
  ∃ k d',
    getPageWith s env number d = (Ok (Some page), d')
    ∧ (k ≤ length queue)%nat
    ∧ pages d' = <[Z.to_nat (number - 1) := Some page]> (clearSlots (take k queue) (pages d))
    ∧ loadedPageNumbers d' = drop k queue ++ [Z.to_nat (number - 1)]
    ∧ lastRequestedPage d' = Some page
    ∧ trace d' = trace d ++ releaseEvents d number ++ [EvFetch url] ++ batchRequests d deps
    ∧ (∀ id, id ∈ deps → is_Some (djvi d' !! id))
    ∧ inFlight d' = []
    ∧ (∀ m, memoryUsage d = Some m →
            let total := m + byteLength b
                         + sumZ (fetchedBytes env number d <$> unloaded d deps) in
            total ≤ memoryLimit d →
            k = 0%nat ∧ memoryUsage d' = Some total
            ∧ djvi d' = installDjvi env number d (batchOrder env d deps) (djvi d)).
Proof.
  intros Hc Hb0 Hcalls Hidle Hs Hr Hbase Hdm url Hf Hmagic deps _ Hok page queue.
  destruct (afterCalls_loadedInv d0 d (construct_loadedInv _ _ _ _ _ _ Hc Hb0) Hcalls)
    as [_ (dm' & Hdm' & Hind & _) [m Hm] Hnd Hq _ _].
  assert (dm' = dm) by congruence. subst dm'.
  rewrite getPageWith_idle by done.
  rewrite (getPage_empty_slot env number d dm) by done.
  set (d1 := set_lastRequestedPage _ _). unfold bind at 1.
  rewrite (loadPage_unfold env number d1 base dm) by done. cbv zeta.
  fold url. rewrite Hf, Hmagic. simpl (_ =? _)%string. cbv beta iota.
  fold deps. change (nextRef d1) with (nextRef d). fold page.
  change (pg_deps page) with deps.
  set (dA := set_memoryUsage _ _).
  rewrite (loadDependencies_state env deps number dA).
  set (order := batchOrder env d deps).
  change (batchOrder env dA deps) with order.
  assert (Hperm : order ≡ₚ unloaded d deps) by apply completionOrder_perm.
  assert (Hok' : ∀ id, id ∈ order →
                 ∃ c, fetchComponent env number (dependencyUrl d id) id = Ok c).
  { intros id Hid. apply Hok. by rewrite <- Hperm. }
  rewrite (firstFailure_ext env number dA d) by done.
  rewrite (firstFailure_all_ok env number d order Hok'). cbv beta iota.
  assert (Hff : firstFailure env number dA (batchOrder env dA deps) = None).
  { change (batchOrder env dA deps) with order.
    rewrite (firstFailure_ext env number dA d) by done. by apply firstFailure_all_ok. }
  rewrite (settledState_ok _ _ _ _ Hff).
  change (batchOrder env dA deps) with order.
  set (dB := set_trace _ _).
  set (mB := m + byteLength b + sumZ (fetchedBytes env number d <$> order)).
  assert (HmB : memoryUsage dB = Some mB).
  { subst dB mB. cbn [memoryUsage set_trace set_memoryUsage].
    change (memoryUsage dA) with (js_add (memoryUsage d) (byteLength b)).
    rewrite Hm. simpl js_add. rewrite counted_number.
    by change (fetchedBytes env number dA) with (fetchedBytes env number d). }
  assert (HjB : djvi dB = installDjvi env number d order (djvi d)) by done.
  assert (HiB : inFlight dB = []) by done.
  assert (HresB : ∀ id, id ∈ deps → is_Some (djvi dB !! id)).
  { intros id Hid. rewrite HjB, installDjvi_lookup by done.
    destruct (decide (id ∈ order)) as [Hin|Hin].
    - destruct (Hok' id Hin) as [c ->]. done.
    - destruct (djvi d !! id) eqn:Hl; [done|]. exfalso. apply Hin.
      rewrite Hperm. by apply list_elem_of_filter. }
  pose proof (releaseMemoryIfRequired_inFlight (Some deps) dB) as HiG.
  destruct (governor_props (Some deps) dB mB HmB) as (k & dG & HrunG & Hk & HqG & HpG & _
    & HjG & Hwithin & Hheld & _);
    [exact Hnd|intros i Hi; apply Hq; exact Hi|exact HresB|].
  rewrite HrunG in HiG |- *. simpl in HiG.
  change (loadedPageNumbers dB) with queue in *. change (pages dB) with (pages d) in *.
  change (memoryLimit dB) with (memoryLimit d) in *.
  destruct Hheld as [HtG HhG]; [done|].
  exists k. eexists. mstep.
  cbn [lastRequestedPage set_lastRequestedPage]. split; [reflexivity|].
  cbn [pages loadedPageNumbers trace djvi memoryUsage inFlight set_lastRequestedPage
       set_loadedPageNumbers set_pages].
  rewrite HpG, HqG, HtG. split_and!; try done.
  - subst dB. cbn [trace set_trace set_memoryUsage set_nextRef dA d1 set_djvi
                   set_lastRequestedPage].
    by rewrite <- !app_assoc.
  - intros id Hid. destruct HjG as [->|[_ ->]]; [by apply HresB|].
    rewrite lookup_filter_in. simpl. rewrite decide_True by done. by apply HresB.
  - by rewrite HiG.
  - intros m' Hm' Hle. assert (m' = m) by congruence. subst m'.
    assert (Htot : m + byteLength b + sumZ (fetchedBytes env number d <$> unloaded d deps)
                   = mB).
    { subst mB. by rewrite (sumZ_perm _ _ (fmap_Permutation _ _ _ Hperm)). }
    rewrite Htot in Hle |- *. destruct (Hwithin Hle) as [-> ->]. done.
Qed.

(** ** The parse of a bundled document *)

Lemma parseComponent_frame env d e :
  let d' := parseComponent env d e in
  formId d' = formId d ∧ dirm d' = dirm d ∧ navm d' = navm d ∧ baseUrl d' = baseUrl d
  ∧ memoryLimit d' = memoryLimit d ∧ bufferLength d' = bufferLength d
  ∧ memoryUsage d' = memoryUsage d ∧ loadedPageNumbers d' = loadedPageNumbers d
  ∧ lastRequestedPage d' = lastRequestedPage d
  ∧ isOnePageDependenciesLoaded d' = isOnePageDependenciesLoaded d
  ∧ trace d' = trace d.
Proof.
  cbv zeta. unfold parseComponent.
  repeat (match goal with |- context [if ?c then _ else _] => destruct c end); done.
Qed.

Lemma parseComponents_frame env es d :
  let d' := foldl (parseComponent env) d es in
  formId d' = formId d ∧ dirm d' = dirm d ∧ navm d' = navm d ∧ baseUrl d' = baseUrl d
  ∧ memoryLimit d' = memoryLimit d ∧ bufferLength d' = bufferLength d
  ∧ memoryUsage d' = memoryUsage d ∧ loadedPageNumbers d' = loadedPageNumbers d
  ∧ lastRequestedPage d' = lastRequestedPage d
  ∧ isOnePageDependenciesLoaded d' = isOnePageDependenciesLoaded d
  ∧ trace d' = trace d.
Proof.
  revert d. induction es as [|e es IH]; intros d; [done|]. simpl.
  specialize (IH (parseComponent env d e)). cbv zeta in IH.
  pose proof (parseComponent_frame env d e) as H. cbv zeta in H.
  destruct IH as (?&?&?&?&?&?&?&?&?&?&?), H as (?&?&?&?&?&?&?&?&?&?&?).
  split_and!; congruence.
Qed.

Lemma parseComponents_pages env es d :
  let pcs := filter (λ e, componentId (e_span e) = "FORMDJVU") es in
  pages (foldl (parseComponent env) d es)
  = pages d ++ imap (λ k e, Some (parsedPage env (bufferLength d) (nextRef d + k) e)) pcs
  ∧ nextRef (foldl (parseComponent env) d es) = (nextRef d + length pcs)%nat.
Proof.
  revert d. induction es as [|e es IH]; intros d; cbv zeta.
  { simpl. by rewrite app_nil_r, Nat.add_0_r. }
  simpl foldl. set (d1 := parseComponent env d e).
  specialize (IH d1). cbv zeta in IH.
  destruct IH as [IHp IHn]. rewrite IHp, IHn. rewrite filter_cons.
  destruct (String.eqb_spec (componentId (e_span e)) "FORMDJVU") as [Hid|Hid].
  - assert (H1 : pages d1 = pages d ++ [Some (parsedPage env (bufferLength d) (nextRef d) e)]
                 ∧ nextRef d1 = S (nextRef d) ∧ bufferLength d1 = bufferLength d).
    { subst d1. unfold parseComponent. by rewrite (proj2 (String.eqb_eq _ _) Hid). }
    destruct H1 as (-> & -> & ->).
    rewrite decide_True by done. simpl. rewrite <- app_assoc. simpl.
    rewrite Nat.add_0_r. split; [|lia]. do 2 f_equal.
    apply imap_ext. intros k x _. simpl. do 2 f_equal. lia.
  - assert (H1 : pages d1 = pages d ∧ nextRef d1 = nextRef d
                 ∧ bufferLength d1 = bufferLength d).
    { subst d1. unfold parseComponent. apply String.eqb_neq in Hid. rewrite Hid.
      repeat (match goal with |- context [if ?c then _ else _] => destruct c end); done. }
    destruct H1 as (-> & -> & ->). by rewrite decide_False by done.
Qed.

Lemma parseComponents_djvi env es d id :
  is_Some (djvi (foldl (parseComponent env) d es) !! id)
  ↔ is_Some (djvi d !! id)
    ∨ ∃ e, e ∈ es ∧ componentId (e_span e) = "FORMDJVI" ∧ e_id e = id.
Proof.
  revert d. induction es as [|e es IH]; intros d; simpl.
  { split; [by left|]. intros [?|(e & ?%not_elem_of_nil & _)]; done. }
  rewrite IH. clear IH.
  assert (Hstep : is_Some (djvi (parseComponent env d e) !! id)
                  ↔ is_Some (djvi d !! id)
                    ∨ (componentId (e_span e) = "FORMDJVI" ∧ e_id e = id)).
  { unfold parseComponent.
    destruct (String.eqb_spec (componentId (e_span e)) "FORMDJVU") as [Hu|Hu].
    { simpl. split; [by left|]. intros [?|[? _]]; [done|congruence]. }
    destruct (String.eqb_spec (componentId (e_span e)) "FORMDJVI") as [Hi|Hi].
    { simpl. destruct (decide (e_id e = id)) as [->|Hne].
      - rewrite lookup_insert_eq. split; [by right|done].
      - rewrite lookup_insert_ne by done. split; [by left|]. by intros [?|[_ ?]]. }
    destruct (_ =? _)%string; simpl; (split; [by left|]); by intros [?|[? _]]. }
  rewrite Hstep. split.
  - intros [[?|[? ?]]|(x & Hx & ? & ?)]; [by left| |].
    + right. exists e. split; [by left|done].
    + right. exists x. split; [by right|done].
  - intros [?|(x & [->|Hx]%elem_of_cons & ? & ?)]; [by left; left|by left; right|].
    right. by exists x.
Qed.

Lemma parseComponents_thumbs env es d :
  thumbs (foldl (parseComponent env) d es)
  = thumbs d ++ (e_span <$> filter (λ e, componentId (e_span e) = "FORMTHUM") es).
Proof.
  revert d. induction es as [|e es IH]; intros d; simpl.
  { by rewrite app_nil_r. }
  rewrite IH, filter_cons. unfold parseComponent.
  destruct (String.eqb_spec (componentId (e_span e)) "FORMDJVU") as [Hu|Hu].
  { rewrite decide_False by congruence. done. }
  destruct (String.eqb_spec (componentId (e_span e)) "FORMDJVI") as [Hi|Hi].
  { rewrite decide_False by congruence. done. }
  destruct (String.eqb_spec (componentId (e_span e)) "FORMTHUM") as [Ht|Ht].
  - rewrite decide_True by done. simpl. by rewrite <- app_assoc.
  - by rewrite decide_False by done.
Qed.

Lemma parseComponents_map env es d (m : gmap string Z) :
  idToPageNumberMap d = Some m →
  let pcs := filter (λ e, componentId (e_span e) = "FORMDJVU") es in
  ∃ m' : gmap string Z, idToPageNumberMap (foldl (parseComponent env) d es) = Some m'
        ∧ (∀ id v, m' !! id = Some v →
             m !! id = Some v
             ∨ ∃ k e, pcs !! k = Some e ∧ e_id e = id
                      ∧ v = Z.of_nat (length (pages d) + S k))
        ∧ (NoDup (e_id <$> pcs) →
           (∀ k e, pcs !! k = Some e →
                   m' !! e_id e = Some (Z.of_nat (length (pages d) + S k)))
           ∧ ∀ id, id ∉ (e_id <$> pcs) → m' !! id = m !! id).
Proof.
  revert d m. induction es as [|e es IH]; intros d m Hm; cbv zeta.
  { simpl. exists m. split_and!; auto. intros _. split; [|done]. by intros k e [=]. }
  simpl foldl. rewrite filter_cons.
  destruct (String.eqb_spec (componentId (e_span e)) "FORMDJVU") as [Hid|Hid].
  - rewrite decide_True by done.
    set (d1 := parseComponent env d e).
    assert (Hm1 : idToPageNumberMap d1
                  = Some (<[e_id e := Z.of_nat (length (pages d) + 1)]> m)).
    { subst d1. unfold parseComponent. rewrite (proj2 (String.eqb_eq _ _) Hid).
      simpl. rewrite Hm. simpl. by rewrite length_app. }
    assert (Hl1 : length (pages d1) = S (length (pages d))).
    { subst d1. unfold parseComponent. rewrite (proj2 (String.eqb_eq _ _) Hid).
      simpl. rewrite length_app. simpl. lia. }
    destruct (IH d1 _ Hm1) as (m' & Hm' & Ha & Hb). cbv zeta in Ha, Hb.
    exists m'. split; [done|]. split.
    + intros id v Hv. destruct (Ha id v Hv) as [Hin|(k & x & Hk & Hx & ->)].
      * destruct (decide (e_id e = id)) as [<-|Hne].
        -- rewrite lookup_insert_eq in Hin. injection Hin as <-.
           right. exists 0%nat, e. split_and!; [done..|]. f_equal; lia.
        -- rewrite lookup_insert_ne in Hin by done. by left.
      * right. exists (S k), x. split_and!; [done..|]. rewrite Hl1. f_equal; lia.
    + rewrite fmap_cons. intros [Hnot Hnd]%NoDup_cons.
      destruct (Hb Hnd) as [Hb1 Hb2]. split.
      * intros [|k] x Hk; simpl in Hk.
        -- injection Hk as <-. rewrite Hb2 by done. rewrite lookup_insert_eq.
           do 2 f_equal; lia.
        -- rewrite (Hb1 k x Hk). rewrite Hl1. do 2 f_equal; lia.
      * intros id Hid'. rewrite Hb2 by (intros ?; apply Hid'; by right).
        rewrite lookup_insert_ne; [done|]. intros <-. apply Hid'. by left.
  - rewrite decide_False by done.
    set (d1 := parseComponent env d e).
    assert (Hm1 : idToPageNumberMap d1 = Some m ∧ pages d1 = pages d).
    { subst d1. unfold parseComponent. apply String.eqb_neq in Hid. rewrite Hid.
      repeat (match goal with |- context [if ?c then _ else _] => destruct c end); done. }
    destruct Hm1 as [Hm1 Hp1]. destruct (IH d1 _ Hm1) as (m' & Hm' & Ha & Hb).
    cbv zeta in Ha, Hb. rewrite Hp1 in Ha, Hb. by exists m'.
Qed.

(** The bundled documents the constructor returns. *)
Lemma construct_bundled env dec arraybuffer base limit d dm :
  construct env dec arraybuffer base limit = Ok d → dirm d = Some dm →
  dirmIsBundled dm = true →
  dm = decodeDirm dec arraybuffer
  ∧ d = _parseComponents env dm
          (set_idToPageNumberMap
             (set_thumbs
                (set_pages
                   (set_dirm_navm
                      (blankDocument "FORMDJVM" (byteLength arraybuffer)
                         (constructorBaseUrl (resolveUrl dec) base) limit)
                      dm (decodeNavm dec arraybuffer)) []) []) (Some ∅)).
Proof.
  unfold construct. destruct (negb _); [done|].
  destruct (String.eqb_spec (readStr4 4 arraybuffer +:+ readStr4 12 arraybuffer) "FORMDJVM")
    as [Hid|Hid].
  - destruct (negb _); [done|]. intros [= <-]. rewrite Hid.
    unfold _initMultiPageDocument.
    destruct (dirmIsBundled (decodeDirm dec arraybuffer)) eqn:Hb.
    + unfold _parseComponents at 1. rewrite parseComponents_dirm. simpl.
      intros [= <-]. done.
    + simpl. intros [= <-]. congruence.
  - destruct (_ =? _)%string; [|done]. intros [= <-]. done.
Qed.

Lemma construct_bundled_state env dec arraybuffer base limit d dm :
  construct env dec arraybuffer base limit = Ok d → dirm d = Some dm →
  dirmIsBundled dm = true →
  formId d = "FORMDJVM"
  ∧ pages d = imap (λ k e, Some (parsedPage env (byteLength arraybuffer) k e))
                   (pageComponents dm)
  ∧ memoryUsage d = None ∧ trace d = []
  ∧ ∃ m : gmap string Z, idToPageNumberMap d = Some m
         ∧ (∀ id v, m !! id = Some v →
              ∃ k e, pageComponents dm !! k = Some e ∧ e_id e = id ∧ v = Z.of_nat (S k))
         ∧ (NoDup (e_id <$> pageComponents dm) →
            ∀ k e, pageComponents dm !! k = Some e → m !! e_id e = Some (Z.of_nat (S k))).
Proof.
  intros Hc Hdm Hb. destruct (construct_bundled _ _ _ _ _ _ _ Hc Hdm Hb) as [_ ->].
  unfold _parseComponents. set (d0 := set_idToPageNumberMap _ _).
  destruct (parseComponents_pages env (entries dm) d0) as [Hp _].
  pose proof (parseComponents_frame env (entries dm) d0) as Hfr. cbv zeta in Hfr.
  destruct Hfr as (Hf&_&_&_&_&_&Hm&_&_&_&Ht).
  destruct (parseComponents_map env (entries dm) d0 ∅ eq_refl) as (m & Hmap & Ha & Hb').
  cbv zeta in Ha, Hb'.
  split_and!; [by rewrite Hf|by rewrite Hp|by rewrite Hm|by rewrite Ht|].
  exists m. split; [done|]. split.
  - intros id v Hv. destruct (Ha id v Hv) as [Hin|H]; [by rewrite lookup_empty in Hin|].
    exact H.
  - intros Hnd. by destruct (Hb' Hnd).
Qed.

(** X1. The constructor of a bundled document (every file of the directory
    spanning at least 12 bytes) builds one page for each file of the
    directory whose chunk is a FORMDJVU form, in directory
    order, numbering the page objects from 0; the resources are the files
    whose chunk is a FORMDJVI form and the thumbnails those whose chunk is a
    FORMTHUM form; files with any other tag are skipped.  The files are told
    apart by the tags of their chunks, not by the flags of the directory;
    the counter stays undefined, nothing is queued and nothing requested. *)
Theorem bundled_parse env dec arraybuffer base limit d dm :
  construct env dec arraybuffer base limit = Ok d → dirm d = Some dm →
  dirmIsBundled dm = true → readableFiles dm →
  pages d = imap (λ k e, Some (parsedPage env (byteLength arraybuffer) k e))
                 (pageComponents dm)
  ∧ (∀ id, plainKey id →
           (is_Some (djvi d !! id) ↔ id ∈ e_id <$> sharedComponents dm))
  ∧ thumbs d = e_span <$> thumbComponents dm
  ∧ memoryUsage d = None ∧ loadedPageNumbers d = [] ∧ trace d = [].
Proof.
  intros Hc Hdm Hb _.
  destruct (construct_bundled_state _ _ _ _ _ _ _ Hc Hdm Hb) as (_ & Hp & Hm & Ht & _).
  destruct (construct_bundled _ _ _ _ _ _ _ Hc Hdm Hb) as [_ ->].
  unfold _parseComponents in *. set (d0 := set_idToPageNumberMap _ _) in *.
  pose proof (parseComponents_frame env (entries dm) d0) as Hfr. cbv zeta in Hfr.
  destruct Hfr as (_&_&_&_&_&_&_&Hq&_&_&_).
  split_and!; [done| | |done|by rewrite Hq|done].
  - intros id _. rewrite parseComponents_djvi. simpl. rewrite lookup_empty.
    unfold sharedComponents. rewrite list_elem_of_fmap. split.
    + intros [[? [=]]|(e & He & Hi & <-)]. exists e. split; [done|].
      by apply list_elem_of_filter.
    + intros (e & -> & [Hi He]%list_elem_of_filter). right. by exists e.
  - by rewrite parseComponents_thumbs.
Qed.

Lemma parseComponents_inFlight env es d :
  inFlight (foldl (parseComponent env) d es) = inFlight d.
Proof.
  revert d. induction es as [|e es IH]; intros d; [done|]. simpl. rewrite IH.
  unfold parseComponent. repeat case_match; done.
Qed.

Lemma construct_bundled_idle env dec arraybuffer base limit d dm :
  construct env dec arraybuffer base limit = Ok d → dirm d = Some dm →
  dirmIsBundled dm = true → inFlight d = [].
Proof.
  intros Hc Hdm Hb. destruct (construct_bundled _ _ _ _ _ _ _ Hc Hdm Hb) as [_ ->].
  unfold _parseComponents. by rewrite parseComponents_inFlight.
Qed.

Lemma construct_bundledInv env dec arraybuffer base limit d :
  construct env dec arraybuffer base limit = Ok d → isBundled d = true →
  dirm d ≠ None → bundledInv d d.
Proof.
  intros Hc Hb Hdm. destruct (dirm d) as [dm|] eqn:Hd; [|done].
  assert (Hbd : dirmIsBundled dm = true) by (unfold isBundled in Hb; by rewrite Hd in Hb).
  destruct (construct_bundled_state _ _ _ _ _ _ _ Hc Hd Hbd) as (Hk & Hp & Hm & Ht & _).
  pose proof (construct_bundled_idle _ _ _ _ _ _ _ Hc Hd Hbd) as Hidle.
  split; try done.
  - rewrite Ht. constructor.
  - intros i Hi. rewrite Hp in Hi |- *. rewrite length_imap in Hi.
    destruct (lookup_lt_is_Some_2 (pageComponents dm) i Hi) as [e He].
    rewrite list_lookup_imap, He. simpl. done.
Qed.

Lemma getPage_bundledInv env number d0 d :
  bundledInv d0 d →
  ∃ d', getPage env number d
        = (match slot d0 number with
           | Some p => Ok (Some p)
           | None => Throw (NoSuchPageDjVuError number)
           end, d')
        ∧ bundledInv d0 d'.
Proof.
  intros [Hk Hb Hdm Hp Hj Hmap Hm Hidle Ht Hl].
  assert (Hslot : slot d number = slot d0 number) by (unfold slot; by rewrite Hp).
  rewrite getPage_unfold. cbv zeta. rewrite prologue_state, Hslot.
  set (d1 := set_lastRequestedPage _ _).
  assert (Hinv1 : bundledInv d0 d1).
  { split; try done. simpl. apply Forall_app. split; [done|].
    unfold releaseEvents. destruct (lastRequestedPage d); [destruct (sameRef _ _)|];
      repeat constructor. }
  destruct (slot d0 number) as [p|] eqn:Hs.
  - rewrite Hk. simpl (_ =? _)%string. rewrite andb_false_r. mstep.
    eexists. split; [reflexivity|]. done.
  - rewrite Hb, orb_true_r. mstep. eexists. split; [reflexivity|done].
Qed.

Lemma afterCalls_bundledInv d0 d : bundledInv d0 d0 → afterCalls d0 d → bundledInv d0 d.
Proof.
  intros H0. induction 1 as [|s env number d r d' _ IH _ Hrun|i d d' _ IH Hland]; [done| |].
  - destruct (getPage_bundledInv env number d0 d IH) as (d'' & Hrun' & Hinv).
    rewrite (getPageWith_idle s), Hrun' in Hrun by apply IH.
    by inversion Hrun; subst.
  - rewrite land_idle in Hland by apply IH. by inversion Hland; subst.
Qed.

(** X2. After any calls of [getPage] on a constructed bundled document, the
    page slots and resources are those of the construction, the counter is
    still undefined and no request was ever issued; a slot holds a page
    exactly when its number lies in [1, pages.length], and [getPage(n)]
    returns the page of slot n, or throws NoSuchPage when there is none. *)
Theorem bundled_getPage env0 dec arraybuffer base limit d0 d env number :
  construct env0 dec arraybuffer base limit = Ok d0 → isBundled d0 = true →
  dirm d0 ≠ None → afterCalls d0 d →
  pages d = pages d0 ∧ djvi d = djvi d0 ∧ memoryUsage d = None
  ∧ Forall isReset (trace d)
  ∧ (is_Some (slot d0 number) ↔ 1 ≤ number ≤ Z.of_nat (length (pages d0)))
  ∧ ∃ d', getPage env number d
          = (match slot d0 number with
             | Some p => Ok (Some p)
             | None => Throw (NoSuchPageDjVuError number)
             end, d').
Proof.
  intros Hc Hb Hdm Hcalls.
  pose proof (afterCalls_bundledInv d0 d (construct_bundledInv _ _ _ _ _ _ Hc Hb Hdm) Hcalls)
    as Hinv.
  destruct (getPage_bundledInv env number d0 d Hinv) as (d' & Hrun & _).
  destruct Hinv as [_ _ _ Hp Hj _ Hm _ Ht Hl].
  split_and!; try done; [|by exists d'].
  unfold slot. destruct (Z.ltb_spec number 1) as [Hlt|Hge].
  - split; [by intros [? ?]|lia].
  - split.
    + intros [p Hs]. destruct (pages d0 !! Z.to_nat (number - 1)) eqn:Hlk; [|done].
      apply lookup_lt_Some in Hlk. lia.
    + intros [_ Hhi]. apply Hl. lia.
Qed.

(** X3. On a bundled document, whenever [getPageNumberByUrl] resolves a
    reference "#ref" to a number n, that number lies in [1, pages.length]
    and [getPage(n)] returns the page of slot n. *)
Theorem bundled_reference_loads env0 dec arraybuffer base limit d0 d roundNumber ref n env :
  construct env0 dec arraybuffer base limit = Ok d0 → isBundled d0 = true →
  dirm d0 ≠ None → afterCalls d0 d → plainKey ref →
  getPageNumberByUrl roundNumber d (String "#" ref) = Ok (Some n) →
  1 ≤ n ≤ Z.of_nat (length (pages d))
  ∧ ∃ p d', slot d n = Some p ∧ getPage env n d = (Ok (Some p), d').
Proof.
  intros Hc Hb Hdm Hcalls _ Hurl.
  pose proof (afterCalls_bundledInv d0 d (construct_bundledInv _ _ _ _ _ _ Hc Hb Hdm) Hcalls)
    as Hinv.
  destruct (getPage_bundledInv env n d0 d Hinv) as (d' & Hrun & _).
  destruct Hinv as [_ _ _ Hp _ Hmap _ _ _ Hl].
  destruct (dirm d0) as [dm|] eqn:Hd; [|done].
  assert (Hbd : dirmIsBundled dm = true) by (unfold isBundled in Hb; by rewrite Hd in Hb).
  destruct (construct_bundled_state _ _ _ _ _ _ _ Hc Hd Hbd)
    as (_ & Hp0 & _ & _ & m & Hm & Hval & _).
  assert (Hlen : length (pages d0) = length (pageComponents dm)).
  { by rewrite Hp0, length_imap. }
  assert (Hrange : 1 ≤ n ≤ Z.of_nat (length (pages d0))).
  { rewrite (getPageNumberByUrl_multipage roundNumber d m) in Hurl.
    - injection Hurl as Hurl. destruct (m !! ref) as [v|] eqn:Hv.
      + injection Hurl as <-. destruct (Hval ref v Hv) as (k & e & Hk & _ & ->).
        apply lookup_lt_Some in Hk. lia.
      + destruct (roundNumber ref) as [num|]; [|done].
        case_bool_decide as Hr; [|done]. injection Hurl as <-. by rewrite Hp in Hr.
    - by rewrite Hmap.
    - intros x v Hv. destruct (Hval x v Hv) as (k & e & _ & _ & ->). lia. }
  rewrite Hp. split; [done|].
  assert (Hs : is_Some (slot d0 n)).
  { unfold slot. destruct (Z.ltb_spec n 1); [lia|]. apply Hl. lia. }
  destruct Hs as [p Hs]. rewrite Hs in Hrun. exists p, d'. split; [|done].
  unfold slot in *. by rewrite Hp.
Qed.

(** X4. On a bundled document whose page files have pairwise distinct
    identifiers, the reference "#" followed by the identifier of the k-th
    page file (counting from 0) resolves to k + 1, whatever
    [Math.round(Number(id))] is, and [getPage(k + 1)] returns the page
    object built from that file. *)
Theorem bundled_identifier_round_trip env0 dec arraybuffer base limit d0 d dm
    roundNumber k e env :
  construct env0 dec arraybuffer base limit = Ok d0 → dirm d0 = Some dm →
  dirmIsBundled dm = true → readableFiles dm → afterCalls d0 d →
  NoDup (e_id <$> pageComponents dm) → pageComponents dm !! k = Some e →
  e_id e ≠ "__proto__" →
  getPageNumberByUrl roundNumber d (String "#" (e_id e)) = Ok (Some (Z.of_nat (S k)))
  ∧ ∃ d', getPage env (Z.of_nat (S k)) d
          = (Ok (Some (parsedPage env0 (byteLength arraybuffer) k e)), d').
Proof.
  intros Hc Hd Hbd _ Hcalls Hnd Hk _.
  assert (Hb : isBundled d0 = true) by (unfold isBundled; by rewrite Hd).
  assert (Hdm : dirm d0 ≠ None) by congruence.
  pose proof (afterCalls_bundledInv d0 d (construct_bundledInv _ _ _ _ _ _ Hc Hb Hdm) Hcalls)
    as Hinv.
  destruct (getPage_bundledInv env (Z.of_nat (S k)) d0 d Hinv) as (d' & Hrun & _).
  destruct Hinv as [_ _ _ Hp _ Hmap _ _ _ Hl].
  destruct (construct_bundled_state _ _ _ _ _ _ _ Hc Hd Hbd)
    as (_ & Hp0 & _ & _ & m & Hm & Hval & Hfind).
  split.
  - rewrite (getPageNumberByUrl_multipage roundNumber d m).
    + by rewrite (Hfind Hnd k e Hk).
    + by rewrite Hmap.
    + intros x v Hv. destruct (Hval x v Hv) as (j & e' & _ & _ & ->). lia.
  - exists d'. rewrite Hrun. f_equal.
    unfold slot. destruct (Z.ltb_spec (Z.of_nat (S k)) 1); [lia|].
    replace (Z.to_nat (Z.of_nat (S k) - 1)) with k by lia.
    rewrite Hp0, list_lookup_imap, Hk. done.
Qed.

(** ** The governor, run twice *)

Lemma rebuilt_fixpoint d v :
  memoryUsage d = Some v → lastRequestedPage d = None →
  set_djvi (set_memoryUsage (set_lastRequestedPage (set_trace d (trace d ++ [])) None)
              (Some v)) (djvi d) = d.
Proof.
  destruct d; simpl. intros -> ->. unfold set_djvi, set_memoryUsage, set_lastRequestedPage,
    set_trace. simpl. by rewrite app_nil_r.
Qed.

Lemma filter_in_idemp (m : gmap string DjViChunk) (ids : list string) :
  filter (λ kc, kc.1 ∈ ids) (filter (λ kc, kc.1 ∈ ids) m) = filter (λ kc, kc.1 ∈ ids) m.
Proof.
  apply map_eq. intros x. rewrite !lookup_filter_in. by destruct (decide _).
Qed.

(** X12. Running the governor a second time with the same preserved
    identifiers changes nothing (the queue listing loaded slots without
    repetition, the preserved identifiers resident and pairwise distinct):
    the first run leaves the counter within the budget, or a document with
    no loaded page whose resources are exactly the preserved ones and whose
    counter the second run adds to and subtracts from equally. *)
Theorem releaseMemoryIfRequired_idempotent pres d :
  is_Some (memoryUsage d) → NoDup (loadedPageNumbers d) →
  (∀ i, i ∈ loadedPageNumbers d → is_Some (mjoin (pages d !! i))) →
  NoDup (default [] pres) → Forall plainKey (default [] pres) →
  (∀ id, id ∈ default [] pres → is_Some (djvi d !! id)) →
  ∃ d', releaseMemoryIfRequired pres d = (Ok tt, d')
        ∧ releaseMemoryIfRequired pres d' = (Ok tt, d').
Proof.
  intros [[|m] Hm] Hnd Hq Hpnd _ Hpres.
  { assert (Hrun : releaseMemoryIfRequired pres d = (Ok tt, d)).
    { unfold releaseMemoryIfRequired. mstep. rewrite Hm. simpl.
      destruct (loadedPageNumbers d); simpl; rewrite !Hm; simpl; by rewrite Hm. }
    exists d. by rewrite Hrun. }
  destruct (Z.le_gt_cases m (memoryLimit d)) as [Hle|Hgt].
  { exists d. by rewrite (releaseMemoryIfRequired_within _ _ _ Hm Hle). }
  destruct (releaseMemoryIfRequired_run pres d m Hm) as (k & Hk & _ & Hend & Hrun);
    [lia|done..|].
  cbv zeta in Hend, Hrun. eexists. split; [exact Hrun|].
  set (m1 := m - sumZ (pageBytesAt (pages d) <$> take k (loadedPageNumbers d))) in *.
  destruct (decide (m1 ≤ memoryLimit d)) as [Hle|Hgt'].
  { by apply (releaseMemoryIfRequired_within _ _ m1). }
  destruct Hend as [?|Hend]; [lia|].
  set (m2 := m1 + sumZ (residentBytes (djvi d) <$> default [] pres) - djviBytes (djvi d)).
  set (d' := set_djvi _ _).
  assert (Hm' : memoryUsage d' = Some m2) by done.
  destruct (Z.le_gt_cases m2 (memoryLimit d')) as [Hle2|Hgt2].
  { by apply (releaseMemoryIfRequired_within _ _ m2). }
  assert (Hq' : loadedPageNumbers d' = []).
  { subst d'. unfold evicted. simpl. rewrite Hend. apply drop_all. }
  assert (Hres' : ∀ id, id ∈ default [] pres → is_Some (djvi d' !! id)).
  { intros id Hid. subst d'. simpl. rewrite lookup_filter_in.
    rewrite decide_True by done. by apply Hpres. }
  destruct (releaseMemoryIfRequired_run pres d' m2 Hm') as (k' & Hk' & _ & _ & Hrun');
    [lia|rewrite Hq'; apply NoDup_nil_2|
     intros i Hi; rewrite Hq' in Hi; by apply not_elem_of_nil in Hi|done|].
  cbv zeta in Hrun'. rewrite Hrun'. f_equal.
  rewrite Hq' in Hk' |- *. simpl in Hk'. assert (k' = 0%nat) by lia. subst k'.
  simpl take. simpl fmap. change (sumZ []) with 0. rewrite Z.sub_0_r.
  rewrite decide_False by (change (memoryLimit d) with (memoryLimit d') in *; lia).
  rewrite evicted_0 by done.
  change (lastRequestedPage d') with (@None DjVuPage). cbv beta iota.
  assert (Hj : filter (λ kc, kc.1 ∈ default [] pres) (djvi d') = djvi d').
  { subst d'. simpl. apply filter_in_idemp. }
  rewrite Hj.
  assert (Hb : m2 + sumZ (residentBytes (djvi d') <$> default [] pres) - djviBytes (djvi d')
               = m2).
  { rewrite (kept_bytes (djvi d')) by done. rewrite Hj. lia. }
  change (filter (λ kc : string * DjViChunk, kc.1 ∈ default [] pres) (djvi d))
    with (djvi d').
  rewrite Hb. by apply rebuilt_fixpoint.
Qed.

(** ** A single-page document *)

Lemma construct_single env dec arraybuffer base limit d :
  construct env dec arraybuffer base limit = Ok d → dirm d = None →
  d = set_nextRef
        (set_pages
           (blankDocument "FORMDJVU" (byteLength arraybuffer)
              (constructorBaseUrl (resolveUrl dec) base) limit)
           [Some {| pg_ref := 0; pg_buffer := byteLength arraybuffer;
                    pg_length := getInt32 8 arraybuffer + 8;
                    pg_deps := getDependencies env (forkFrom 4 arraybuffer) |}])
        1%nat.
Proof.
  unfold construct. destruct (negb _); [done|].
  destruct (String.eqb_spec (readStr4 4 arraybuffer +:+ readStr4 12 arraybuffer) "FORMDJVM")
    as [Hid|Hid].
  - destruct (negb _); [done|]. intros [= <-]. unfold _initMultiPageDocument.
    destruct (dirmIsBundled _); [|done].
    unfold _parseComponents. by rewrite parseComponents_dirm.
  - destruct (String.eqb_spec (readStr4 4 arraybuffer +:+ readStr4 12 arraybuffer) "FORMDJVU")
      as [Hid'|]; [|done].
    intros [= <-] _. by rewrite Hid'.
Qed.

Lemma unloaded_empty d deps : djvi d = ∅ → unloaded d deps = deps.
Proof.
  intros Hj. unfold unloaded. induction deps as [|x l IH]; [done|].
  rewrite filter_cons, decide_True by (by rewrite Hj, lookup_empty). by rewrite IH.
Qed.

Lemma counted_NaN sizes : counted (Some NaN) sizes = Some NaN.
Proof. induction sizes as [|x l IH]; [done|]. exact IH. Qed.

Lemma counted_undefined sizes :
  counted None sizes = match sizes with [] => None | _ :: _ => Some NaN end.
Proof. destruct sizes as [|x l]; [done|]. exact (counted_NaN l). Qed.

(** X11. The first [getPage(1)] on a constructed single-page document,
    whatever lands at its awaits, requests every dependency of the page at
    the base location followed by the identifier itself; no base location is
    required, a missing one reads as "null" (the bodies delivered holding at
    least 16 bytes).  The counter, undefined after the construction, stays
    undefined as long as no resource is installed and is NaN from the first
    installed resource on.  When all requests deliver shared-resource files
    the resources are resident, the flag [isOnePageDependenciesLoaded] is
    set, no callback is in flight and any later [getPage(1)] returns the page
    without a request; when one fails the call throws its error for page 1
    and the flag stays unset, also after any of the callbacks still in
    flight have landed: these change neither the pages nor the requests, and
    leave the counter undefined or NaN. *)
Theorem single_page_first_access env0 dec arraybuffer base limit d s env r d' :
  construct env0 dec arraybuffer base limit = Ok d → dirm d = None →
  let deps := getDependencies env0 (forkFrom 4 arraybuffer) in
  let page := {| pg_ref := 0; pg_buffer := byteLength arraybuffer;
                 pg_length := getInt32 8 arraybuffer + 8; pg_deps := deps |} in
  let settled := okPrefix env 1 d (batchOrder env d deps) in
  Forall plainKey deps → readableBodies env →
  getPageWith s env 1 d = (r, d') →
  trace d' = (λ id, EvFetch (js_str "null" (baseUrl d) +:+ id)) <$> deps
  ∧ pages d' = [Some page] ∧ lastRequestedPage d' = Some page
  ∧ memoryUsage d' = match settled with [] => None | _ :: _ => Some NaN end
  ∧ match r with
    | Ok v =>
        v = Some page ∧ isOnePageDependenciesLoaded d' = true ∧ inFlight d' = []
        ∧ (∀ id, id ∈ deps → is_Some (djvi d' !! id))
        ∧ ∀ s' env', getPageWith s' env' 1 d' = (Ok (Some page), d')
    | Throw e =>
        isOnePageDependenciesLoaded d' = false
        ∧ (∃ id, id ∈ deps
                 ∧ fetchComponent env 1 (js_str "null" (baseUrl d) +:+ id) id = Throw e)
        ∧ ∀ indices d'', landAll indices d' = (Ok tt, d'') →
            isOnePageDependenciesLoaded d'' = false ∧ pages d'' = [Some page]
            ∧ trace d'' = trace d'
            ∧ (memoryUsage d'' = None ∨ memoryUsage d'' = Some NaN)
    end.
Proof.
  intros Hc Hdm deps page settled _ _. revert settled.
  rewrite (construct_single _ _ _ _ _ _ Hc Hdm).
  fold deps. fold page. set (d0 := set_nextRef _ _). intros settled.
  rewrite getPageWith_idle by done.
  rewrite getPage_unfold. cbv zeta.
  change (slot d0 1) with (Some page). change (lastRequestedPage d0) with (@None DjVuPage).
  cbv beta iota. change (isOnePageDependenciesLoaded d0) with false.
  change (formId d0) with "FORMDJVU". simpl (negb _ && _). cbv beta iota.
  change (pg_deps page) with deps.
  set (d1 := set_lastRequestedPage d0 (Some page)).
  assert (Hload : (match deps with [] => ret tt | _ => _loadDependencies env deps 1 end) d1
                  = _loadDependencies env deps 1 d1).
  { destruct deps eqn:Hd; [|done]. by rewrite loadDependencies_none. }
  unfold bind at 1 2. rewrite Hload.
  assert (Hun : unloaded d1 deps = deps) by (by apply unloaded_empty).
  assert (Hurl : ∀ id, dependencyUrl d1 id = js_str "null" (baseUrl d0) +:+ id) by done.
  destruct (_loadDependencies env deps 1 d1) as [rB dB] eqn:HrunB.
  destruct (loadDependencies_result _ _ _ _ _ _ HrunB)
    as ([[_ _ _ _ _ Hone _ _ _ _] HpB HhB _ _] & HtB & _ & _ & HrB).
  pose proof (loadDependencies_state env deps 1 d1) as Hst. rewrite HrunB in Hst.
  assert (HmB : memoryUsage dB = match settled with [] => None | _ :: _ => Some NaN end).
  { injection Hst as _ ->. unfold settledState. cbn [memoryUsage set_inFlight set_trace
      set_memoryUsage]. change (memoryUsage d1) with (@None JsNumber).
    rewrite counted_undefined. subst settled.
    change (batchOrder env d0 deps) with (batchOrder env d1 deps).
    rewrite (okPrefix_ext env 1 d0 d1) by done.
    by destruct (okPrefix env 1 d1 (batchOrder env d1 deps)). }
  unfold batchRequests in HtB. rewrite Hun in HtB.
  destruct rB as [[]|e].
  - mstep. intros [= <- <-].
    cbn [trace pages lastRequestedPage memoryUsage isOnePageDependenciesLoaded djvi inFlight
         set_isOnePageDependenciesLoaded].
    assert (HiB : inFlight dB = []).
    { by rewrite (loadDependencies_ok_inFlight _ _ _ _ _ HrunB). }
    rewrite HtB, HpB, HhB, HmB. split_and!; try done.
    intros s' env'. rewrite getPageWith_idle by done.
    apply getPage_resident; [|done|by left].
    unfold slot. simpl. by rewrite HpB.
  - intros [= <- <-]. rewrite HtB, HpB, HhB, HmB, Hone. split_and!; try done.
    { destruct HrB as [_ (id & Hid & He)]. rewrite Hun in Hid. by exists id. }
    intros indices d'' Hland.
    destruct (landAll_run indices dB) as (landed & rest & _ & Hrun).
    rewrite Hrun in Hland. injection Hland as <-.
    cbn [isOnePageDependenciesLoaded pages trace memoryUsage set_inFlight set_memoryUsage
         set_djvi].
    rewrite HpB, Hone, HmB. split_and!; try done.
    destruct settled; [rewrite counted_undefined; destruct (landedSizes landed)|
                       rewrite counted_NaN]; auto.
Qed.

(** ** slice: what the two passes compute *)

Lemma foldl_union_singleton (deps : gset string) (l : list string) :
  foldl (λ deps id, deps ∪ {[id]}) deps l = deps ∪ list_to_set l.
Proof.
  revert deps. induction l as [|x l IH]; intros deps; simpl.
  - by rewrite (right_id_L ∅ (∪)).
  - rewrite IH. by rewrite (assoc_L (∪)).
Qed.

Lemma drop_pos_cons {A} (n : Z) (x : A) (l : list A) :
  0 < n → drop (Z.to_nat n) (x :: l) = drop (Z.to_nat (n - 1)) l.
Proof. intros H. replace (Z.to_nat n) with (S (Z.to_nat (n - 1))) by lia. done. Qed.

Lemma take_pos_cons {A} (n : Z) (x : A) (l : list A) :
  0 < n → take (Z.to_nat n) (x :: l) = x :: take (Z.to_nat (n - 1)) l.
Proof. intros H. replace (Z.to_nat n) with (S (Z.to_nat (n - 1))) by lia. done. Qed.

Lemma take_nonpos {A} (n : Z) (l : list A) : n ≤ 0 → take (Z.to_nat n) l = [].
Proof. intros H. by replace (Z.to_nat n) with 0%nat by lia. Qed.

Lemma drop_nonpos {A} (n : Z) (l : list A) : n ≤ 0 → drop (Z.to_nat n) l = l.
Proof. intros H. by replace (Z.to_nat n) with 0%nat by lia. Qed.

(** The pages the second pass copies, from any turn of the loop on. *)
Lemma slicePass2_pages from pn deps es pi a :
  0 ≤ pi → a = Z.max 0 (pi - Z.max from 1 + 1) →
  filter (λ e, isPageFlags (e_flags e) = true) (slicePass2 from pn deps es pi a)
  = take (Z.to_nat (pn - a))
      (drop (Z.to_nat (Z.max from 1 - 1 - pi))
         (filter (λ e, isPageFlags (e_flags e) = true) es)).
Proof.
  revert pi a. induction es as [|e es IH]; intros pi a Hpi Ha.
  { simpl slicePass2. by rewrite !filter_nil, drop_nil, take_nil. }
  simpl slicePass2. rewrite (filter_cons _ e es).
  destruct (Z.ltb_spec a pn) as [Hlt|Hge].
  2:{ rewrite take_nonpos by lia. done. }
  destruct (isPageFlags (e_flags e)) eqn:Hp.
  - rewrite decide_True by done. simpl andb.
    destruct (Z.ltb_spec (pi + 1) from) as [Hskip|Hin].
    + rewrite (IH (pi + 1) a) by lia. rewrite drop_pos_cons by lia.
      by replace (Z.max from 1 - 1 - pi - 1) with (Z.max from 1 - 1 - (pi + 1)) by lia.
    + rewrite orb_true_r. rewrite filter_cons, decide_True by (by rewrite Hp).
      rewrite (IH (pi + 1) (a + 1)) by lia.
      rewrite (drop_nonpos (Z.max from 1 - 1 - pi)) by lia.
      rewrite (drop_nonpos (Z.max from 1 - 1 - (pi + 1))) by lia.
      rewrite take_pos_cons by lia.
      by replace (pn - a - 1) with (pn - (a + 1)) by lia.
  - rewrite decide_False by done. simpl andb. rewrite orb_false_r.
    case_bool_decide.
    + rewrite filter_cons, decide_False by (by rewrite Hp). by apply IH.
    + by apply IH.
Qed.

(** X13. The page files of the directory [slice(from, to)] builds are the
    page files of the source numbered from .. to, in order: the first
    from - 1 page files are skipped and at most to - from + 1 are taken (all
    that remain when the source has fewer; none when to < from; with
    from < 1 the count to - from + 1 is taken from the first page on). *)
Theorem slice_pages env dm from to :
  pageEntries (sliceDirm env dm from to) = pagesInRange dm from to.
Proof.
  unfold pageEntries, sliceDirm, pagesInRange. cbn [entries].
  rewrite (slicePass2_pages from (to - from + 1) _ (entries dm) 0 0) by lia.
  rewrite !Z.sub_0_r. by replace (Z.to_nat (Z.max from 1 - 1)) with (Z.to_nat (from - 1)) by lia.
Qed.

(** The identifiers the first pass collects, from any turn of the loop on. *)
Lemma slicePass1_deps env from pn es pi a deps :
  0 ≤ pi → a = Z.max 0 (pi - Z.max from 1 + 1) →
  slicePass1 env from pn es pi a deps
  = deps ∪ list_to_set
             (includedBy env
                (take (Z.to_nat (pn - a))
                   (drop (Z.to_nat (Z.max from 1 - 1 - pi))
                      (filter (λ e, isPageFlags (e_flags e) = true) es)))).
Proof.
  revert pi a deps. induction es as [|e es IH]; intros pi a deps Hpi Ha.
  { simpl slicePass1. rewrite filter_nil, drop_nil, take_nil. unfold includedBy.
    simpl. by rewrite (right_id_L ∅ (∪)). }
  simpl slicePass1. rewrite (filter_cons _ e es).
  destruct (Z.ltb_spec a pn) as [Hlt|Hge].
  2:{ rewrite take_nonpos by lia. unfold includedBy. simpl.
      by rewrite (right_id_L ∅ (∪)). }
  destruct (isPageFlags (e_flags e)) eqn:Hp.
  - rewrite decide_True by done.
    destruct (Z.ltb_spec (pi + 1) from) as [Hskip|Hin].
    + rewrite (IH (pi + 1) a) by lia. rewrite drop_pos_cons by lia.
      by replace (Z.max from 1 - 1 - pi - 1) with (Z.max from 1 - 1 - (pi + 1)) by lia.
    + rewrite (IH (pi + 1) (a + 1)) by lia. rewrite foldl_union_singleton.
      rewrite (drop_nonpos (Z.max from 1 - 1 - pi)) by lia.
      rewrite (drop_nonpos (Z.max from 1 - 1 - (pi + 1))) by lia.
      rewrite take_pos_cons by lia. unfold includedBy. rewrite bind_cons.
      rewrite list_to_set_app_L, (assoc_L (∪)).
      by replace (pn - a - 1) with (pn - (a + 1)) by lia.
  - rewrite decide_False by done. by apply IH.
Qed.

Lemma slicePass1_included env dm from to :
  slicePass1 env from (to - from + 1) (entries dm) 0 0 ∅
  = list_to_set (includedBy env (pagesInRange dm from to)).
Proof.
  rewrite (slicePass1_deps env from _ _ 0 0) by lia. rewrite (left_id_L ∅ (∪)).
  unfold pagesInRange, pageEntries. rewrite !Z.sub_0_r.
  by replace (Z.to_nat (Z.max from 1 - 1)) with (Z.to_nat (from - 1)) by lia.
Qed.

Lemma pagesAmong_cons e es :
  pagesAmong (e :: es) = (if isPageFlags (e_flags e) then 1 else 0) + pagesAmong es.
Proof.
  unfold pagesAmong. rewrite filter_cons.
  destruct (isPageFlags (e_flags e)) eqn:Hp.
  - rewrite decide_True by done. simpl. lia.
  - rewrite decide_False by done. lia.
Qed.

Lemma pagesAmong_nonneg es : 0 ≤ pagesAmong es.
Proof. unfold pagesAmong. lia. Qed.

(** The files other than pages the second pass copies. *)
Lemma slicePass2_others from pn deps es pi a e :
  0 ≤ pi → a = Z.max 0 (pi - Z.max from 1 + 1) →
  isPageFlags (e_flags e) = false →
  e ∈ slicePass2 from pn deps es pi a
  ↔ e_id e ∈ deps
    ∧ ∃ l1 l2, es = l1 ++ e :: l2
               ∧ Z.max 0 (pi + pagesAmong l1 - Z.max from 1 + 1) < pn.
Proof.
  intros Hpi Ha He. revert pi a Hpi Ha. induction es as [|x es IH]; intros pi a Hpi Ha.
  { simpl. split; [by intros ?%not_elem_of_nil|].
    intros (_ & l1 & l2 & Hl & _). by destruct l1. }
  assert (Hsplit : ∀ P : list DirEntry → Prop,
    (∃ l1 l2, x :: es = l1 ++ e :: l2 ∧ P l1)
    ↔ (x = e ∧ P []) ∨ ∃ l1 l2, es = l1 ++ e :: l2 ∧ P (x :: l1)).
  { intros P. split.
    - intros ([|y l1] & l2 & Hl & HP); simpl in Hl.
      + injection Hl as -> ->. by left.
      + injection Hl as -> ->. right. by exists l1, l2.
    - intros [[-> HP]|(l1 & l2 & -> & HP)].
      + by exists [], es.
      + by exists (x :: l1), l2. }
  rewrite (Hsplit (λ l1, Z.max 0 (pi + pagesAmong l1 - Z.max from 1 + 1) < pn)).
  change (pagesAmong []) with 0.
  simpl slicePass2.
  destruct (Z.ltb_spec a pn) as [Hlt|Hge].
  2:{ split; [by intros ?%not_elem_of_nil|].
      intros (_ & [[_ H]|(l1 & l2 & _ & H)]).
      - lia.
      - pose proof (pagesAmong_nonneg (x :: l1)). lia. }
  destruct (isPageFlags (e_flags x)) eqn:Hp.
  - simpl andb. assert (Hne : x ≠ e) by (intros ->; congruence).
    destruct (Z.ltb_spec (pi + 1) from) as [Hskip|Hin].
    + rewrite (IH (pi + 1) a) by lia.
      split.
      * intros (Hd & l1 & l2 & Hl & H). split; [done|]. right. exists l1, l2.
        split; [done|]. rewrite pagesAmong_cons, Hp. lia.
      * intros (Hd & [[? _]|(l1 & l2 & Hl & H)]); [done|]. split; [done|].
        exists l1, l2. split; [done|]. rewrite pagesAmong_cons, Hp in H. lia.
    + rewrite orb_true_r. rewrite elem_of_cons, (IH (pi + 1) (a + 1)) by lia.
      split.
      * intros [?|(Hd & l1 & l2 & Hl & H)]; [done|]. split; [done|]. right.
        exists l1, l2. split; [done|]. rewrite pagesAmong_cons, Hp. lia.
      * intros (Hd & [[? _]|(l1 & l2 & Hl & H)]); [done|]. right. split; [done|].
        exists l1, l2. split; [done|]. rewrite pagesAmong_cons, Hp in H. lia.
  - simpl andb. rewrite orb_false_r.
    assert (Hrest : e ∈ slicePass2 from pn deps es pi a
                    ↔ e_id e ∈ deps
                      ∧ ∃ l1 l2, es = l1 ++ e :: l2
                                 ∧ Z.max 0 (pi + pagesAmong (x :: l1) - Z.max from 1 + 1) < pn).
    { rewrite (IH pi a) by lia. split; intros (Hd & l1 & l2 & Hl & H); (split; [done|]);
        exists l1, l2; (split; [done|]); rewrite pagesAmong_cons, Hp in *; lia. }
    case_bool_decide as Hx.
    + rewrite elem_of_cons, Hrest. split.
      * intros [->|[Hd H]]; [|by auto]. split; [done|]. left. split; [done|lia].
      * intros (Hd & [[-> _]|H]); [by left|right; by auto].
    + rewrite Hrest. split.
      * intros [Hd H]. by auto.
      * intros (Hd & [[-> _]|H]); [done|by auto].
Qed.

(** X14. For 1 <= from <= to, a file of the directory that is not a page
    is copied by [slice(from, to)] exactly when its identifier is included
    by one of the pages from .. to and fewer than [to] page files precede it
    (at one of its occurrences) in the directory. *)
Theorem slice_copies_dependencies env dm from to e :
  1 ≤ from ≤ to → isPageFlags (e_flags e) = false → plainKey (e_id e) →
  e ∈ entries (sliceDirm env dm from to)
  ↔ e_id e ∈ includedBy env (pagesInRange dm from to)
    ∧ ∃ l1 l2, entries dm = l1 ++ e :: l2 ∧ pagesAmong l1 < to.
Proof.
  intros [Hlo Hhi] He _. unfold sliceDirm. cbn [entries].
  rewrite (slicePass2_others from _ _ _ 0 0) by (done || lia).
  rewrite slicePass1_included, elem_of_list_to_set.
  split; intros (Hd & l1 & l2 & Hl & H); (split; [done|]); exists l1, l2;
    (split; [done|]); pose proof (pagesAmong_nonneg l1); lia.
Qed.

Lemma slicePass2_sublist from pn deps es pi a :
  slicePass2 from pn deps es pi a `sublist_of` es.
Proof.
  revert pi a. induction es as [|e es IH]; intros pi a; simpl; [done|].
  destruct (a <? pn); [|apply sublist_nil_l].
  destruct (isPageFlags (e_flags e) && _); [by apply sublist_cons|].
  destruct (_ || _); [by apply sublist_skip|by apply sublist_cons].
Qed.

(** X15. The files of the directory [slice] builds are a subsequence of
    the files of the source directory: none is duplicated, reordered or
    invented; the flag byte of the directory is copied, and an empty range
    (to < from) copies nothing. *)
Theorem slice_keeps_order env dm from to :
  entries (sliceDirm env dm from to) `sublist_of` entries dm
  ∧ dflags (sliceDirm env dm from to) = dflags dm
  ∧ (to < from → entries (sliceDirm env dm from to) = []).
Proof.
  split; [apply slicePass2_sublist|]. split; [done|].
  intros H. unfold sliceDirm. cbn [entries]. apply slicePass2_stop. lia.
Qed.

(** ** concat: what is handed to the Writer *)

Lemma lookups_take {A B} (f : A → B) (l : list A) n :
  (n ≤ length l)%nat →
  (λ i, f <$> l !! i) <$> seq 0 n = (Some ∘ f) <$> take n l.
Proof.
  intros Hn. apply list_eq. intros i. rewrite !list_lookup_fmap.
  destruct (decide (i < n)%nat) as [Hi|Hi].
  - rewrite lookup_seq_lt by done. simpl. rewrite lookup_take_lt by done.
    destruct (lookup_lt_is_Some_2 l i) as [x ->]; [lia|]. done.
  - rewrite lookup_seq_ge by lia. rewrite lookup_take_ge by lia. done.
Qed.

Lemma slots_seq (ps : list (option DjVuPage)) :
  (λ i, mjoin (ps !! i)) <$> seq 0 (length ps) = ps.
Proof.
  apply list_eq. intros i. rewrite list_lookup_fmap.
  destruct (decide (i < length ps)%nat) as [Hi|Hi].
  - rewrite lookup_seq_lt by done. simpl.
    destruct (lookup_lt_is_Some_2 ps i) as [x ->]; [lia|]. done.
  - rewrite lookup_seq_ge by lia. by rewrite lookup_ge_None_2 by lia.
Qed.

Lemma concatFirst_records dm (ps : list (option DjVuPage)) n :
  let st := foldl (λ st i,
                     let id := e_id <$> entries dm !! i in
                     csAdd (csPush st (e_flags <$> entries dm !! i)
                                   (e_size <$> entries dm !! i) id (mjoin (ps !! i))) id)
                  csEmpty (seq 0 n) in
  cs_flags st = (λ i, e_flags <$> entries dm !! i) <$> seq 0 n
  ∧ cs_sizes st = (λ i, e_size <$> entries dm !! i) <$> seq 0 n.
Proof.
  induction n as [|n IH]; cbv zeta; [done|].
  rewrite seq_S, foldl_app. cbv zeta in IH. destruct IH as (Hf & Hs).
  simpl foldl. simpl cs_flags. simpl cs_sizes. by rewrite Hf, Hs, !fmap_app.
Qed.

Lemma concatSecondLoop_records dm pages2 indices st :
  ∃ st', concatSecondLoop dm pages2 indices st = Ok st'
         ∧ cs_flags st' = cs_flags st ++ ((λ i, e_flags <$> entries dm !! i) <$> indices)
         ∧ cs_sizes st' = cs_sizes st ++ ((λ i, e_size <$> entries dm !! i) <$> indices)
         ∧ cs_pages st' = cs_pages st ++ ((λ i, mjoin (pages2 !! i)) <$> indices)
         ∧ length (cs_ids st') = (length (cs_ids st) + length indices)%nat.
Proof.
  revert st. induction indices as [|k indices IH]; intros st.
  { exists st. simpl. rewrite !app_nil_r. split_and!; [done..|lia]. }
  simpl concatSecondLoop.
  destruct (uniqueId_spec (cs_idset st) (e_id <$> entries dm !! k)) as (newid & -> & _).
  destruct (IH (csAdd (csPush st (e_flags <$> entries dm !! k) (e_size <$> entries dm !! k)
                         newid (mjoin (pages2 !! k))) newid))
    as (st' & Hrun & Hf & Hs & Hp & Hl).
  exists st'. split; [done|]. simpl in Hf, Hs, Hp, Hl.
  rewrite Hf, Hs, Hp, Hl. simpl. rewrite <- !app_assoc, length_app. simpl.
  split_and!; [done..|lia].
Qed.

Lemma writePages_slots (ps : list (option DjVuPage)) :
  writePages ps (seq 0 (length ps))
  = match mapM id ps with
    | Some written => Ok written
    | None => Throw TypeError
    end.
Proof.
  assert (Hgen : ∀ pre rest, ps = pre ++ rest →
            writePages ps (seq (length pre) (length rest))
            = match mapM id rest with
              | Some written => Ok written
              | None => Throw TypeError
              end).
  2:{ apply (Hgen [] ps). done. }
  intros pre rest. revert pre. induction rest as [|o rest IH]; intros pre Hps; [done|].
  simpl seq. simpl writePages. rewrite Hps at 1.
  rewrite lookup_app_r by lia. rewrite Nat.sub_diag. simpl.
  destruct o as [p|]; simpl; [|done].
  specialize (IH (pre ++ [Some p])). rewrite length_app in IH. simpl in IH.
  rewrite Nat.add_1_r in IH. rewrite IH by (by rewrite <- app_assoc).
  by destruct (mapM id rest).
Qed.

(** X16. For two documents with directories (each with no more page slots
    than directory files), [concat] hands the Writer the pages of the first
    document followed by those of the second, in slot order, when every slot
    holds a page, and throws a TypeError when a slot is empty.  The flags
    and sizes of the directory it builds are those of the first
    [pages.length] files of each source directory, in file order, be they
    pages or not. *)
Theorem concat_layout doc1 doc2 dm1 dm2 :
  dirm doc1 = Some dm1 → dirm doc2 = Some dm2 →
  (length (pages doc1) ≤ length (entries dm1))%nat →
  (length (pages doc2) ≤ length (entries dm2))%nat →
  let files := take (length (pages doc1)) (entries dm1)
               ++ take (length (pages doc2)) (entries dm2) in
  (Forall is_Some (pages doc1 ++ pages doc2) →
   ∃ dd written,
     concat doc1 doc2 = Ok (dd, written)
     ∧ Some <$> written = pages doc1 ++ pages doc2
     ∧ dd_flags dd = (Some ∘ e_flags) <$> files
     ∧ dd_sizes dd = (Some ∘ e_size) <$> files
     ∧ length (dd_ids dd) = length written)
  ∧ (¬ Forall is_Some (pages doc1 ++ pages doc2) → concat doc1 doc2 = Throw TypeError).
Proof.
  intros Hd1 Hd2 Hl1 Hl2 files.
  unfold concat, concatDirm, concatFirst, concatSecond. rewrite Hd1, Hd2.
  set (st1 := foldl _ csEmpty _).
  destruct (concatFirst_records dm1 (pages doc1) (length (pages doc1))) as [Hf1 Hs1].
  destruct (concatFirst_fold dm1 (pages doc1) (length (pages doc1))) as (Hi1 & _ & Hp1).
  cbv zeta in Hf1, Hs1, Hi1, Hp1. fold st1 in Hf1, Hs1, Hi1, Hp1.
  destruct (concatSecondLoop_records dm2 (pages doc2) (seq 0 (length (pages doc2))) st1)
    as (st & -> & Hf & Hs & Hp & Hl).
  rewrite Hf1, Hs1, Hp1, Hi1 in *. rewrite !slots_seq in Hp.
  rewrite !lookups_take in Hf, Hs by done. rewrite !length_fmap, !length_seq in Hl.
  assert (Hw : writePages (cs_pages st) (seq 0 (length (pages doc1) + length (pages doc2)))
               = match mapM id (pages doc1 ++ pages doc2) with
                 | Some written => Ok written
                 | None => Throw TypeError
                 end).
  { rewrite <- Hp, <- (writePages_slots (cs_pages st)). by rewrite Hp, length_app. }
  rewrite Hw. split.
  - intros Hall.
    destruct (mapM id (pages doc1 ++ pages doc2)) as [written|] eqn:Hm.
    + apply mapM_Some in Hm.
      assert (Hsome : Some <$> written = pages doc1 ++ pages doc2).
      { apply list_eq. intros i. rewrite list_lookup_fmap.
        destruct ((pages doc1 ++ pages doc2) !! i) as [o|] eqn:Ho.
        - destruct (Forall2_lookup_l _ _ _ _ _ Hm Ho) as (p & -> & Hop).
          simpl in *. by rewrite Hop.
        - apply Forall2_length in Hm. apply lookup_ge_None in Ho.
          rewrite lookup_ge_None_2 by lia. done. }
      eexists _, _. split; [reflexivity|]. cbn [dd_flags dd_sizes dd_ids]. subst files.
      split_and!; [done|by rewrite Hf, fmap_app|by rewrite Hs, fmap_app|].
      rewrite Hl. apply (f_equal length) in Hsome.
      rewrite length_fmap, length_app in Hsome. lia.
    + exfalso. apply mapM_None in Hm. apply Exists_exists in Hm as (o & Ho & Hn).
      rewrite Forall_forall in Hall. destruct (Hall o Ho) as [p ->]. done.
  - intros Hnot.
    destruct (mapM id (pages doc1 ++ pages doc2)) as [written|] eqn:Hm; [|done].
    exfalso. apply Hnot. apply mapM_Some in Hm. apply Forall_forall. intros o Ho.
    apply list_elem_of_lookup in Ho as [i Ho].
    destruct (Forall2_lookup_l _ _ _ _ _ Hm Ho) as (p & _ & Hop). simpl in Hop.
    rewrite Hop. done.
Qed.

(** ** The further properties on the sample documents *)

Ltac plain_keys :=
  repeat (constructor; [unfold plainKey; by_decide|]); constructor.

Lemma afterCalls_loadedOnce : afterCalls (indirectDoc 1000) (loadedOnce 1000).
Proof.
  eapply (ac_getPage _ quiet sampleEnv 2 (indirectDoc 1000)); [apply ac_start| |].
  - intros b Hb. vm_compute in Hb. injection Hb as <-. plain_keys.
  - unfold loadedOnce, afterCall. by_run.
Qed.

Lemma afterCalls_failedOnce : afterCalls (indirectDoc 1000) (failedOnce 1000).
Proof.
  eapply (ac_getPage _ quiet failingEnv 1 (loadedOnce 1000)); [apply afterCalls_loadedOnce| |].
  - intros b Hb. vm_compute in Hb. injection Hb as <-. plain_keys.
  - unfold failedOnce, afterCall. by_run.
Qed.

Lemma afterCalls_landedLate : afterCalls (indirectDoc 1000) (landedLate 1000).
Proof.
  eapply (ac_land _ 0 (failedOnce 1000)); [apply afterCalls_failedOnce|].
  unfold landedLate. by_run.
Qed.

Lemma failingEnv_readable : readableBodies failingEnv.
Proof.
  intros url b. unfold failingEnv, sampleFetch. cbn [fetch].
  repeat (match goal with |- context [if ?c then _ else _] => destruct c end);
    intros [= <-]; by vm_compute.
Qed.

Lemma construct_leadingDoc :
  construct sampleEnv leadingDecoders indirectHeader None MEMORY_LIMIT = Ok leadingDoc.
Proof. reflexivity. Qed.

Lemma construct_singlePageDoc :
  construct sampleEnv sampleDecoders page2File None MEMORY_LIMIT = Ok singlePageDoc.
Proof. reflexivity. Qed.

Lemma countFiles_counts_forms_witness :
  countFiles (sampleHeader +:+ chunksBytes sampleChunks) = Read 2%nat.
Proof.
  apply (countFiles_counts_forms sampleHeader sampleChunks); [reflexivity|].
  repeat (constructor; [split; [reflexivity|by vm_compute]|]). constructor.
Defined.

Lemma countFiles_no_progress_witness :
  countFiles (sampleHeader +:+ chunksBytes sampleChunks +:+ "FORM" +:+ minus8Bytes +:+ "")
  = Raise LoopBound.
Proof.
  apply (countFiles_no_progress sampleHeader sampleChunks "FORM" ""); [reflexivity| |reflexivity].
  repeat (constructor; [split; [reflexivity|by vm_compute]|]). constructor.
Defined.

Lemma readHeaderChunks_finds_witness :
  readHeaderChunks (sampleHeader +:+ chunkBytes "DIRM" "dir" +:+ chunkBytes "NAVM" "toc"
                      +:+ chunkBytes "FORM" "DJVUpage1")
  = Read (chunkSpan "DIRM" "dir", Some (chunkSpan "NAVM" "toc")).
Proof.
  destruct (readHeaderChunks_finds sampleHeader "dir"
              (chunkBytes "NAVM" "toc" +:+ chunkBytes "FORM" "DJVUpage1"))
    as (Hfound & _ & _); [reflexivity|by vm_compute|].
  apply (Hfound "toc" (chunkBytes "FORM" "DJVUpage1")); [reflexivity|by vm_compute|].
  left. discriminate.
Defined.



Lemma indirect_queue_and_resources_witness :
  NoDup (loadedPageNumbers (landedLate 1000))
  ∧ (∀ number p id, slot (landedLate 1000) number = Some p → id ∈ pg_deps p →
                    is_Some (djvi (landedLate 1000) !! id))
  ∧ ∃ v : Z, memoryUsage (landedLate 1000) = Some (Num v).
Proof.
  destruct (indirect_queue_and_resources sampleEnv sampleDecoders indirectHeader
              (Some "http://host") 1000 (indirectDoc 1000) (landedLate 1000))
    as (_ & Hnd & _ & Hdeps & Hm).
  - apply construct_indirectDoc.
  - by vm_compute.
  - apply afterCalls_landedLate.
  - split; [exact Hnd|]. split; [exact Hdeps|exact Hm].
Defined.

Lemma indirect_getPage_errors_witness :
  documentedError 1 (UnsuccessfulRequestDjVuError 1 (Some "b")).
Proof.
  assert (Hrun : getPageWith landFirst failingEnv 1 (failedOnce 1000)
                 = (Throw (UnsuccessfulRequestDjVuError 1 (Some "b")),
                    (getPageWith landFirst failingEnv 1 (failedOnce 1000)).2)).
  { by_run. }
  eapply (indirect_getPage_errors sampleEnv sampleDecoders indirectHeader
            (Some "http://host") 1000 (indirectDoc 1000) (failedOnce 1000) landFirst
            failingEnv 1);
    [apply construct_indirectDoc|by vm_compute|apply afterCalls_failedOnce| | |exact Hrun].
  - intros b Hb. vm_compute in Hb. injection Hb as <-. plain_keys.
  - apply failingEnv_readable.
Defined.

Lemma indirect_getPageNumberByUrl_witness :
  getPageNumberByUrl roundDecimal (loadedOnce 1000) "#02" = Ok (Some 2)
  ∧ getPageNumberByUrl roundDecimal (loadedOnce 1000) "#p2" = Ok None.
Proof.
  split.
  - destruct (indirect_getPageNumberByUrl sampleEnv sampleDecoders indirectHeader
                (Some "http://host") 1000 (indirectDoc 1000) (loadedOnce 1000)
                roundDecimal "02") as [_ ->];
      [apply construct_indirectDoc|by vm_compute|apply afterCalls_loadedOnce|
       unfold plainKey; by_decide|by vm_compute].
  - destruct (indirect_getPageNumberByUrl sampleEnv sampleDecoders indirectHeader
                (Some "http://host") 1000 (indirectDoc 1000) (loadedOnce 1000)
                roundDecimal "p2") as [_ ->];
      [apply construct_indirectDoc|by vm_compute|apply afterCalls_loadedOnce|
       unfold plainKey; by_decide|by vm_compute].
Defined.

Lemma indirect_getPage_loads_witness :
  ∃ k d', getPageWith landFirst sampleEnv 1 (landedLate 1000)
          = (Ok (Some {| pg_ref := 2; pg_buffer := 25; pg_length := 21;
                         pg_deps := ["a"; "b"; "c"] |}), d')
          ∧ k = 0%nat
          ∧ loadedPageNumbers d' = [1%nat; 0%nat]
          ∧ inFlight d' = []
          ∧ memoryUsage d' = Some 150.
Proof.
  destruct (indirect_getPage_loads sampleEnv sampleDecoders indirectHeader
              (Some "http://host") 1000 (indirectDoc 1000) (landedLate 1000) landFirst
              sampleEnv 1 "http://host/" indirectDirm page1File)
    as (k & d' & Hrun & _ & _ & Hq & _ & _ & _ & Hidle & Hwithin).
  - apply construct_indirectDoc.
  - by vm_compute.
  - apply afterCalls_landedLate.
  - by vm_compute.
  - by vm_compute.
  - split; by vm_compute.
  - by vm_compute.
  - by vm_compute.
  - by vm_compute.
  - by vm_compute.
  - plain_keys.
  - intros id Hid. vm_compute in Hid.
    apply elem_of_cons in Hid as [->|Hid]; [by eexists; vm_compute|].
    by apply not_elem_of_nil in Hid.
  - destruct (Hwithin 107) as (-> & Hm & _); [by vm_compute|by vm_compute|].
    exists 0%nat, d'. split; [exact Hrun|]. split; [done|].
    split; [rewrite Hq; by vm_compute|]. split; [exact Hidle|rewrite Hm; by vm_compute].
Defined.

Lemma bundled_parse_witness :
  pages leadingDoc
  = [Some {| pg_ref := 0; pg_buffer := 24; pg_length := 20; pg_deps := ["dict"] |}]
  ∧ is_Some (djvi leadingDoc !! "dict") ∧ memoryUsage leadingDoc = None.
Proof.
  destruct (bundled_parse sampleEnv leadingDecoders indirectHeader None MEMORY_LIMIT
              leadingDoc leadingDirm construct_leadingDoc)
    as (Hp & Hj & _ & Hm & _); [by vm_compute|by vm_compute|by_decide|].
  split; [rewrite Hp; by vm_compute|]. split; [|exact Hm].
  apply Hj; [unfold plainKey|]; by_decide.
Defined.

Lemma bundled_getPage_witness :
  (∃ d', getPage offlineEnv 1 leadingDoc
         = (Ok (Some {| pg_ref := 0; pg_buffer := 24; pg_length := 20;
                        pg_deps := ["dict"] |}), d'))
  ∧ ∃ d', getPage offlineEnv 2 leadingDoc = (Throw (NoSuchPageDjVuError 2), d').
Proof.
  split.
  - destruct (bundled_getPage sampleEnv leadingDecoders indirectHeader None MEMORY_LIMIT
                leadingDoc leadingDoc offlineEnv 1 construct_leadingDoc)
      as (_ & _ & _ & _ & _ & d' & Hrun); [by vm_compute|by vm_compute|apply ac_start|].
    by exists d'.
  - destruct (bundled_getPage sampleEnv leadingDecoders indirectHeader None MEMORY_LIMIT
                leadingDoc leadingDoc offlineEnv 2 construct_leadingDoc)
      as (_ & _ & _ & _ & _ & d' & Hrun); [by vm_compute|by vm_compute|apply ac_start|].
    by exists d'.
Defined.

Lemma bundled_reference_loads_witness :
  ∃ p d', slot leadingDoc 1 = Some p ∧ getPage offlineEnv 1 leadingDoc = (Ok (Some p), d').
Proof.
  destruct (bundled_reference_loads sampleEnv leadingDecoders indirectHeader None
              MEMORY_LIMIT leadingDoc leadingDoc roundDecimal "001" 1 offlineEnv
              construct_leadingDoc)
    as (_ & p & d' & Hs & Hrun);
    [by vm_compute|by vm_compute|apply ac_start|unfold plainKey; by_decide|by vm_compute|].
  by exists p, d'.
Defined.

Lemma bundled_identifier_round_trip_witness :
  getPageNumberByUrl roundDecimal leadingDoc "#p1" = Ok (Some 1)
  ∧ ∃ d', getPage offlineEnv 1 leadingDoc
          = (Ok (Some {| pg_ref := 0; pg_buffer := 24; pg_length := 20;
                         pg_deps := ["dict"] |}), d').
Proof.
  destruct (bundled_identifier_round_trip sampleEnv leadingDecoders indirectHeader None
              MEMORY_LIMIT leadingDoc leadingDoc leadingDirm roundDecimal 0 pageEntry
              offlineEnv construct_leadingDoc)
    as (Hurl & d' & Hrun);
    [by vm_compute|by vm_compute|by_decide|apply ac_start|by_decide|by vm_compute|
     discriminate|].
  split; [exact Hurl|]. by exists d'.
Defined.

Lemma releaseMemoryIfRequired_idempotent_witness :
  ∃ d', releaseMemoryIfRequired (Some ["a"]) overBudgetDoc = (Ok tt, d')
        ∧ releaseMemoryIfRequired (Some ["a"]) d' = (Ok tt, d').
Proof.
  apply (releaseMemoryIfRequired_idempotent (Some ["a"]) overBudgetDoc).
  - by eexists; vm_compute.
  - by_decide.
  - apply Forall_forall. by_decide.
  - by_decide.
  - plain_keys.
  - apply Forall_forall. by_decide.
Defined.

Lemma uniformEnv_readable : readableBodies uniformEnv.
Proof. intros url b [= <-]. by vm_compute. Qed.

Lemma single_page_first_access_witness :
  ∃ p d', getPageWith landFirst uniformEnv 1 singlePageDoc = (Ok (Some p), d')
          ∧ trace d' = [EvFetch "nulla"]
          ∧ memoryUsage d' = Some NaN
          ∧ isOnePageDependenciesLoaded d' = true.
Proof.
  assert (Hrun : getPageWith landFirst uniformEnv 1 singlePageDoc
                 = (Ok (lastRequestedPage (getPageWith landFirst uniformEnv 1 singlePageDoc).2),
                    (getPageWith landFirst uniformEnv 1 singlePageDoc).2)).
  { by_run. }
  destruct (single_page_first_access sampleEnv sampleDecoders page2File None MEMORY_LIMIT
              singlePageDoc landFirst uniformEnv _ _ construct_singlePageDoc eq_refl
              ltac:(plain_keys) uniformEnv_readable Hrun)
    as (Ht & _ & _ & Hm & Hv & Hflag & _).
  eexists _, _. split; [rewrite Hrun, Hv; reflexivity|].
  split; [rewrite Ht; by vm_compute|]. split; [rewrite Hm; by vm_compute|exact Hflag].
Defined.

Lemma slice_copies_dependencies_witness :
  dictEntry ∈ entries (sliceDirm sampleEnv leadingDirm 1 1)
  ∧ dictEntry ∉ entries (sliceDirm sampleEnv trailingDirm 1 1).
Proof.
  split.
  - apply (slice_copies_dependencies sampleEnv leadingDirm 1 1 dictEntry);
      [lia|reflexivity|unfold plainKey; by_decide|].
    split; [by_decide|]. exists [], [pageEntry]. split; [reflexivity|by vm_compute].
  - intros Hin.
    apply (slice_copies_dependencies sampleEnv trailingDirm 1 1 dictEntry) in Hin
      as (_ & l1 & l2 & Hl & Hlt); [|lia|reflexivity|unfold plainKey; by_decide].
    destruct l1 as [|x [|y l1]]; [discriminate| |by destruct l1].
    injection Hl as <- _. by vm_compute in Hlt.
Defined.

Lemma concat_layout_witness :
  ∃ dd written,
    concat leadingDoc leadingDoc = Ok (dd, written)
    ∧ Some <$> written = pages leadingDoc ++ pages leadingDoc
    ∧ dd_flags dd = [Some 0; Some 0].
Proof.
  destruct (concat_layout leadingDoc leadingDoc leadingDirm leadingDirm) as [Hok _];
    [by vm_compute|by vm_compute|vm_compute; lia|vm_compute; lia|].
  destruct Hok as (dd & written & Hrun & Hw & Hf & _).
  { by_decide. }
  exists dd, written. split; [exact Hrun|]. split; [exact Hw|]. rewrite Hf. by vm_compute.
Defined.
